(** * SkuVault MCP server: rate limiter, response cache, request queue

    A shallow embedding of the client-mediation layer of the server
    ([src/utils/rate_limiter.py], [src/utils/cache.py],
    [src/utils/request_queue.py], and the decorated [call_endpoint] of
    [src/api_client.py]), followed by the properties of that layer.

    Conventions of the embedding.
    - Python [dict]s keyed by strings are [gmap string _]; the TTL table,
      whose iteration order decides the result, is an association list.
    - Python [float] timestamps and durations are exact rationals [Q]
      (no rounding); Python [int]s are [Z].
    - [time.time()], [loop.time()] and [asyncio.sleep] act on a simulated
      clock: a sleep of a positive duration advances it by exactly that
      duration, any other sleep returns at once.
    - Strings are sequences of ASCII characters; [str.lower] maps
      [A-Z] to [a-z].  [validate_sku], whose answer depends on how text
      outside ASCII is measured and stripped, is followed on the bytes of
      the UTF-8 encoding of its argument.
    - A raised exception is a value of type [exn]; a call returns
      [Raise e] or [Return v].
    - The limiter, the cache and the decorated call are followed one call
      at a time: a call runs to its end before the next one starts, and
      what other tasks do while it sleeps is not part of its model.
      Overlapping calls of [wait_if_needed] are followed separately, as
      coroutines resumed by the event loop ([Tasks]).
    - The request queue is a transition system: a step is what one task
      does between two [await]s, and the scheduler picks the task.  The
      items of its [PriorityQueue] are kept as [heapq] keeps them, and a
      cancelled task ends when it is next resumed.

    The validators of [src/utils/validators.py] and the validation and
    batching of [batch_update_products] in [src/server.py] come last. *)

From Stdlib Require Import ZArith QArith Qround Lqa Lia Ascii String List.
From stdpp Require Import gmap strings list fin_maps pretty.

Local Open Scope string_scope.
Local Open Scope Z_scope.

(** ** Python strings *)

Module PyStr.

(** [c.lower()] on one ASCII character. *)
Definition lower_ascii (c : ascii) : ascii :=
  let n := N_of_ascii c in
  if ((65 <=? n) && (n <=? 90))%N then ascii_of_N (n + 32) else c.

(** [s.lower()]. *)
Fixpoint lower (s : string) : string :=
  match s with
  | EmptyString => EmptyString
  | String c s' => String (lower_ascii c) (lower s')
  end.

(** [s.startswith(p)]. *)
Fixpoint startswith (p s : string) : bool :=
  match p, s with
  | EmptyString, _ => true
  | String a p', String b s' => if Ascii.eqb a b then startswith p' s' else false
  | String _ _, EmptyString => false
  end.

(** [p in s] for strings: [p] occurs in [s] as a contiguous substring. *)
Fixpoint contains (p s : string) : bool :=
  startswith p s ||
  match s with
  | EmptyString => false
  | String _ s' => contains p s'
  end.

(** [len(s)] characters dropped from the front of [s]. *)
Fixpoint drop (n : nat) (s : string) : string :=
  match n, s with
  | O, _ => s
  | S n', String _ s' => drop n' s'
  | S _, EmptyString => EmptyString
  end.

Definition is_digit (c : ascii) : bool :=
  let n := N_of_ascii c in ((48 <=? n) && (n <=? 57))%N.

Definition digit_value (c : ascii) : Z := Z.of_N (N_of_ascii c) - 48.

(** A character of a lowercase hexadecimal digest: [0-9a-f]. *)
Definition is_hex_digit (c : ascii) : bool :=
  let n := N_of_ascii c in ((48 <=? n) && (n <=? 57) || (97 <=? n) && (n <=? 102))%N.

Fixpoint is_hex (s : string) : bool :=
  match s with
  | EmptyString => true
  | String c s' => is_hex_digit c && is_hex s'
  end.

(** [s] consists of decimal digits only. *)
Fixpoint is_digits (s : string) : bool :=
  match s with
  | EmptyString => true
  | String c s' => is_digit c && is_digits s'
  end.

(** The longest run of decimal digits at the front of [s], and the rest. *)
Fixpoint span_digits (s : string) : string * string :=
  match s with
  | String c s' =>
      if is_digit c then let '(d, r) := span_digits s' in (String c d, r)
      else (EmptyString, s)
  | EmptyString => (EmptyString, EmptyString)
  end.

(** [int(d)] for a string of decimal digits, most significant first. *)
Fixpoint int_of_digits (acc : Z) (d : string) : Z :=
  match d with
  | EmptyString => acc
  | String c d' => int_of_digits (10 * acc + digit_value c) d'
  end.

(** Characters that [str.split()] treats as separators. *)
Definition is_space (c : ascii) : bool :=
  let n := N_of_ascii c in ((9 <=? n) && (n <=? 13) || (n =? 32) || (28 <=? n) && (n <=? 31))%N.

Fixpoint lstrip (s : string) : string :=
  match s with
  | String c s' => if is_space c then lstrip s' else s
  | EmptyString => EmptyString
  end.

(** The characters of [s] up to the first separator. *)
Fixpoint take_word (s : string) : string :=
  match s with
  | String c s' => if is_space c then EmptyString else String c (take_word s')
  | EmptyString => EmptyString
  end.

(** [s.split()[0]]: the first whitespace-delimited word, [None] when
    the list is empty (an [IndexError]). *)
Definition first_word (s : string) : option string :=
  match lstrip s with
  | EmptyString => None
  | w => Some (take_word w)
  end.

(** The text before and after the first occurrence of [sep] in [s]. *)
Fixpoint partition (sep s : string) : option (string * string) :=
  if startswith sep s then Some (EmptyString, drop (String.length sep) s)
  else match s with
       | EmptyString => None
       | String c s' =>
           match partition sep s' with
           | Some (a, b) => Some (String c a, b)
           | None => None
           end
       end.

(** [s.split(sep)[1]]: the text between the first and the second
    occurrence of [sep], [None] when [sep] does not occur. *)
Definition split_second (sep s : string) : option string :=
  match partition sep s with
  | None => None
  | Some (_, rest) =>
      match partition sep rest with
      | Some (mid, _) => Some mid
      | None => Some rest
      end
  end.

(** *** Text that need not be ASCII

    Where a function is followed on text outside ASCII, a [str] is held
    as the bytes of its UTF-8 encoding. *)

Definition is_ascii (c : ascii) : bool := (N_of_ascii c <? 128)%N.

(** A byte that continues a character: [10xxxxxx]. *)
Definition is_continuation (c : ascii) : bool :=
  let n := N_of_ascii c in ((128 <=? n) && (n <? 192))%N.

(** [len(s)]: the number of characters; a character starts at each byte
    that is not a continuation. *)
Fixpoint len (s : string) : nat :=
  match s with
  | EmptyString => O
  | String c s' => if is_continuation c then len s' else S (len s')
  end.

(** The whitespace characters that take two bytes, U+0085 and U+00A0,
    and three: U+1680, U+2000 to U+200A, U+2028, U+2029, U+202F, U+205F
    and U+3000. *)
Definition is_space2 (a b : ascii) : bool :=
  let x := N_of_ascii a in
  let y := N_of_ascii b in
  ((x =? 194) && ((y =? 133) || (y =? 160)))%N.

Definition is_space3 (a b c : ascii) : bool :=
  let x := N_of_ascii a in
  let y := N_of_ascii b in
  let z := N_of_ascii c in
  ((x =? 225) && (y =? 154) && (z =? 128)
   || (x =? 226) && (y =? 128)
      && ((128 <=? z) && (z <=? 138) || (z =? 168) || (z =? 169) || (z =? 175))
   || (x =? 226) && (y =? 129) && (z =? 159)
   || (x =? 227) && (y =? 128) && (z =? 128))%N.

(** [s.lstrip()], [s.rstrip()] and [s.strip()] on such text: the
    whitespace characters at the front, or at the end, or at both,
    taken off. *)
Fixpoint lstrip_text (s : string) : string :=
  match s with
  | String a rest =>
      if is_space a then lstrip_text rest
      else
        match rest with
        | String b rest2 =>
            if is_space2 a b then lstrip_text rest2
            else
              match rest2 with
              | String c rest3 => if is_space3 a b c then lstrip_text rest3 else s
              | EmptyString => s
              end
        | EmptyString => s
        end
  | EmptyString => s
  end.

Fixpoint rstrip_text (s : string) : string :=
  match s with
  | EmptyString => EmptyString
  | String c s' =>
      match lstrip_text s with
      | EmptyString => EmptyString       (* nothing but whitespace from here on *)
      | _ => String c (rstrip_text s')
      end
  end.

Definition strip (s : string) : string := rstrip_text (lstrip_text s).

(** [c in s] for a one-character string [c]. *)
Definition has_char (c : ascii) (s : string) : bool := contains (String c EmptyString) s.

Definition is_alnum (c : ascii) : bool :=
  let n := N_of_ascii c in
  ((48 <=? n) && (n <=? 57) || (65 <=? n) && (n <=? 90) || (97 <=? n) && (n <=? 122))%N.

(** Every character of [s] is of the class [cls]. *)
Fixpoint all_in (cls : ascii -> bool) (s : string) : bool :=
  match s with
  | EmptyString => true
  | String c s' => cls c && all_in cls s'
  end.

(** [re.match(r'^[...]+$', s)] for a character class that does not hold
    the newline: one or more characters of the class, up to the end of
    the string or to a newline that ends the string. *)
Fixpoint match_class_plus (cls : ascii -> bool) (s : string) : bool :=
  match s with
  | EmptyString => false
  | String c s' =>
      cls c &&
      match s' with
      | EmptyString => true
      | String "010"%char EmptyString => true
      | _ => match_class_plus cls s'
      end
  end.

End PyStr.

(** ** Python values, exceptions and the simulated clock *)

(** The JSON-like values that travel through the client: API responses,
    request parameters, cached entries. *)
Inductive pyvalue : Type :=
| VNone
| VBool (b : bool)
| VInt (n : Z)
| VStr (s : string)
| VList (l : list pyvalue)
| VDict (kvs : list (string * pyvalue)).

(** A keyword-argument mapping ([**kwargs], [params]). *)
Abbreviation params := (list (string * pyvalue)).

(** [k in d] and [d.get(k)] on a dict given by its items. *)
Fixpoint dict_get (k : string) (kvs : list (string * pyvalue)) : option pyvalue :=
  match kvs with
  | [] => None
  | (k', v) :: rest => if String.eqb k k' then Some v else dict_get k rest
  end.

(** [isinstance(value, dict) and "error" in value]. *)
Definition is_error_dict (value : pyvalue) : bool :=
  match value with
  | VDict kvs => match dict_get "error" kvs with Some _ => true | None => false end
  | _ => false
  end.

Inductive exn : Type :=
| ZeroDivisionError
| KeyError (key : string)
| ImportError (msg : string)
| TimeoutError (msg : string)
| TypeError (msg : string)
| SkuVaultAPIError (msg : string)
| Exception (msg : string).

Inductive result (A : Type) : Type :=
| Return (a : A)
| Raise (e : exn).
Arguments Return {A} a.
Arguments Raise {A} e.

(** Strict [<] on rationals as a boolean. *)
Definition Qltb (x y : Q) : bool := negb (Qle_bool y x).

(** The clock of the event loop, with the record of what was slept. *)
Record Clock : Type := mkClock {
  now : Q;              (* what [time.time()] returns *)
  sleeps : list Q       (* every duration passed to [asyncio.sleep], oldest first *)
}.

Definition time_time (c : Clock) : Q := now c.

(** [await asyncio.sleep(d)]. *)
Definition sleep (d : Q) (c : Clock) : Clock :=
  {| now := if Qltb 0 d then (now c + d)%Q else now c;
     sleeps := sleeps c ++ [d] |}.

(** Time passing between two calls. *)
Definition elapse (d : Q) (c : Clock) : Clock :=
  {| now := (now c + d)%Q; sleeps := sleeps c |}.

(** ** [utils/rate_limiter.py] *)

Record RateLimiter : Type := mkRateLimiter {
  last_call_times : gmap string Q;
  retry_counts : gmap string Z;
  backoff_until : gmap string Q;
  rate_limits : gmap string Z
}.

Module RL.

(** [RateLimiter.__init__]. *)
Definition init : RateLimiter :=
  {| last_call_times := ∅;
     retry_counts := ∅;
     backoff_until := ∅;
     rate_limits :=
       <["getwarehouses" := 1]> (
       <["getproduct" := 5]> (
       <["getproducts" := 5]> (
       <["createproduct" := 5]> (
       <["updateproduct" := 5]> (
       <["getinventorybylocation" := 5]> (
       <["setitemquantity" := 5]> (
       <["additem" := 5]> (
       <["removeitem" := 5]> (
       <["products" := 5]> (
       <["inventory" := 5]> (
       <["warehouses" := 1]> (
       <["default" := 5]> ∅)))))))))))) |}.

(** The category an endpoint falls in when it has no limit of its own
    (the [if]/[elif] chain of [get_rate_limit_key]). *)
Definition category (endpoint_lower : string) : string :=
  if PyStr.contains "product" endpoint_lower then "products"
  else if PyStr.contains "warehouse" endpoint_lower then "warehouses"
  else if PyStr.contains "inventory" endpoint_lower
          || PyStr.contains "location" endpoint_lower then "inventory"
  else "default".

Definition get_rate_limit_key (self : RateLimiter) (endpoint : string) : string :=
  let endpoint_lower := PyStr.lower endpoint in
  match rate_limits self !! endpoint_lower with
  | Some _ => endpoint_lower
  | None => category endpoint_lower
  end.

(** [wait_if_needed]: how the call ends ([60.0 / calls_per_minute] raises
    [ZeroDivisionError] for a limit of 0), and the limiter and the clock it
    leaves. *)
Definition wait_if_needed (self : RateLimiter) (endpoint : string) (clk : Clock)
  : result unit * (RateLimiter * Clock) :=
  let rate_key := get_rate_limit_key self endpoint in
  let current_time := time_time clk in
  (* Check if we're in backoff period *)
  let '(self1, clk1) :=
    match backoff_until self !! rate_key with
    | Some until =>
        let wait_time := (until - current_time)%Q in
        if Qltb 0 wait_time then
          ({| last_call_times := last_call_times self;
              retry_counts := retry_counts self;
              backoff_until := delete rate_key (backoff_until self);
              rate_limits := rate_limits self |},
           sleep wait_time clk)
        else (self, clk)
    | None => (self, clk)
    end in
  (* Check regular rate limit *)
  let regular : result Clock :=
    match last_call_times self1 !! rate_key with
    | Some last =>
        let time_since_last := (current_time - last)%Q in
        let calls_per_minute := default 5 (rate_limits self1 !! rate_key) in
        if calls_per_minute =? 0 then Raise ZeroDivisionError
        else
          let min_interval := (60 / inject_Z calls_per_minute)%Q in
          if Qltb time_since_last min_interval then
            Return (sleep (min_interval - time_since_last)%Q clk1)
          else Return clk1
    | None => Return clk1
    end in
  match regular with
  | Raise e => (Raise e, (self1, clk1))
  | Return clk2 =>
      (* Update last call time *)
      (Return tt,
       ({| last_call_times := <[rate_key := time_time clk2]> (last_call_times self1);
           retry_counts := retry_counts self1;
           backoff_until := backoff_until self1;
           rate_limits := rate_limits self1 |},
        clk2))
  end.

(** The truth value of an [Optional[float]]: [None] and [0.0] are false. *)
Definition truthy (retry_after : option Q) : bool :=
  match retry_after with
  | Some r => negb (Qeq_bool r 0)
  | None => false
  end.

(** [handle_rate_limit_error]: the limiter after the call and the
    returned wait time. *)
Definition handle_rate_limit_error (self : RateLimiter) (endpoint : string)
    (retry_after : option Q) (clk : Clock) : RateLimiter * Q :=
  let rate_key := get_rate_limit_key self endpoint in
  (* Increment retry count *)
  let count := default 0 (retry_counts self !! rate_key) + 1 in
  let retry_counts' := <[rate_key := count]> (retry_counts self) in
  (* Calculate backoff time *)
  let wait_time :=
    match retry_after with
    | Some r => if truthy retry_after then r else inject_Z (Z.min (2 ^ count) 300)
    | None => inject_Z (Z.min (2 ^ count) 300)
    end in
  ({| last_call_times := last_call_times self;
      retry_counts := retry_counts';
      backoff_until := <[rate_key := (time_time clk + wait_time)%Q]> (backoff_until self);
      rate_limits := rate_limits self |},
   wait_time).

Definition reset_retry_count (self : RateLimiter) (endpoint : string) : RateLimiter :=
  let rate_key := get_rate_limit_key self endpoint in
  {| last_call_times := last_call_times self;
     retry_counts := delete rate_key (retry_counts self);
     backoff_until := backoff_until self;
     rate_limits := rate_limits self |}.

(** [re.search(r'Only (\d+) API calls? per minute', s)] anchored at the
    front of [s]: the captured number when the pattern matches there. *)
Definition match_limit_here (s : string) : option Z :=
  if PyStr.startswith "Only " s then
    let '(digits, rest) := PyStr.span_digits (PyStr.drop 5 s) in
    match digits with
    | EmptyString => None
    | _ =>
        if PyStr.startswith " API call" rest then
          let rest1 := PyStr.drop 9 rest in
          let rest2 := if PyStr.startswith "s" rest1 then PyStr.drop 1 rest1 else rest1 in
          if PyStr.startswith " per minute" rest2
          then Some (PyStr.int_of_digits 0 digits) else None
        else None
    end
  else None.

(** The search itself: the leftmost position where the pattern matches. *)
Fixpoint search_limit (s : string) : option Z :=
  match match_limit_here s with
  | Some n => Some n
  | None =>
      match s with
      | EmptyString => None
      | String _ s' => search_limit s'
      end
  end.

(** A message in which the pattern occurs: [digits] between "Only " and
    " API call", an "s" or none, " per minute", and any text around. *)
Definition limit_message (before digits : string) (plural : bool) (after : string)
  : string :=
  before ++ "Only " ++ digits ++ " API call" ++ (if plural then "s" else "")
  ++ " per minute" ++ after.

Definition update_rate_limit_from_error (self : RateLimiter) (endpoint : string)
    (error_message : string) : RateLimiter :=
  match search_limit error_message with
  | Some calls_per_minute =>
      let endpoint_lower := PyStr.lower endpoint in
      {| last_call_times := last_call_times self;
         retry_counts := retry_counts self;
         backoff_until := backoff_until self;
         rate_limits := <[endpoint_lower := calls_per_minute]> (rate_limits self) |}
  | None => self
  end.

(** The waits returned by consecutive rate-limit errors that carry no
    retry time, each call given by its endpoint and the clock it sees. *)
Fixpoint backoff_windows (self : RateLimiter) (calls : list (string * Clock)) : list Q :=
  match calls with
  | [] => []
  | (endpoint, clk) :: rest =>
      let '(self', wait_time) := handle_rate_limit_error self endpoint None clk in
      wait_time :: backoff_windows self' rest
  end.

(** The retry count held for a key, [self.retry_counts.get(rate_key, 0)]. *)
Definition retry_count (self : RateLimiter) (rate_key : string) : Z :=
  default 0 (retry_counts self !! rate_key).

(** The keys [get_rate_limit_key] falls back on. *)
Definition categories : list string := ["products"; "warehouses"; "inventory"; "default"].

(** What every limiter of a running process satisfies: the fallback keys
    have a limit, and state is only kept under keys that have one. *)
Definition consistent (self : RateLimiter) : Prop :=
  (forall c, In c categories -> is_Some (rate_limits self !! c)) /\
  (forall k, is_Some (last_call_times self !! k) -> is_Some (rate_limits self !! k)) /\
  (forall k, is_Some (retry_counts self !! k) -> is_Some (rate_limits self !! k)) /\
  (forall k, is_Some (backoff_until self !! k) -> is_Some (rate_limits self !! k)).

(** The limit in force for a key, [self.rate_limits.get(rate_key, 5)]. *)
Definition calls_per_minute (self : RateLimiter) (rate_key : string) : Z :=
  default 5 (rate_limits self !! rate_key).

(** The calls a client of the limiter can make, and time passing. *)
Inductive Op : Type :=
| OpWait (endpoint : string)
| OpHandle (endpoint : string) (retry_after : option Q)
| OpReset (endpoint : string)
| OpUpdate (endpoint error_message : string)
| OpElapse (d : Q).

Definition apply_op (o : Op) (st : RateLimiter * Clock) : RateLimiter * Clock :=
  let '(self, clk) := st in
  match o with
  | OpWait endpoint => snd (wait_if_needed self endpoint clk)
  | OpHandle endpoint retry_after =>
      (fst (handle_rate_limit_error self endpoint retry_after clk), clk)
  | OpReset endpoint => (reset_retry_count self endpoint, clk)
  | OpUpdate endpoint error_message =>
      (update_rate_limit_from_error self endpoint error_message, clk)
  | OpElapse d => (self, elapse d clk)
  end.

Definition run_ops (ops : list Op) (st : RateLimiter * Clock) : RateLimiter * Clock :=
  fold_left (fun st o => apply_op o st) ops st.

(** The limiters a process can hold: [global_rate_limiter] after any calls. *)
Definition reachable (self : RateLimiter) : Prop :=
  exists ops clk0 clk, run_ops ops (init, clk0) = (self, clk).

End RL.

(** ** [wait_if_needed] among other tasks

    [wait_if_needed] is a coroutine: at each [await asyncio.sleep(...)] it
    hands control to the event loop, other tasks run on the same
    [RateLimiter], and it goes on later with its local variables as they
    were and the limiter as the others left it. *)

(** Where a call of [wait_if_needed] stands. *)
Inductive WaitPc : Type :=
| NotStarted (endpoint : string)
| BackoffSleep (rate_key : string) (current_time wake : Q)  (* in the sleep of line 72 *)
| SpacingSleep (rate_key : string) (wake : Q)               (* in the sleep of line 85 *)
| Issued (at_time : Q)                                      (* returned: the call is let through *)
| Raised (e : exn).

(** Tasks sharing one limiter, and the time of the event loop. *)
Record Gate : Type := mkGate {
  shared : RateLimiter;
  callers : list WaitPc;
  gate_time : Q
}.

Module Tasks.

(** [self.last_call_times[rate_key] = time.time()]. *)
Definition record_call (self : RateLimiter) (rate_key : string) (t : Q) : RateLimiter :=
  {| last_call_times := <[rate_key := t]> (last_call_times self);
     retry_counts := retry_counts self;
     backoff_until := backoff_until self;
     rate_limits := rate_limits self |}.

(** Lines 76-88 of [wait_if_needed], run at time [t] with the local
    [current_time] read when the call started. *)
Definition spacing_part (self : RateLimiter) (rate_key : string) (current_time t : Q)
  : WaitPc * RateLimiter :=
  match last_call_times self !! rate_key with
  | Some last =>
      let time_since_last := (current_time - last)%Q in
      let calls_per_minute := default 5 (rate_limits self !! rate_key) in
      if calls_per_minute =? 0 then (Raised ZeroDivisionError, self)
      else
        let min_interval := (60 / inject_Z calls_per_minute)%Q in
        if Qltb time_since_last min_interval then
          (SpacingSleep rate_key (t + (min_interval - time_since_last))%Q, self)
        else (Issued t, record_call self rate_key t)
  | None => (Issued t, record_call self rate_key t)
  end.

(** The call runs from where it stands to its next [await], at time [t]. *)
Definition resume (pc : WaitPc) (self : RateLimiter) (t : Q) : WaitPc * RateLimiter :=
  match pc with
  | NotStarted endpoint =>
      let rate_key := RL.get_rate_limit_key self endpoint in
      let current_time := t in
      match backoff_until self !! rate_key with
      | Some until =>
          let wait_time := (until - current_time)%Q in
          if Qltb 0 wait_time then (BackoffSleep rate_key current_time (t + wait_time)%Q, self)
          else spacing_part self rate_key current_time t
      | None => spacing_part self rate_key current_time t
      end
  | BackoffSleep rate_key current_time _ =>
      (* del self.backoff_until[rate_key] *)
      match backoff_until self !! rate_key with
      | Some _ =>
          spacing_part
            {| last_call_times := last_call_times self;
               retry_counts := retry_counts self;
               backoff_until := delete rate_key (backoff_until self);
               rate_limits := rate_limits self |}
            rate_key current_time t
      | None => (Raised (KeyError rate_key), self)
      end
  | SpacingSleep rate_key _ => (Issued t, record_call self rate_key t)
  | Issued _ | Raised _ => (pc, self)
  end.

(** The time before which the event loop does not resume a call. *)
Definition wake (pc : WaitPc) : option Q :=
  match pc with
  | BackoffSleep _ _ w | SpacingSleep _ w => Some w
  | _ => None
  end.

Definition may_resume (pc : WaitPc) (t : Q) : bool :=
  match wake pc with
  | Some w => Qle_bool w t
  | None => true
  end.

(** The event loop resumes caller [i] at time [t]; [None] when the loop
    cannot do that: time does not go back and no sleeper wakes early. *)
Definition schedule (i : nat) (t : Q) (g : Gate) : option Gate :=
  match callers g !! i with
  | Some pc =>
      if Qle_bool (gate_time g) t && may_resume pc t then
        let '(pc', self') := resume pc (shared g) t in
        Some {| shared := self'; callers := <[i := pc']> (callers g); gate_time := t |}
      else None
  | None => None
  end.

Fixpoint schedule_all (events : list (nat * Q)) (g : Gate) : option Gate :=
  match events with
  | [] => Some g
  | (i, t) :: rest =>
      match schedule i t g with
      | Some g' => schedule_all rest g'
      | None => None
      end
  end.

(** One call with nobody else around: it is resumed exactly when its
    sleep ends, until it has returned or raised. *)
Definition run_alone (self : RateLimiter) (endpoint : string) (t : Q) : WaitPc * RateLimiter :=
  let '(pc1, self1) := resume (NotStarted endpoint) self t in
  let '(pc2, self2) := match wake pc1 with
                       | Some w => resume pc1 self1 w
                       | None => (pc1, self1)
                       end in
  match wake pc2 with
  | Some w => resume pc2 self2 w
  | None => (pc2, self2)
  end.

End Tasks.

(** ** Library functions the client calls

    [json.dumps(_, sort_keys=True)], [hashlib.md5(_).hexdigest()],
    [repr] and [float] belong to the Python standard library, not to this
    repository; the development is generic in them. *)
Class PyLib : Type := {
  json_dumps : params -> string;
  md5_hexdigest : string -> string;
  repr : pyvalue -> string;
  float_of : string -> option Q        (* [None]: [ValueError] *)
}.

(** [str(v)]. *)
Definition py_str `{PyLib} (v : pyvalue) : string :=
  match v with
  | VStr s => s
  | _ => repr v
  end.

(** ** [utils/cache.py] *)

Record SimpleCache : Type := mkSimpleCache {
  cache : gmap string (pyvalue * Q);     (* key -> (value, expiry_time) *)
  default_ttl : Z;
  ttl_config : list (string * Z)         (* in insertion order *)
}.

Module Cache.

(** [SimpleCache.__init__]. *)
Definition init (default_ttl : Z) : SimpleCache :=
  {| cache := ∅;
     default_ttl := default_ttl;
     ttl_config :=
       [ ("warehouses", 3600);
         ("product", 300);
         ("products", 60);
         ("inventory", 30);
         ("default", default_ttl) ] |}.

(** The module-level [global_cache = SimpleCache()]. *)
Definition global_cache : SimpleCache := init 300.

Definition with_entries (self : SimpleCache) (entries : gmap string (pyvalue * Q)) : SimpleCache :=
  {| cache := entries; default_ttl := default_ttl self; ttl_config := ttl_config self |}.

(** The dict comprehension of [_get_cache_key]: the auth tokens removed. *)
Definition strip_tokens (p : params) : params :=
  List.filter (fun kv => negb (String.eqb (fst kv) "TenantToken" || String.eqb (fst kv) "UserToken")) p.

Definition _get_cache_key `{PyLib} (endpoint : string) (p : params) : string :=
  let cache_params := strip_tokens p in
  let param_str := json_dumps cache_params in
  let key_str := endpoint ++ ":" ++ param_str in
  md5_hexdigest key_str.

(** The [for key, ttl in self.ttl_config.items()] loop of [_get_ttl]. *)
Fixpoint first_match (items : list (string * Z)) (endpoint_lower : string) : option Z :=
  match items with
  | [] => None
  | (key, ttl) :: rest =>
      if PyStr.contains key endpoint_lower then Some ttl
      else first_match rest endpoint_lower
  end.

Definition _get_ttl (self : SimpleCache) (endpoint : string) : Z :=
  let endpoint_lower := PyStr.lower endpoint in
  match first_match (ttl_config self) endpoint_lower with
  | Some ttl => ttl
  | None => default_ttl self
  end.

(** [get]: the returned value ([VNone] for Python's [None]) and the cache
    after the call. *)
Definition get `{PyLib} (self : SimpleCache) (endpoint : string) (p : params) (clk : Clock)
  : pyvalue * SimpleCache :=
  let cache_key := _get_cache_key endpoint p in
  match cache self !! cache_key with
  | Some (value, expiry_time) =>
      if Qltb (time_time clk) expiry_time then (value, self)
      else (VNone, with_entries self (delete cache_key (cache self)))
  | None => (VNone, self)
  end.

(** [ttl or self._get_ttl(endpoint)]. *)
Definition ttl_or (ttl : option Z) (fallback : Z) : Z :=
  match ttl with
  | Some t => if t =? 0 then fallback else t
  | None => fallback
  end.

Definition set `{PyLib} (self : SimpleCache) (endpoint : string) (p : params)
    (value : pyvalue) (ttl : option Z) (clk : Clock) : SimpleCache :=
  (* Don't cache error responses *)
  if is_error_dict value then self
  else
    let cache_key := _get_cache_key endpoint p in
    let ttl := ttl_or ttl (_get_ttl self endpoint) in
    let expiry_time := (time_time clk + inject_Z ttl)%Q in
    with_entries self (<[cache_key := (value, expiry_time)]> (cache self)).

(** The truth value of an [Optional[str]]: [None] and the empty string are false. *)
Definition pattern_truthy (pattern : option string) : bool :=
  match pattern with
  | Some EmptyString => false
  | Some _ => true
  | None => false
  end.

(** The keys collected by the first loop of [invalidate]. *)
Definition to_remove (self : SimpleCache) (pattern : string) : list string :=
  filter (fun key => PyStr.contains (PyStr.lower pattern) (PyStr.lower key) = true)
         ((map_to_list (cache self)).*1).

(** [invalidate]: the cache after the call and the returned count. *)
Definition invalidate (self : SimpleCache) (pattern : option string) : SimpleCache * Z :=
  match pattern with
  | Some pat =>
      if pattern_truthy pattern then
        let keys := to_remove self pat in
        (with_entries self (foldr delete (cache self) keys), Z.of_nat (length keys))
      else
        (with_entries self ∅, Z.of_nat (size (cache self)))
  | None =>
      (with_entries self ∅, Z.of_nat (size (cache self)))
  end.

(** No stored value is an error value. *)
Definition error_free (self : SimpleCache) : Prop :=
  forall key value expiry_time,
    cache self !! key = Some (value, expiry_time) -> is_error_dict value = false.

(** The calls a client of the cache can make, and time passing. *)
Inductive Op : Type :=
| OpGet (endpoint : string) (p : params)
| OpSet (endpoint : string) (p : params) (value : pyvalue) (ttl : option Z)
| OpInvalidate (pattern : option string)
| OpElapse (d : Q).

Definition apply_op `{PyLib} (o : Op) (st : SimpleCache * Clock) : SimpleCache * Clock :=
  let '(self, clk) := st in
  match o with
  | OpGet endpoint p => (snd (get self endpoint p clk), clk)
  | OpSet endpoint p value ttl => (set self endpoint p value ttl clk, clk)
  | OpInvalidate pattern => (fst (invalidate self pattern), clk)
  | OpElapse d => (self, elapse d clk)
  end.

Definition run_ops `{PyLib} (ops : list Op) (st : SimpleCache * Clock) : SimpleCache * Clock :=
  fold_left (fun st o => apply_op o st) ops st.

(** Every key of the cache is a hexadecimal digest. *)
Definition digest_keys (self : SimpleCache) : Prop :=
  forall key, is_Some (cache self !! key) -> PyStr.is_hex key = true.

(** The dict returned by [get_stats]. *)
Record Stats : Type := mkStats {
  total_entries : Z;
  valid_entries : Z;
  expired_entries : Z;
  memory_usage_bytes : Z
}.

(** [get_stats]. *)
Definition get_stats `{PyLib} (self : SimpleCache) (clk : Clock) : Stats :=
  let current_time := time_time clk in
  let valid_entries :=
    Z.of_nat (length (List.filter (fun kv => Qltb current_time (snd (snd kv)))
                                  (map_to_list (cache self)))) in
  {| total_entries := Z.of_nat (size (cache self));
     valid_entries := valid_entries;
     expired_entries := Z.of_nat (size (cache self)) - valid_entries;
     memory_usage_bytes :=
       fold_right Z.add 0
         (List.map (fun kv => Z.of_nat (String.length (py_str (fst (snd kv)))))
                   (map_to_list (cache self))) |}.

End Cache.

(** ** [api_client.py]: the decorated [call_endpoint] *)

(** What [SkuVaultClient] holds besides the limiter and the cache: the
    endpoint registry loaded from the schema file, the credentials, and
    the remote service, which answers a POST knowing the earlier ones. *)
Class Remote : Type := {
  in_schema : string -> bool;
  has_auth_tokens : bool;
  respond : list (string * params) -> string -> params -> result pyvalue
}.

(** The process-wide state a call works on. *)
Record Client : Type := mkClient {
  limiter : RateLimiter;          (* [global_rate_limiter] *)
  store : SimpleCache;            (* [global_cache] *)
  clock : Clock;
  posts : list (string * params)  (* every POST issued, oldest first *)
}.

Module Api.

Definition set_limiter (st : Client) (rl : RateLimiter) : Client :=
  {| limiter := rl; store := store st; clock := clock st; posts := posts st |}.

Definition set_store (st : Client) (c : SimpleCache) : Client :=
  {| limiter := limiter st; store := c; clock := clock st; posts := posts st |}.

Definition set_clock (st : Client) (clk : Clock) : Client :=
  {| limiter := limiter st; store := store st; clock := clk; posts := posts st |}.

(** The body of [call_endpoint], before decoration. *)
Definition raw_call_endpoint `{Remote} (endpoint_name : string) (kwargs : params) (st : Client)
  : result pyvalue * Client :=
  if negb (in_schema (PyStr.lower endpoint_name)) then
    (Raise (SkuVaultAPIError ("Unknown endpoint: " ++ endpoint_name)), st)
  else if negb has_auth_tokens then
    (Raise (SkuVaultAPIError "Authentication required. Call authenticate() first."), st)
  else
    (respond (posts st) endpoint_name kwargs,
     {| limiter := limiter st; store := store st; clock := clock st;
        posts := posts st ++ [(endpoint_name, kwargs)] |}).

(** The [wrapper] of [with_cache(global_cache)] around [func]. *)
Definition with_cache `{PyLib}
    (func : string -> params -> Client -> result pyvalue * Client)
    (endpoint_name : string) (kwargs : params) (st : Client) : result pyvalue * Client :=
  (* Check cache first *)
  let '(cached_value, c1) := Cache.get (store st) endpoint_name kwargs (clock st) in
  let st1 := set_store st c1 in
  match cached_value with
  | VNone =>
      (* Call original function *)
      match func endpoint_name kwargs st1 with
      | (Return res, st2) =>
          (* Cache successful results *)
          if negb (is_error_dict res)
          then (Return res,
                set_store st2 (Cache.set (store st2) endpoint_name kwargs res None (clock st2)))
          else (Return res, st2)
      | (Raise e, st2) => (Raise e, st2)
      end
  | _ => (Return cached_value, st1)
  end.

(** ["429" in error_msg or "rate limit" in error_msg.lower()]. *)
Definition signals_rate_limit (error_msg : string) : bool :=
  PyStr.contains "429" error_msg || PyStr.contains "rate limit" (PyStr.lower error_msg).

(** The [try: retry_after = float(...) except: pass] block. *)
Definition parse_retry_after `{PyLib} (error_msg : string) : option Q :=
  if PyStr.contains "Retry after" error_msg then
    match PyStr.split_second "Retry after" error_msg with
    | Some tail =>
        match PyStr.first_word tail with
        | Some word => float_of word
        | None => None
        end
    | None => None
    end
  else None.

Definition max_retries : Z := 3.

(** The [while retry_count < max_retries] loop of the [wrapper] of
    [with_rate_limit(global_rate_limiter)]; [last] is the local [result].
    [None] only when [fuel] iterations were not enough. *)
Fixpoint rate_limit_loop `{PyLib}
    (func : string -> params -> Client -> result pyvalue * Client)
    (fuel : nat) (retry_count : Z) (last : pyvalue)
    (endpoint_name : string) (kwargs : params) (st : Client)
  : option (result pyvalue * Client) :=
  if retry_count <? max_retries then
    match fuel with
    | O => None
    | S fuel' =>
        (* Wait if needed for rate limit *)
        match RL.wait_if_needed (limiter st) endpoint_name (clock st) with
        | (Raise e, (rl1, clk1)) => Some (Raise e, set_clock (set_limiter st rl1) clk1)
        | (Return _, (rl1, clk1)) =>
            let st1 := set_clock (set_limiter st rl1) clk1 in
            (* Call the original function *)
            match func endpoint_name kwargs st1 with
            | (Raise e, st2) => Some (Raise e, st2)
            | (Return res, st2) =>
                let success :=
                  (* Success - reset retry count *)
                  Some (Return res,
                        set_limiter st2 (RL.reset_retry_count (limiter st2) endpoint_name)) in
                match res with
                | VDict kvs =>
                    match dict_get "error" kvs with
                    | Some err =>
                        let error_msg := py_str err in
                        if signals_rate_limit error_msg then
                          let rl2 := RL.update_rate_limit_from_error
                                       (limiter st2) endpoint_name error_msg in
                          let retry_after := parse_retry_after error_msg in
                          let '(rl3, wait_time) :=
                            RL.handle_rate_limit_error rl2 endpoint_name retry_after (clock st2) in
                          let st3 := set_limiter st2 rl3 in
                          if retry_count <? max_retries - 1 then
                            rate_limit_loop func fuel' (retry_count + 1) res endpoint_name kwargs
                              (set_clock st3 (sleep wait_time (clock st3)))
                          else
                            Some (Return res,
                                  set_limiter st3 (RL.reset_retry_count (limiter st3) endpoint_name))
                        else success
                    | None => success
                    end
                | _ => success
                end
            end
        end
    end
  else Some (Return last, st).

(** [SkuVaultClient.call_endpoint] as decorated:
    [@with_rate_limit(global_rate_limiter)] applied to
    [@with_cache(global_cache)] applied to the body. *)
Definition call_endpoint `{PyLib} `{Remote} (endpoint_name : string) (kwargs : params)
    (st : Client) : option (result pyvalue * Client) :=
  rate_limit_loop (with_cache raw_call_endpoint) 3 0 VNone endpoint_name kwargs st.

End Api.

(** ** [utils/request_queue.py] *)

Record QueuedRequest : Type := mkQueuedRequest {
  id : string;
  endpoint : string;
  req_params : params;
  has_callback : bool;      (* whether [callback] is not [None] *)
  priority : Z;
  created_at : Q
}.

(** The dict stored under a request id by [_process_request]:
    [{"status": "success", "result": _, "completed_at": _}] or
    [{"status": "error", "error": _, "completed_at": _}]. *)
Inductive ResultData : Type :=
| StatusSuccess (res : pyvalue) (completed_at : Q)
| StatusError (error : string) (completed_at : Q).

(** Where a task running [_process_queue] stands. *)
Inductive WorkerPc : Type :=
| Importing                 (* created, about to run the [import] of line 129 *)
| LoopHead                  (* at [while self.processing] *)
| Sleeping (d : Q)          (* in [await asyncio.sleep(d)] *)
| Getting                   (* in [await asyncio.wait_for(self.queue.get(), timeout=1.0)] *)
| Holding (got : result (Z * Q * QueuedRequest))
                            (* still in [wait_for], whose [queue.get()] has ended with [got] *)
| Finished                  (* left the loop *)
| Crashed (e : exn)         (* ended by an exception *)
| Cancelled.                (* ended by the [CancelledError] of a [cancel()] *)

(** A task running [_process_queue]: where it stands, and whether
    [cancel()] was called on it since it last ran.  A cancellation is
    only a request: the [CancelledError] is thrown into the task when the
    event loop resumes it. *)
Record Worker : Type := mkWorker {
  pc : WorkerPc;
  must_cancel : bool
}.

(** Where a task running [_process_request] stands. *)
Inductive Phase : Type :=
| Calling                   (* in [await client.call_endpoint(...)] *)
| InCallback.               (* in [await request.callback(...)] *)

(** A [RequestQueue] together with the tasks it has created on the event
    loop.  [queue] is the list in which the [PriorityQueue] keeps its
    items, ordered as a binary heap.  [workers] lists every task created
    by [start_processing], newest first: its head is
    [self._process_task]. *)
Record RequestQueue : Type := mkRequestQueue {
  queue : list (Z * Q * QueuedRequest);
  max_concurrent : Z;
  active_requests : Z;
  results : gmap string ResultData;
  processing : bool;
  workers : list Worker;
  tasks : list (QueuedRequest * Phase)    (* the [_process_request] tasks still running *)
}.

(** What the scheduler of the event loop can do next. *)
Inductive Event : Type :=
| Add (uuid endpoint : string) (p : params) (priority : Z) (callback : bool) (at_time : Q)
| Start                                   (* a call of [start_processing] *)
| Stop                                    (* a call of [stop_processing], as far as its [await] *)
| Work (i : nat)                          (* worker [i] runs to its next [await] *)
| Get (i : nat)                           (* the [queue.get()] of worker [i] ends before the worker runs *)
| CallReturns (j : nat) (res : pyvalue) (at_time : Q)
| CallRaises (j : nat) (msg : string) (at_time : Q)
| CallbackEnds (j : nat).                 (* returned, or raised and was logged *)

Module Queue.

(** The names bound at the top level of [api_client.py]. *)
Definition api_client_names : list string :=
  [ "json"; "logging"; "Dict"; "Any"; "Optional"; "TypeVar"; "Type"; "Path";
    "httpx"; "BaseModel"; "AuthTokens"; "GetTokensRequest"; "GetTokensResponse";
    "BaseRequest"; "with_rate_limit"; "global_rate_limiter"; "with_cache";
    "global_cache"; "logger"; "T"; "SkuVaultAPIError"; "SkuVaultClient" ].

(** [from module import name], given the names the module binds.  The
    message of the [ImportError] is given as far as the name; Python goes
    on with the module and the path of its file. *)
Definition import_from (names : list string) (name : string) : result unit :=
  if existsb (String.eqb name) names then Return tt
  else Raise (ImportError ("cannot import name '" ++ name ++ "'")).

(** [RequestQueue.__init__]. *)
Definition init (max_concurrent : Z) : RequestQueue :=
  {| queue := []; max_concurrent := max_concurrent; active_requests := 0;
     results := ∅; processing := false; workers := []; tasks := [] |}.

Definition is_live (w : WorkerPc) : bool :=
  match w with
  | Importing | LoopHead | Sleeping _ | Getting | Holding _ => true
  | Finished | Crashed _ | Cancelled => false
  end.

(** *** The heap of the [PriorityQueue]

    [asyncio.PriorityQueue] puts with [heapq.heappush] and gets with
    [heapq.heappop]; what follows is the algorithm of CPython's [heapq]
    on the list of items, an exception of a comparison leaving the list
    as the exchanges made so far have it. *)

Definition item : Type := Z * Q * QueuedRequest.

(** [a < b] on the tuples [(-priority, created_at, request)]: decided by
    the first component that differs.  When priority and creation time
    are both equal the requests themselves are compared; two requests
    are never equal (each has an id of its own, drawn by [uuid4]) and
    [QueuedRequest] defines no order, so that comparison raises
    [TypeError]: [None]. *)
Definition item_lt (a b : item) : option bool :=
  let '(pa, ta, _) := a in
  let '(pb, tb, _) := b in
  if negb (pa =? pb) then Some (pa <? pb)
  else if negb (Qeq_bool ta tb) then Some (Qltb ta tb)
  else None.

Definition unorderable : exn :=
  TypeError "'<' not supported between instances of 'QueuedRequest' and 'QueuedRequest'".

(** The items at [i] and [j] exchanged. *)
Definition swap (heap : list item) (i j : nat) : list item :=
  match heap !! i, heap !! j with
  | Some x, Some y => <[i := y]> (<[j := x]> heap)
  | _, _ => heap
  end.

(** [siftdown(heap, startpos, pos)]: the item at [pos] moves towards the
    root while it is less than its parent.  [pos] at least halves at each
    turn, so [pos] turns are always enough. *)
Fixpoint siftdown (turns : nat) (heap : list item) (startpos pos : nat)
  : result unit * list item :=
  match turns with
  | O => (Return tt, heap)
  | S turns' =>
      if (startpos <? pos)%nat then
        let parentpos := ((pos - 1) / 2)%nat in
        match heap !! pos, heap !! parentpos with
        | Some newitem, Some parent =>
            match item_lt newitem parent with
            | None => (Raise unorderable, heap)
            | Some false => (Return tt, heap)
            | Some true => siftdown turns' (swap heap pos parentpos) startpos parentpos
            end
        | _, _ => (Return tt, heap)
        end
      else (Return tt, heap)
  end.

(** The first loop of [siftup(heap, pos)]: the smaller child moves up
    until a leaf is reached; the position reached is returned.  [pos]
    grows at each turn, so [len(heap)] turns are always enough. *)
Fixpoint siftup_loop (turns : nat) (heap : list item) (pos : nat)
  : result nat * list item :=
  let endpos := length heap in
  let limit := (endpos / 2)%nat in
  match turns with
  | O => (Return pos, heap)
  | S turns' =>
      if (pos <? limit)%nat then
        let childpos := (2 * pos + 1)%nat in
        let smaller :=
          if (childpos + 1 <? endpos)%nat then
            match heap !! childpos, heap !! (childpos + 1)%nat with
            | Some a, Some b =>
                match item_lt a b with
                | None => None
                | Some true => Some childpos
                | Some false => Some (childpos + 1)%nat
                end
            | _, _ => Some childpos
            end
          else Some childpos in
        match smaller with
        | None => (Raise unorderable, heap)
        | Some childpos' => siftup_loop turns' (swap heap childpos' pos) childpos'
        end
      else (Return pos, heap)
  end.

(** [siftup(heap, pos)]. *)
Definition siftup (heap : list item) (pos : nat) : result unit * list item :=
  match siftup_loop (length heap) heap pos with
  | (Return leaf, heap') => siftdown leaf heap' pos leaf
  | (Raise e, heap') => (Raise e, heap')
  end.

(** [heappush(heap, item)]: the item is appended, then sifted. *)
Definition heappush (heap : list item) (x : item) : result unit * list item :=
  siftdown (length heap) (heap ++ [x]) 0 (length heap).

(** [heappop(heap)], [None] on an empty heap.  The last item is taken off
    the list and, unless it was the only one, put in the place of the
    first, which is returned once the heap is in order again; when a
    comparison raises on the way, the former first item is in neither
    the list nor the result. *)
Definition heappop (heap : list item) : option (result item * list item) :=
  match last heap with
  | None => None
  | Some lastelt =>
      match take (length heap - 1) heap with
      | [] => Some (Return lastelt, [])
      | returnitem :: rest =>
          match siftup (lastelt :: rest) 0 with
          | (Return _, heap') => Some (Return returnitem, heap')
          | (Raise e, heap') => Some (Raise e, heap')
          end
      end
  end.

(** *** The methods of [RequestQueue] *)

Definition set_queue (heap : list item) (s : RequestQueue) : RequestQueue :=
  {| queue := heap; max_concurrent := max_concurrent s;
     active_requests := active_requests s; results := results s;
     processing := processing s; workers := workers s; tasks := tasks s |}.

(** [start_processing]. *)
Definition start_processing (s : RequestQueue) : RequestQueue :=
  if negb (processing s) then
    {| queue := queue s; max_concurrent := max_concurrent s;
       active_requests := active_requests s; results := results s;
       processing := true;
       workers := mkWorker Importing false :: workers s;
       tasks := tasks s |}
  else s.

(** [add_request]: the id returned, or the exception of [queue.put],
    after which the rest of the method is not run. *)
Definition add_request (uuid endpoint : string) (p : params) (priority : Z)
    (callback : bool) (at_time : Q) (s : RequestQueue) : result string * RequestQueue :=
  let request := {| id := uuid; endpoint := endpoint; req_params := p;
                    has_callback := callback; priority := priority;
                    created_at := at_time |} in
  (* Use negative priority for max heap behavior *)
  match heappush (queue s) (- priority, created_at request, request) with
  | (Raise e, heap) => (Raise e, set_queue heap s)
  | (Return _, heap) =>
      (* Start processing if not already running *)
      (Return (id request), start_processing (set_queue heap s))
  end.

(** [task.cancel()]: nothing for a task that is done, a request for one
    that is not. *)
Definition cancel (w : Worker) : Worker :=
  if is_live (pc w) then {| pc := pc w; must_cancel := true |} else w.

(** [stop_processing] as far as its [await]: the flag is cleared and
    [self._process_task] asked to cancel. *)
Definition stop_processing (s : RequestQueue) : RequestQueue :=
  {| queue := queue s; max_concurrent := max_concurrent s;
     active_requests := active_requests s; results := results s;
     processing := false;
     workers := match workers s with
                | w :: ws => cancel w :: ws
                | [] => []
                end;
     tasks := tasks s |}.

(** [await self._process_task] under [except asyncio.CancelledError: pass]
    in [stop_processing], for the task [w]: [None] while the task is not
    done; a cancelled task and one that left its loop let the method
    return, any other exception of the task is raised again. *)
Definition awaited (w : Worker) : option (result unit) :=
  match pc w with
  | Cancelled | Finished => Some (Return tt)
  | Crashed e => Some (Raise e)
  | Importing | LoopHead | Sleeping _ | Getting | Holding _ => None
  end.

Definition set_worker (i : nat) (w : Worker) (s : RequestQueue) : RequestQueue :=
  {| queue := queue s; max_concurrent := max_concurrent s;
     active_requests := active_requests s; results := results s;
     processing := processing s;
     workers := <[i := w]> (workers s);
     tasks := tasks s |}.

(** [_process_queue] resumed inside its [try] with what [queue.get()]
    gave: a request is counted and handed to a task of its own, an
    exception is logged; the loop goes on either way. *)
Definition deliver (i : nat) (got : result item) (s : RequestQueue) : RequestQueue :=
  match got with
  | Return (_, _, request) =>
      (* Process the request *)
      {| queue := queue s; max_concurrent := max_concurrent s;
         active_requests := active_requests s + 1; results := results s;
         processing := processing s;
         workers := <[i := mkWorker LoopHead false]> (workers s);
         tasks := tasks s ++ [(request, Calling)] |}
  | Raise _ => set_worker i (mkWorker LoopHead false) s
  end.

(** One run of [_process_queue], from one suspension point to the next.
    A task asked to cancel ends where it is suspended; one that was
    created and never ran ends without running its first line.  The
    exception is a task whose [queue.get()] has already ended
    ([Holding]): [wait_for] then returns what was got and the request to
    cancel is dropped. *)
Definition worker_step (names : list string) (i : nat) (s : RequestQueue) : RequestQueue :=
  match workers s !! i with
  | Some w =>
      match pc w with
      | Importing =>
          if must_cancel w then set_worker i (mkWorker Cancelled false) s
          else
            match import_from names "get_client" with
            | Return _ => set_worker i (mkWorker LoopHead false) s
            | Raise e => set_worker i (mkWorker (Crashed e) false) s
            end
      | LoopHead =>
          if processing s then
            if active_requests s >=? max_concurrent s then
              (* Wait a bit if we're at max concurrent *)
              set_worker i (mkWorker (Sleeping (1 # 10)) (must_cancel w)) s
            else set_worker i (mkWorker Getting (must_cancel w)) s
          else set_worker i (mkWorker Finished false) s
      | Sleeping _ =>
          if must_cancel w then set_worker i (mkWorker Cancelled false) s
          else set_worker i (mkWorker LoopHead false) s
      | Getting =>
          if must_cancel w then set_worker i (mkWorker Cancelled false) s
          else
            match heappop (queue s) with
            | Some (got, heap) => deliver i got (set_queue heap s)
            | None =>
                (* No items in queue, continue *)
                set_worker i (mkWorker LoopHead false) s
            end
      | Holding got => deliver i got s
      | Finished | Crashed _ | Cancelled => s
      end
  | None => s
  end.

(** The [queue.get()] that worker [i] waits for takes an item while the
    worker is still suspended: on Python 3.10 and 3.11 [wait_for] runs
    it as a task of its own, which ends before the worker is resumed. *)
Definition get_step (i : nat) (s : RequestQueue) : RequestQueue :=
  match workers s !! i with
  | Some w =>
      match pc w, heappop (queue s) with
      | Getting, Some (got, heap) =>
          set_worker i (mkWorker (Holding got) (must_cancel w)) (set_queue heap s)
      | _, _ => s
      end
  | None => s
  end.
(** The [finally] clause of [_process_request], ending task [j]. *)
Definition release (j : nat) (s : RequestQueue) : RequestQueue :=
  {| queue := queue s; max_concurrent := max_concurrent s;
     active_requests := active_requests s - 1; results := results s;
     processing := processing s; workers := workers s;
     tasks := take j (tasks s) ++ drop (S j) (tasks s) |}.

Definition store_result (k : string) (r : ResultData) (s : RequestQueue) : RequestQueue :=
  {| queue := queue s; max_concurrent := max_concurrent s;
     active_requests := active_requests s; results := <[k := r]> (results s);
     processing := processing s; workers := workers s; tasks := tasks s |}.

Definition set_phase (j : nat) (request : QueuedRequest) (ph : Phase) (s : RequestQueue)
  : RequestQueue :=
  {| queue := queue s; max_concurrent := max_concurrent s;
     active_requests := active_requests s; results := results s;
     processing := processing s; workers := workers s;
     tasks := <[j := (request, ph)]> (tasks s) |}.

(** [_process_request] resumed after [call_endpoint] returned [res]. *)
Definition call_returns (j : nat) (res : pyvalue) (at_time : Q) (s : RequestQueue)
  : RequestQueue :=
  match tasks s !! j with
  | Some (request, Calling) =>
      let s1 := store_result (id request) (StatusSuccess res at_time) s in
      if has_callback request then set_phase j request InCallback s1
      else release j s1
  | _ => s
  end.

(** [_process_request] resumed by an exception of the call. *)
Definition call_raises (j : nat) (msg : string) (at_time : Q) (s : RequestQueue)
  : RequestQueue :=
  match tasks s !! j with
  | Some (request, Calling) =>
      release j (store_result (id request) (StatusError msg at_time) s)
  | _ => s
  end.

(** [_process_request] resumed after the callback. *)
Definition callback_ends (j : nat) (s : RequestQueue) : RequestQueue :=
  match tasks s !! j with
  | Some (_, InCallback) => release j s
  | _ => s
  end.

Definition step (names : list string) (ev : Event) (s : RequestQueue) : RequestQueue :=
  match ev with
  | Add uuid endpoint p priority callback at_time =>
      snd (add_request uuid endpoint p priority callback at_time s)
  | Start => start_processing s
  | Stop => stop_processing s
  | Work i => worker_step names i s
  | Get i => get_step i s
  | CallReturns j res at_time => call_returns j res at_time s
  | CallRaises j msg at_time => call_raises j msg at_time s
  | CallbackEnds j => callback_ends j s
  end.

Definition run (names : list string) (evs : list Event) (s : RequestQueue) : RequestQueue :=
  fold_left (fun s ev => step names ev s) evs s.

(** The states the queue can be in, for a module [api_client] binding [names]. *)
Definition reachable (names : list string) (max_concurrent : Z) (s : RequestQueue) : Prop :=
  exists evs, s = run names evs (init max_concurrent).

(** A worker task that has not entered the [while] loop and never will:
    it has yet to run its first line, or has ended at it. *)
Definition outside_loop (w : Worker) : Prop :=
  pc w = Importing \/ pc w = Cancelled \/
  pc w = Crashed (ImportError "cannot import name 'get_client'").

(** A queue that has handed no request to [_process_request] and has no
    worker in its loop. *)
Definition idle (s : RequestQueue) : Prop :=
  tasks s = [] /\ active_requests s = 0 /\ results s = ∅ /\
  Forall outside_loop (workers s).

(** The number of [add_request] calls among the events. *)
Definition adds (evs : list Event) : nat :=
  length (List.filter (fun ev => match ev with Add _ _ _ _ _ _ => true | _ => false end) evs).

(** A load of [n] requests for one endpoint, enqueued one after the other. *)
Definition load (n : nat) : list Event :=
  List.map (fun i => Add (pretty i) "getproduct" [("Sku", VStr (pretty i))] 5 false
                       (inject_Z (Z.of_nat i)))
           (seq 0 n).

(** How [get_result] ends on finding [result_data] under the request id. *)
Definition outcome (result_data : ResultData) : result pyvalue :=
  match result_data with
  | StatusSuccess res _ => Return res
  | StatusError error _ => Raise (Exception error)
  end.

(** The exception of [get_result] after the loop. *)
Definition timed_out (request_id : string) : result pyvalue :=
  Raise (TimeoutError ("Timeout waiting for result of " ++ request_id)).

(** The number of checks after which [timeout] seconds have passed. *)
Definition checks_within (timeout : Q) : nat := Z.to_nat (Qceiling (timeout * 10)).

(** The [while] loop of [get_result], about to make its [k]-th check;
    [history k] is [self.results] as that check finds it.  [None] only
    when [fuel] iterations were not enough. *)
Fixpoint get_result_loop (history : nat -> gmap string ResultData) (request_id : string)
    (start_time timeout : Q) (fuel k : nat) (clk : Clock) : option (result pyvalue * Clock) :=
  if Qltb (time_time clk - start_time)%Q timeout then
    match history k !! request_id with
    | Some (StatusSuccess res _) => Some (Return res, clk)
    | Some (StatusError error _) => Some (Raise (Exception error), clk)
    | None =>
        match fuel with
        | O => None
        | S fuel' =>
            get_result_loop history request_id start_time timeout fuel' (S k)
              (sleep (1 # 10) clk)
        end
    end
  else Some (Raise (TimeoutError ("Timeout waiting for result of " ++ request_id)), clk).

Definition get_result (history : nat -> gmap string ResultData) (request_id : string)
    (timeout : Q) (fuel : nat) (clk : Clock) : option (result pyvalue * Clock) :=
  let start_time := time_time clk in
  get_result_loop history request_id start_time timeout fuel 0 clk.

(** Two items that the tuple order cannot tell apart by priority and
    creation time. *)
Definition ties (a b : item) : bool :=
  (fst (fst a) =? fst (fst b)) && Qeq_bool (snd (fst a)) (snd (fst b)).

(** [add_bulk_requests]: one [add_request] per element of [params_list],
    in order; each element comes with the id and the creation time drawn
    for it.  The list of ids, or the exception of the [add_request] that
    raised, and the queue as the call leaves it. *)
Fixpoint add_bulk_requests (endpoint : string) (params_list : list (string * params * Q))
    (priority : Z) (s : RequestQueue) : result (list string) * RequestQueue :=
  match params_list with
  | [] => (Return [], s)
  | (uuid, p, at_time) :: rest =>
      match add_request uuid endpoint p priority false at_time s with
      | (Raise e, s1) => (Raise e, s1)
      | (Return request_id, s1) =>
          match add_bulk_requests endpoint rest priority s1 with
          | (Raise e, s2) => (Raise e, s2)
          | (Return request_ids, s2) => (Return (request_id :: request_ids), s2)
          end
      end
  end.

(** The dict returned by [get_queue_stats]. *)
Record QueueStats : Type := mkQueueStats {
  queued_requests : Z;
  stat_active_requests : Z;
  completed_requests : Z;
  stat_max_concurrent : Z;
  stat_processing : bool
}.

Definition get_queue_stats (s : RequestQueue) : QueueStats :=
  {| queued_requests := Z.of_nat (length (queue s));
     stat_active_requests := active_requests s;
     completed_requests := Z.of_nat (size (results s));
     stat_max_concurrent := max_concurrent s;
     stat_processing := processing s |}.

(** [str(e)] for the exceptions [get_result] raises. *)
Definition str_of_exn (e : exn) : string :=
  match e with
  | ZeroDivisionError => "float division by zero"
  | KeyError key => "'" ++ key ++ "'"
  | ImportError msg | TimeoutError msg | TypeError msg | SkuVaultAPIError msg
  | Exception msg => msg
  end.

(** The [for req_id, result in zip(request_ids, gathered_results)] loop of
    [get_bulk_results], from the dict built so far. *)
Fixpoint collect (acc : gmap string pyvalue) (pairs : list (string * result pyvalue))
  : gmap string pyvalue :=
  match pairs with
  | [] => acc
  | (req_id, Raise e) :: rest =>
      collect (<[req_id := VDict [("error", VStr (str_of_exn e))]]> acc) rest
  | (req_id, Return res) :: rest => collect (<[req_id := res]> acc) rest
  end.

(** What is filed for one gathered outcome: the result itself, or
    [{"error": str(result)}] for an exception. *)
Definition filed (r : result pyvalue) : pyvalue :=
  match r with
  | Return res => res
  | Raise e => VDict [("error", VStr (str_of_exn e))]
  end.

(** [get_bulk_results]: the [get_result] calls are gathered, so they all
    start on the same clock and each of them polls [self.results] at the
    same instants; [None] only when [fuel] was not enough for one of them. *)
Definition get_bulk_results (history : nat -> gmap string ResultData)
    (request_ids : list string) (timeout : Q) (fuel : nat) (clk : Clock)
  : option (gmap string pyvalue) :=
  let gathered := List.map (fun req_id => get_result history req_id timeout fuel clk) request_ids in
  if forallb (fun o => match o with Some _ => true | None => false end) gathered then
    Some (collect ∅
            (List.flat_map
               (fun io => match snd io with
                          | Some (r, _) => [(fst io, r)]
                          | None => []
                          end)
               (combine request_ids gathered)))
  else None.

End Queue.

(** ** [utils/validators.py] *)

Module Validators.

Definition invalid_chars : list ascii :=
  ["/"; "\"; "?"; "<"; ">"; "|"; ascii_of_N 34; "*"]%char.

(** The [for char in invalid_chars] loop of [validate_sku]: the first
    character of the list that occurs in [sku]. *)
Fixpoint first_invalid (chars : list ascii) (sku : string) : option ascii :=
  match chars with
  | [] => None
  | char :: rest =>
      if PyStr.has_char char sku then Some char else first_invalid rest sku
  end.

(** [validate_sku], on the UTF-8 encoding of [sku]. *)
Definition validate_sku (sku : string) : bool * option string :=
  if String.eqb sku "" then (false, Some "SKU cannot be empty")
  else if (100 <? PyStr.len sku)%nat then (false, Some "SKU cannot exceed 100 characters")
  else
    (* Check for invalid characters *)
    match first_invalid invalid_chars sku with
    | Some char => (false, Some ("SKU cannot contain character: " ++ String char ""))
    | None =>
        (* Check for leading/trailing whitespace *)
        if negb (String.eqb sku (PyStr.strip sku))
        then (false, Some "SKU cannot have leading or trailing whitespace")
        else (true, None)
    end.

Definition validate_warehouse_id (warehouse_id : option Z) : bool * option string :=
  match warehouse_id with
  | None => (true, None)
  | Some n => if n <=? 0 then (false, Some "Warehouse ID must be positive") else (true, None)
  end.

(** The class [[A-Za-z0-9\-_.]]. *)
Definition location_char (c : ascii) : bool :=
  PyStr.is_alnum c || Ascii.eqb c "-" || Ascii.eqb c "_" || Ascii.eqb c ".".

Definition validate_location_code (location_code : option string) : bool * option string :=
  match location_code with
  | None | Some EmptyString => (true, None)
  | Some code =>
      if (50 <? String.length code)%nat
      then (false, Some "Location code cannot exceed 50 characters")
      else if negb (PyStr.match_class_plus location_char code)
      then (false, Some "Location code contains invalid characters")
      else (true, None)
  end.

(** The class [[A-Za-z0-9\-]]. *)
Definition barcode_char (c : ascii) : bool := PyStr.is_alnum c || Ascii.eqb c "-".

Definition validate_barcode (barcode : string) : bool * option string :=
  match barcode with
  | EmptyString => (true, None)
  | _ =>
      if (50 <? String.length barcode)%nat
      then (false, Some "Barcode cannot exceed 50 characters")
      else if negb (PyStr.match_class_plus barcode_char barcode)
      then (false, Some "Barcode contains invalid characters")
      else (true, None)
  end.

Definition validate_bulk_items {A} (items : list A) (max_items : Z) : bool * option string :=
  match items with
  | [] => (false, Some "No items provided for bulk operation")
  | _ =>
      if max_items <? Z.of_nat (length items)
      then (false, Some ("Bulk operation exceeds maximum of " ++ pretty max_items ++ " items"))
      else (true, None)
  end.

End Validators.

(** ** [server.py]: [batch_update_products]

    An update is the mapping the tool receives; the model covers updates
    whose values are strings. *)

Module Server.

Abbreviation update := (list (string * string)).

(** [d[k]] on a mapping given by its items, [None] when [k not in d]. *)
Fixpoint field (k : string) (d : update) : option string :=
  match d with
  | [] => None
  | (k', v) :: rest => if String.eqb k k' then Some v else field k rest
  end.

(** The [for idx, update in enumerate(updates)] loop that validates each
    SKU, from index [idx]: the error it returns with, if any. *)
Fixpoint check_skus (idx : nat) (updates : list update) : option string :=
  match updates with
  | [] => None
  | u :: rest =>
      match field "Sku" u with
      | None => Some ("Item " ++ pretty idx ++ ": Missing required field 'Sku'")
      | Some sku =>
          match Validators.validate_sku sku with
          | (false, error_msg) =>
              Some ("Item " ++ pretty idx ++ " - SKU '" ++ sku ++ "': "
                    ++ default "None" error_msg)
          | (true, _) => check_skus (S idx) rest
          end
      end
  end.

(** The validation that [batch_update_products] runs before anything
    else: the text of the [{"error": ...}] it returns with, or [None] when
    the updates go on to be processed. *)
Definition check_updates (updates : list update) : option string :=
  match Validators.validate_bulk_items updates 100 with
  | (false, error_msg) => Some (default "None" error_msg)
  | (true, _) => check_skus 0 updates
  end.

(** [range(0, stop, step)] for a positive [step]. *)
Definition range_step (stop step : nat) : list nat :=
  List.map (fun j => (j * step)%nat) (seq 0 ((stop + step - 1) / step)).

Definition batch_size : nat := 5.

(** The batches [updates[i:i + batch_size]] of the processing loop, in order. *)
Definition batches {A} (updates : list A) : list (list A) :=
  List.map (fun i => take batch_size (drop i updates))
           (range_step (length updates) batch_size).

(** The [asyncio.sleep(1)] calls of the loop: one after each batch that
    is followed by another ([i + batch_size < len(updates)]). *)
Definition pauses {A} (updates : list A) : list Q :=
  List.flat_map (fun i => if (i + batch_size <? length updates)%nat then [1%Q] else [])
                (range_step (length updates) batch_size).

(** *** [call_api_endpoint] *)

(** [s * n]. *)
Fixpoint times (n : nat) (s : string) : string :=
  match n with
  | O => EmptyString
  | S n' => s ++ times n' s
  end.

(** [sep.join(lines)]. *)
Fixpoint join (sep : string) (lines : list string) : string :=
  match lines with
  | [] => EmptyString
  | [l] => l
  | l :: rest => l ++ sep ++ join sep rest
  end.

Definition REQUIRE_CONFIRMATION : bool := true.

Definition format_confirmation_message `{PyLib} (action : string)
    (details : list (string * pyvalue)) : string :=
  join (String "010" EmptyString)
    ([("⚠️  CONFIRMATION REQUIRED: " ++ action)%string; times 50 "━"]
     ++ List.map (fun kv => (fst kv ++ ": " ++ py_str (snd kv))%string) details
     ++ [times 50 "━";
         "To proceed with this action, please confirm by saying 'yes' or 'confirm'.";
         "To cancel, say 'no' or 'cancel'."])%list.

(** List of mutating endpoints that require confirmation. *)
Definition MUTATING_ENDPOINTS : list string :=
  [ "additem"; "additembulk"; "removeitem"; "removeitembulk"; "createproduct";
    "createproducts"; "updateproduct"; "updateproducts"; "setitemquantity";
    "setitemquantities"; "pickitem"; "pickitembulk"; "createkit"; "createbrands";
    "createsuppliers"; "createpo"; "updatepos"; "updateshipments";
    "updatehandlingtime"; "updateonlinesalestatus"; "updatealtskuscodes";
    "syncshippedsaleandremoveitems"; "syncshippedsaleandremoveitemsbulk";
    "synconlinesale"; "synconlinesales"; "addshipments"; "createholds";
    "releaseheldquantities"; "receivepoitems"; "createlot" ].

(** [call_api_endpoint]: the dict the tool returns and the client state
    it leaves; [None] only when the retry loop of the call was not given
    fuel enough. *)
Definition call_api_endpoint `{PyLib} `{Remote} (endpoint_name : string) (confirm : bool)
    (parameters : params) (st : Client) : option (pyvalue * Client) :=
  (* Check if this is a mutating endpoint *)
  let is_mutating := existsb (String.eqb (PyStr.lower endpoint_name)) MUTATING_ENDPOINTS in
  (* If mutating and confirmation required *)
  if is_mutating && REQUIRE_CONFIRMATION && negb confirm then
    let details :=
      [ ("Action", VStr "Call API Endpoint");
        ("Endpoint", VStr endpoint_name);
        ("Parameters", VDict parameters);
        ("WARNING", VStr "This is a mutating operation that will modify data!") ] in
    Some (VDict
            [ ("confirmation_required", VBool true);
              ("message",
               VStr (format_confirmation_message ("API Call: " ++ endpoint_name) details));
              ("action", VStr "call_api_endpoint");
              ("parameters",
               VDict (("endpoint_name", VStr endpoint_name) :: ("confirm", VBool true)
                      :: parameters)) ],
          st)
  else
    (* Proceed with the API call *)
    match Api.call_endpoint endpoint_name parameters st with
    | Some (Return response, st') => Some (response, st')
    | Some (Raise (SkuVaultAPIError msg), st') =>
        Some (VDict [("error", VStr msg); ("details", VNone)], st')
    | Some (Raise e, st') =>
        Some (VDict [("error", VStr ("Failed to call endpoint: " ++ Queue.str_of_exn e))], st')
    | None => None
    end.

(** *** [get_products] *)

(** How a run of a tool ends in the model. *)
Inductive Ran (A : Type) : Type :=
| Done (a : A)
| NotFollowed   (* Python raises here, on a value of a shape the operation
                   does not support or on a page size of 0; what the
                   tool makes of that exception is not followed *)
| NoFuel.       (* the fuel given was not enough *)
Arguments Done {A} a.
Arguments NotFollowed {A}.
Arguments NoFuel {A}.

(** The truth value of a Python value. *)
Definition truthy_value (v : pyvalue) : bool :=
  match v with
  | VNone => false
  | VBool b => b
  | VInt n => negb (n =? 0)
  | VStr s => negb (String.eqb s "")
  | VList l => match l with [] => false | _ => true end
  | VDict kvs => match kvs with [] => false | _ => true end
  end.

(** [d[k] = v] on a dict given by its items: the value is replaced where
    the key stands, or the item is added at the end. *)
Fixpoint dict_set (k : string) (v : pyvalue) (kvs : list (string * pyvalue))
  : list (string * pyvalue) :=
  match kvs with
  | [] => [(k, v)]
  | (k', v') :: rest =>
      if String.eqb k k' then (k, v) :: rest else (k', v') :: dict_set k v rest
  end.

(** The items that [for p in v] goes through; [None] when [v] is not iterable. *)
Definition iterate (v : pyvalue) : option (list pyvalue) :=
  match v with
  | VList l => Some l
  | VStr s => Some (List.map (fun c => VStr (String c EmptyString)) (list_ascii_of_string s))
  | VDict kvs => Some (List.map (fun kv => VStr (fst kv)) kvs)
  | VNone | VBool _ | VInt _ => None
  end.

(** [p.get("IsActive", True)] as a truth value; [None] when [p] has no [get]. *)
Definition is_active (p : pyvalue) : option bool :=
  match p with
  | VDict kvs => Some (truthy_value (default (VBool true) (dict_get "IsActive" kvs)))
  | _ => None
  end.

(** [[p for p in products if p.get("IsActive", True)]]. *)
Fixpoint filter_active (products : list pyvalue) : option (list pyvalue) :=
  match products with
  | [] => Some []
  | p :: rest =>
      match is_active p with
      | None => None
      | Some keep =>
          match filter_active rest with
          | None => None
          | Some rest' => Some (if keep then p :: rest' else rest')
          end
      end
  end.

(** ["Products" in response]: [None] when [response] supports no [in]. *)
Definition has_products (response : pyvalue) : option bool :=
  match response with
  | VDict kvs => Some (match dict_get "Products" kvs with Some _ => true | None => false end)
  | VStr s => Some (PyStr.contains "Products" s)
  | VList l =>
      Some (existsb (fun v => match v with VStr s => String.eqb s "Products" | _ => false end) l)
  | VNone | VBool _ | VInt _ => None
  end.

(** The [params] of a page request; [ProductSKUs] is added [if skus]. *)
Definition page_params (page_number page_size : Z) (skus : option (list string)) : params :=
  ([("PageNumber", VInt page_number); ("PageSize", VInt page_size)]
   ++ match skus with
      | Some (sku :: rest) => [("ProductSKUs", VList (List.map VStr (sku :: rest)))]
      | _ => []
      end)%list.

(** What the two [except] clauses of the tool return. *)
Definition error_answer (what : string) (e : exn) : pyvalue :=
  match e with
  | SkuVaultAPIError msg => VDict [("error", VStr msg); ("details", VNone)]
  | _ => VDict [("error", VStr ("Failed to " ++ what ++ ": " ++ Queue.str_of_exn e))]
  end.

(** An item assignment on the object that [response] refers to.  Unless
    the response is an error mapping, that object is the one the cache
    holds under the key of the call (a hit returned the stored object, a
    miss stored the returned one), so the assignment changes the cached
    value as well. *)
Definition assign_shared `{PyLib} (endpoint : string) (p : params)
    (response response' : pyvalue) (st : Client) : Client :=
  if is_error_dict response then st
  else
    let key := Cache._get_cache_key endpoint p in
    match cache (store st) !! key with
    | Some (_, expiry_time) =>
        Api.set_store st
          (Cache.with_entries (store st) (<[key := (response', expiry_time)]> (cache (store st))))
    | None => st
    end.

(** [get_products] with [get_all=False]: the single page request. *)
Definition get_products_page `{PyLib} `{Remote} (page_number : option Z) (page_size : Z)
    (skus : option (list string)) (active_only : bool) (st : Client)
  : Ran (pyvalue * Client) :=
  let params := page_params (default 0 page_number) (Z.min page_size 10000) skus in
  match Api.call_endpoint "getproducts" params st with
  | None => NoFuel
  | Some (Raise e, st1) => Done (error_answer "get products" e, st1)
  | Some (Return response, st1) =>
      if negb active_only then Done (response, st1)
      else
        match has_products response with
        | None => NotFollowed
        | Some false => Done (response, st1)
        | Some true =>
            match response with
            | VDict kvs =>
                match option_bind _ _ iterate (dict_get "Products" kvs) with
                | None => NotFollowed
                | Some products =>
                    match filter_active products with
                    | None => NotFollowed
                    | Some active_products =>
                        let response' :=
                          VDict (dict_set "FilteredCount"
                                   (VInt (Z.of_nat (length active_products)))
                                   (dict_set "Products" (VList active_products) kvs)) in
                        Done (response',
                              assign_shared "getproducts" params response response' st1)
                    end
                end
            | _ => NotFollowed      (* [response["Products"]] on a string or a list *)
            end
        end
  end.

(** [response.get("TotalRecords", 0)] as an integer. *)
Definition total_records (kvs : list (string * pyvalue)) : option Z :=
  match dict_get "TotalRecords" kvs with
  | None => Some 0
  | Some (VInt n) => Some n
  | Some (VBool b) => Some (Z.b2z b)
  | Some _ => None
  end.

(** The dict that [get_products] returns with [get_all=True]. *)
Definition all_answer (all_products : list pyvalue) (active_only : bool) (current_page : Z)
  : pyvalue :=
  VDict [ ("Products", VList all_products);
          ("TotalRecords", VInt (Z.of_nat (length all_products)));
          ("Summary",
           VDict [ ("total_products", VInt (Z.of_nat (length all_products)));
                   ("active_filter", VBool active_only);
                   ("pages_fetched", VInt current_page) ]) ].

(** The [while current_page < total_pages] loop of [get_products] with
    [get_all=True]. *)
Fixpoint get_all_loop `{PyLib} `{Remote} (fuel : nat) (current_page total_pages : Z)
    (all_products : list pyvalue) (page_size : Z) (skus : option (list string))
    (active_only : bool) (st : Client) : Ran (pyvalue * Client) :=
  if current_page <? total_pages then
    match fuel with
    | O => NoFuel
    | S fuel' =>
        let size := Z.min page_size 1000 in
        let params := page_params current_page size skus in
        match Api.call_endpoint "getproducts" params st with
        | None => NoFuel
        | Some (Raise e, st1) => Done (error_answer "get products" e, st1)
        | Some (Return response, st1) =>
            match has_products response with
            | None => NotFollowed
            | Some false =>
                get_all_loop fuel' (current_page + 1) total_pages all_products
                  page_size skus active_only st1
            | Some true =>
                match response with
                | VDict kvs =>
                    match option_bind _ _ iterate (dict_get "Products" kvs) with
                    | None => NotFollowed
                    | Some products =>
                        (* Filter active products if requested *)
                        match (if active_only then filter_active products else Some products) with
                        | None => NotFollowed
                        | Some kept =>
                            (* Update total pages on first request *)
                            if current_page =? 0 then
                              match total_records kvs with
                              | None => NotFollowed
                              | Some n =>
                                  if size =? 0 then NotFollowed
                                  else
                                    get_all_loop fuel' (current_page + 1)
                                      ((n + size - 1) / size)
                                      (all_products ++ kept) page_size skus active_only st1
                              end
                            else
                              get_all_loop fuel' (current_page + 1) total_pages
                                (all_products ++ kept) page_size skus active_only st1
                        end
                    end
                | _ => NotFollowed
                end
            end
        end
    end
  else Done (all_answer all_products active_only current_page, st).

(** [get_products] with [get_all=True]. *)
Definition get_all_products `{PyLib} `{Remote} (fuel : nat) (page_size : Z)
    (skus : option (list string)) (active_only : bool) (st : Client)
  : Ran (pyvalue * Client) :=
  get_all_loop fuel 0 1 [] page_size skus active_only st.

End Server.

(** ** A concrete library and remote, to run the definitions on examples *)

Module Sample.

Definition hex_digit (n : N) : ascii :=
  if (n <? 10)%N then ascii_of_N (48 + n) else ascii_of_N (87 + n).

(** Two lowercase hexadecimal digits per character. *)
Fixpoint hex_of_string (s : string) : string :=
  match s with
  | EmptyString => EmptyString
  | String c s' =>
      let n := N_of_ascii c in
      String (hex_digit (n / 16)) (String (hex_digit (n mod 16)) (hex_of_string s'))
  end.

Definition show (v : pyvalue) : string :=
  match v with
  | VNone => "null"
  | VBool true => "true"
  | VBool false => "false"
  | VInt n => pretty n
  | VStr s => s
  | VList _ => "[...]"
  | VDict _ => "{...}"
  end.

Definition show_items (p : params) : string :=
  fold_right (fun kv acc => fst kv ++ "=" ++ show (snd kv) ++ ";" ++ acc) "" p.

Definition all_digits (s : string) : bool :=
  match PyStr.span_digits s with
  | (String _ _, EmptyString) => true
  | _ => false
  end.

(** Whole numbers only. *)
Definition float_of_digits (s : string) : option Q :=
  if all_digits s then Some (inject_Z (PyStr.int_of_digits 0 s)) else None.

#[export] Instance pylib : PyLib :=
  {| json_dumps := show_items;
     md5_hexdigest := hex_of_string;
     repr := show;
     float_of := float_of_digits |}.

(** A service that knows every endpoint and answers every POST alike. *)
#[export] Instance remote : Remote :=
  {| in_schema := fun _ => true;
     has_auth_tokens := true;
     respond := fun _ _ _ => Return (VDict [("Products", VList [])]) |}.

(** A service that knows no endpoint, and a client without credentials. *)
Definition closed_remote : Remote :=
  {| in_schema := fun _ => false;
     has_auth_tokens := false;
     respond := fun _ _ _ => Raise (SkuVaultAPIError "unreachable") |}.

(** A service that answers every request with [null]. *)
Definition null_remote : Remote :=
  {| in_schema := fun _ => true;
     has_auth_tokens := true;
     respond := fun _ _ _ => Return VNone |}.

(** A service whose every answer is a rate-limit error. *)
Definition busy_remote : Remote :=
  {| in_schema := fun _ => true;
     has_auth_tokens := true;
     respond := fun _ _ _ => Return (VDict [("error", VStr "HTTP 429 error")]) |}.

(** A service with two products, the second one inactive. *)
Definition catalog : pyvalue :=
  VDict [ ("Products",
           VList [ VDict [("Sku", VStr "A1"); ("IsActive", VBool true)];
                   VDict [("Sku", VStr "B2"); ("IsActive", VBool false)] ]);
          ("TotalRecords", VInt 2) ].

Definition catalog_remote : Remote :=
  {| in_schema := fun _ => true;
     has_auth_tokens := true;
     respond := fun _ _ _ => Return catalog |}.

End Sample.

(** * Properties *)

(** ** Booleans on rationals *)

Lemma Qltb_lt x y : Qltb x y = true <-> (x < y)%Q.
Proof.
  unfold Qltb. rewrite negb_true_iff, <- not_true_iff_false, Qle_bool_iff.
  split; [apply Qnot_le_lt | apply Qlt_not_le].
Qed.

Lemma Qltb_ge x y : Qltb x y = false <-> (y <= x)%Q.
Proof.
  unfold Qltb. rewrite negb_false_iff. apply Qle_bool_iff.
Qed.

(** ** The string functions on examples *)

Example lower_mixed : PyStr.lower "GetProducts" = "getproducts".
Proof. reflexivity. Qed.

Example contains_yes : PyStr.contains "product" "getproducts" = true.
Proof. reflexivity. Qed.

Example contains_no : PyStr.contains "inventory" "d41d8cd98f00b204e9800998ecf8427e" = false.
Proof. reflexivity. Qed.

Example split_second_ex :
  PyStr.split_second "Retry after" "429: Retry after 12 seconds" = Some " 12 seconds".
Proof. reflexivity. Qed.

Example key_exact : RL.get_rate_limit_key RL.init "GetWarehouses" = "getwarehouses".
Proof. vm_compute. reflexivity. Qed.

Example key_category : RL.get_rate_limit_key RL.init "getProductDetails" = "products".
Proof. vm_compute. reflexivity. Qed.

Example search_limit_ex :
  RL.search_limit "Rate limit: Only 1 API calls per minute guaranteed" = Some 1.
Proof. vm_compute. reflexivity. Qed.

Example search_limit_singular :
  RL.search_limit "Only 12 API call per minute" = Some 12.
Proof. vm_compute. reflexivity. Qed.

Example search_limit_none : RL.search_limit "HTTP 429 error" = None.
Proof. vm_compute. reflexivity. Qed.

(** ** Substrings *)

Lemma startswith_app_l p q s :
  PyStr.startswith (p ++ q) s = true -> PyStr.startswith p s = true.
Proof.
  revert s. induction p as [|a p IH]; intros s Hs; [reflexivity|].
  destruct s as [|b s]; simpl in *; [discriminate|].
  destruct (Ascii.eqb a b); [auto | discriminate].
Qed.

(** A string that contains [p ++ q] contains [p]. *)
Lemma contains_app_l p q s :
  PyStr.contains (p ++ q) s = true -> PyStr.contains p s = true.
Proof.
  induction s as [|c s IH]; simpl; rewrite !orb_true_iff.
  - intros [Hs|Hf]; [left; eauto using startswith_app_l | discriminate].
  - intros [Hs|Hc]; [left; eauto using startswith_app_l | right; auto].
Qed.

(** ** C2: the TTL table *)

(** Whatever the endpoint, the TTL is one of four values: the entry
    ["products": 60] is never the first match, because every name that
    contains "products" contains "product", which comes earlier. *)
Lemma get_ttl_range (dt : Z) (endpoint : string) :
  let t := Cache._get_ttl (Cache.init dt) endpoint in
  t = 3600 \/ t = 300 \/ t = 30 \/ t = dt.
Proof.
  unfold Cache._get_ttl; simpl.
  destruct (PyStr.contains "warehouses" _); [auto|].
  destruct (PyStr.contains "product" _) eqn:Hp; [auto|].
  destruct (PyStr.contains "products" _) eqn:Hps.
  - apply (contains_app_l "product" "s") in Hps. congruence.
  - destruct (PyStr.contains "inventory" _); [auto|].
    destruct (PyStr.contains "default" _); auto.
Qed.

(** C2 (as the code has it): a [set] without an explicit ttl for the
    endpoint "getproducts" stores the entry for 300 seconds, not for the
    60 seconds of the "products" row; and no endpoint at all gets the
    60-second TTL from the table of the global cache. *)
Theorem C2_getproducts_cached_300 :
  Cache._get_ttl Cache.global_cache "getproducts" = 300 /\
  (forall endpoint, Cache._get_ttl Cache.global_cache endpoint <> 60) /\
  (forall (L : PyLib) (p : params) (v : pyvalue) (clk : Clock),
      is_error_dict v = false ->
      cache (Cache.set Cache.global_cache "getproducts" p v None clk)
        !! Cache._get_cache_key "getproducts" p
      = Some (v, (now clk + inject_Z 300)%Q)).
Proof.
  split; [reflexivity|]. split.
  - intros endpoint. pose proof (get_ttl_range 300 endpoint) as H.
    unfold Cache.global_cache. simpl in H. lia.
  - intros L p v clk Hv. unfold Cache.set. rewrite Hv. simpl.
    apply lookup_insert_eq.
Qed.

(** The rows of the table that do apply. *)
Lemma get_ttl_warehouses (dt : Z) (endpoint : string) :
  PyStr.contains "warehouses" (PyStr.lower endpoint) = true ->
  Cache._get_ttl (Cache.init dt) endpoint = 3600.
Proof. intros H. unfold Cache._get_ttl; simpl. now rewrite H. Qed.

Lemma get_ttl_product (dt : Z) (endpoint : string) :
  PyStr.contains "warehouses" (PyStr.lower endpoint) = false ->
  PyStr.contains "product" (PyStr.lower endpoint) = true ->
  Cache._get_ttl (Cache.init dt) endpoint = 300.
Proof. intros H1 H2. unfold Cache._get_ttl; simpl. now rewrite H1, H2. Qed.

Lemma get_ttl_inventory (dt : Z) (endpoint : string) :
  PyStr.contains "warehouses" (PyStr.lower endpoint) = false ->
  PyStr.contains "product" (PyStr.lower endpoint) = false ->
  PyStr.contains "inventory" (PyStr.lower endpoint) = true ->
  Cache._get_ttl (Cache.init dt) endpoint = 30.
Proof.
  intros H1 H2 H3. unfold Cache._get_ttl; simpl. rewrite H1, H2, H3.
  destruct (PyStr.contains "products" _) eqn:Hps; [|reflexivity].
  apply (contains_app_l "product" "s") in Hps. congruence.
Qed.

Lemma get_ttl_unclassified (dt : Z) (endpoint : string) :
  Cache.first_match (ttl_config (Cache.init dt)) (PyStr.lower endpoint) = None ->
  Cache._get_ttl (Cache.init dt) endpoint = dt.
Proof. intros H. unfold Cache._get_ttl. now rewrite H. Qed.

(** ** C3: backoff after a rate-limit error *)

Lemma key_depends_on_limits (s1 s2 : RateLimiter) (endpoint : string) :
  rate_limits s1 = rate_limits s2 ->
  RL.get_rate_limit_key s1 endpoint = RL.get_rate_limit_key s2 endpoint.
Proof. intros H. unfold RL.get_rate_limit_key. now rewrite H. Qed.

Lemma handle_keeps_limits self endpoint retry_after clk :
  rate_limits (fst (RL.handle_rate_limit_error self endpoint retry_after clk)) = rate_limits self.
Proof. reflexivity. Qed.

Lemma truthy_nonzero (r : Q) : ~ (r == 0)%Q -> RL.truthy (Some r) = true.
Proof.
  intros H. unfold RL.truthy. apply negb_true_iff.
  destruct (Qeq_bool r 0) eqn:E; [|reflexivity].
  apply Qeq_bool_eq in E. contradiction.
Qed.

(** With a retry time that Python takes as true, that time is the wait. *)
Lemma handle_supplied self endpoint (r : Q) clk :
  ~ (r == 0)%Q ->
  let k := RL.get_rate_limit_key self endpoint in
  let '(self', wait_time) := RL.handle_rate_limit_error self endpoint (Some r) clk in
  wait_time = r /\
  backoff_until self' !! k = Some (now clk + r)%Q /\
  retry_counts self' !! k = Some (RL.retry_count self k + 1).
Proof.
  intros Hr k. unfold RL.handle_rate_limit_error.
  rewrite (truthy_nonzero r Hr). simpl.
  repeat split; apply lookup_insert_eq.
Qed.

(** Without one, the wait is [min(2 ** count, 300)] for the incremented count. *)
Lemma handle_exponential self endpoint retry_after clk :
  RL.truthy retry_after = false ->
  let k := RL.get_rate_limit_key self endpoint in
  let n := RL.retry_count self k + 1 in
  let '(self', wait_time) := RL.handle_rate_limit_error self endpoint retry_after clk in
  wait_time = inject_Z (Z.min (2 ^ n) 300) /\
  backoff_until self' !! k = Some (now clk + inject_Z (Z.min (2 ^ n) 300))%Q /\
  retry_counts self' !! k = Some n.
Proof.
  intros Ht k n. unfold RL.handle_rate_limit_error.
  destruct retry_after as [r|]; [rewrite Ht|]; simpl;
    repeat split; apply lookup_insert_eq.
Qed.

Lemma min_pow_mono (a b : Z) :
  0 <= a <= b -> Z.min (2 ^ a) 300 <= Z.min (2 ^ b) 300.
Proof.
  intros H. assert (2 ^ a <= 2 ^ b) by (apply Z.pow_le_mono_r; lia). lia.
Qed.

Lemma backoff_windows_cons self endpoint clk rest :
  RL.backoff_windows self ((endpoint, clk) :: rest)
  = snd (RL.handle_rate_limit_error self endpoint None clk)
    :: RL.backoff_windows (fst (RL.handle_rate_limit_error self endpoint None clk)) rest.
Proof. reflexivity. Qed.

Lemma handle_count self endpoint retry_after clk :
  RL.retry_count (fst (RL.handle_rate_limit_error self endpoint retry_after clk))
                 (RL.get_rate_limit_key self endpoint)
  = RL.retry_count self (RL.get_rate_limit_key self endpoint) + 1.
Proof.
  unfold RL.retry_count at 1. simpl. rewrite lookup_insert_eq. reflexivity.
Qed.

(** The [i]-th of consecutive windows of one class is
    [min(2 ** (c + 1 + i), 300)], [c] being the count before the first. *)
Lemma backoff_windows_nth (calls : list (string * Clock)) :
  forall (self : RateLimiter) (k : string) (i : nat) (w : Q),
    Forall (fun call => RL.get_rate_limit_key self (fst call) = k) calls ->
    RL.backoff_windows self calls !! i = Some w ->
    w = inject_Z (Z.min (2 ^ (RL.retry_count self k + 1 + Z.of_nat i)) 300).
Proof.
  induction calls as [|[endpoint clk] rest IH]; intros self k i w Hk Hw; [discriminate|].
  pose proof (Forall_inv Hk) as Hk1. pose proof (Forall_inv_tail Hk) as Hk2.
  simpl in Hk1. rewrite backoff_windows_cons in Hw.
  pose proof (handle_exponential self endpoint None clk eq_refl) as Hexp.
  pose proof (handle_count self endpoint None clk) as Hcount.
  destruct (RL.handle_rate_limit_error self endpoint None clk) as [self' wait_time] eqn:Hout.
  simpl in Hexp, Hcount. rewrite Hk1 in Hexp, Hcount.
  destruct Hexp as (Hwait & _ & _).
  destruct i as [|i].
  - injection Hw as <-. rewrite Hwait. do 3 f_equal. lia.
  - change (RL.backoff_windows self' rest !! i = Some w) in Hw.
    assert (Hkeys : Forall (fun call => RL.get_rate_limit_key self' (fst call) = k) rest).
    { eapply Forall_impl; [exact Hk2|]. intros call Hc. simpl in Hc.
      rewrite <- Hc. apply key_depends_on_limits.
      change self' with (fst (self', wait_time)). rewrite <- Hout. reflexivity. }
    rewrite (IH self' k i w Hkeys Hw), Hcount. do 3 f_equal. lia.
Qed.

(** C3 (counterexample): a server-supplied retry time of 0 is not the wait
    that is returned; the exponential value 2 is. *)
Lemma C3_zero_retry_after_ignored :
  ~ (forall (self : RateLimiter) (endpoint : string) (retry_after : Q) (clk : Clock),
        (snd (RL.handle_rate_limit_error self endpoint (Some retry_after) clk) == retry_after)%Q).
Proof.
  intros H.
  specialize (H RL.init "getproducts" 0%Q {| now := 0; sleeps := [] |}).
  vm_compute in H. discriminate.
Qed.

(** C3 (amended): [handle_rate_limit_error] returns, and schedules as the
    backoff window from the current time, the server-supplied retry time
    whenever that time is present and not zero, and otherwise (absent, or
    zero) [min(2 ** n, 300)] where [n] is the retry count after its
    increment; consecutive windows of one class without a retry time are
    non-decreasing and at most 300; and after [reset_retry_count] the next
    such window is the base value 2. *)
Theorem C3_backoff_windows :
  (forall self endpoint (r : Q) clk,
      ~ (r == 0)%Q ->
      let k := RL.get_rate_limit_key self endpoint in
      let out := RL.handle_rate_limit_error self endpoint (Some r) clk in
      snd out = r /\ backoff_until (fst out) !! k = Some (now clk + r)%Q) /\
  (forall self endpoint retry_after clk,
      RL.truthy retry_after = false ->
      let k := RL.get_rate_limit_key self endpoint in
      let n := RL.retry_count self k + 1 in
      let out := RL.handle_rate_limit_error self endpoint retry_after clk in
      snd out = inject_Z (Z.min (2 ^ n) 300) /\
      retry_counts (fst out) !! k = Some n /\
      backoff_until (fst out) !! k = Some (now clk + inject_Z (Z.min (2 ^ n) 300))%Q) /\
  (forall self k calls (i j : nat) (wi wj : Q),
      0 <= RL.retry_count self k ->
      Forall (fun call => RL.get_rate_limit_key self (fst call) = k) calls ->
      (i <= j)%nat ->
      RL.backoff_windows self calls !! i = Some wi ->
      RL.backoff_windows self calls !! j = Some wj ->
      (wi <= wj)%Q /\ (wj <= 300)%Q) /\
  (forall self endpoint endpoint' clk,
      RL.get_rate_limit_key self endpoint' = RL.get_rate_limit_key self endpoint ->
      snd (RL.handle_rate_limit_error (RL.reset_retry_count self endpoint) endpoint' None clk)
      = 2%Q).
Proof.
  split; [|split; [|split]].
  - intros self ep r clk Hr k out.
    pose proof (handle_supplied self ep r clk Hr) as Hs. cbv zeta in Hs.
    subst out k. destruct (RL.handle_rate_limit_error self ep (Some r) clk).
    simpl. tauto.
  - intros self ep retry_after clk Ht k n out.
    pose proof (handle_exponential self ep retry_after clk Ht) as Hs. cbv zeta in Hs.
    subst out n k. destruct (RL.handle_rate_limit_error self ep retry_after clk).
    simpl. tauto.
  - intros self k calls i j wi wj Hc Hk Hij Hi Hj.
    rewrite (backoff_windows_nth calls self k i wi Hk Hi).
    rewrite (backoff_windows_nth calls self k j wj Hk Hj).
    split.
    + rewrite <- Zle_Qle. apply min_pow_mono. lia.
    + change 300%Q with (inject_Z 300). rewrite <- Zle_Qle. lia.
  - intros self ep ep' clk Hsame.
    unfold RL.handle_rate_limit_error. simpl.
    assert (Hk : RL.get_rate_limit_key (RL.reset_retry_count self ep) ep'
                 = RL.get_rate_limit_key self ep).
    { rewrite <- Hsame. apply key_depends_on_limits. reflexivity. }
    rewrite Hk. unfold RL.reset_retry_count. simpl.
    rewrite lookup_delete_eq. reflexivity.
Qed.

(** The statement at a concrete limiter: three consecutive errors on
    "getproducts" give the windows 2, 4, 8. *)
Lemma C3_backoff_windows_witness :
  RL.backoff_windows RL.init
    [("getproducts", mkClock 0 []); ("GetProducts", mkClock 5 []); ("getproducts", mkClock 9 [])]
  = [2%Q; 4%Q; 8%Q] /\
  (2 <= 8)%Q /\ (8 <= 300)%Q.
Proof.
  split; [vm_compute; reflexivity|].
  destruct C3_backoff_windows as (_ & _ & Hmono & _).
  apply (Hmono RL.init "getproducts"
           [("getproducts", mkClock 0 []); ("GetProducts", mkClock 5 []);
            ("getproducts", mkClock 9 [])] 0%nat 2%nat 2%Q 8%Q).
  - vm_compute. discriminate.
  - repeat constructor.
  - lia.
  - vm_compute. reflexivity.
  - vm_compute. reflexivity.
Defined.

(** ** C4: spacing of calls of one class *)

Lemma sleep_now_pos (d : Q) (clk : Clock) :
  (0 < d)%Q -> now (sleep d clk) = (now clk + d)%Q.
Proof. intros H. unfold sleep; simpl. apply Qltb_lt in H. now rewrite H. Qed.

Lemma sleep_now_le (d : Q) (clk : Clock) : (now clk <= now (sleep d clk))%Q.
Proof.
  unfold sleep; simpl. destruct (Qltb 0 d) eqn:E.
  - apply Qltb_lt in E. lra.
  - lra.
Qed.

Lemma wait_keeps_limits self endpoint clk :
  rate_limits (fst (snd (RL.wait_if_needed self endpoint clk))) = rate_limits self.
Proof.
  unfold RL.wait_if_needed.
  destruct (backoff_until self !! _) as [u|]; [destruct (Qltb _ _)|]; simpl;
    (destruct (last_call_times self !! _) as [l|];
     [destruct (_ =? 0); [reflexivity|destruct (Qltb _ _); reflexivity] | reflexivity]).
Qed.

(** One gated call: it never returns before the last call of its class
    plus the minimum interval, and records the time it returns at. *)
Lemma wait_if_needed_spacing self endpoint clk last self' clk' :
  let k := RL.get_rate_limit_key self endpoint in
  last_call_times self !! k = Some last ->
  RL.wait_if_needed self endpoint clk = (Return tt, (self', clk')) ->
  (last + 60 / inject_Z (RL.calls_per_minute self k) <= now clk')%Q /\
  last_call_times self' !! k = Some (now clk').
Proof.
  intros k Hlast. unfold RL.wait_if_needed, RL.calls_per_minute. fold k.
  set (m := (60 / inject_Z (default 5%Z (rate_limits self !! k)))%Q).
  assert (Hpre : exists self1 clk1,
             (match backoff_until self !! k with
              | Some until =>
                  if Qltb 0 (until - time_time clk)
                  then ({| last_call_times := last_call_times self;
                           retry_counts := retry_counts self;
                           backoff_until := delete k (backoff_until self);
                           rate_limits := rate_limits self |},
                        sleep (until - time_time clk) clk)
                  else (self, clk)
              | None => (self, clk)
              end) = (self1, clk1) /\
             last_call_times self1 = last_call_times self /\
             rate_limits self1 = rate_limits self /\
             (now clk <= now clk1)%Q).
  { destruct (backoff_until self !! k) as [u|]; [destruct (Qltb _ _)|];
      eexists _, _; (split; [reflexivity|]); simpl; repeat split;
      try apply sleep_now_le; lra. }
  destruct Hpre as (self1 & clk1 & -> & Hl1 & Hr1 & Hclk1).
  rewrite Hl1, Hr1, Hlast. fold m.
  destruct (default 5 (rate_limits self !! k) =? 0); [discriminate|].
  unfold time_time.
  destruct (Qltb (now clk - last) m) eqn:Hlt; intros Heq; inversion Heq; subst;
    cbn [last_call_times].
  - apply Qltb_lt in Hlt. rewrite lookup_insert_eq. split; [|reflexivity].
    rewrite sleep_now_pos by lra. lra.
  - apply Qltb_ge in Hlt. rewrite lookup_insert_eq. split; [lra | reflexivity].
Qed.

(** A first call of a class records its time too. *)
Lemma wait_if_needed_records self endpoint clk self' clk' :
  RL.wait_if_needed self endpoint clk = (Return tt, (self', clk')) ->
  last_call_times self' !! RL.get_rate_limit_key self endpoint = Some (now clk').
Proof.
  unfold RL.wait_if_needed.
  set (k := RL.get_rate_limit_key self endpoint).
  destruct (backoff_until self !! k) as [u|]; [destruct (Qltb _ _)|]; simpl;
    (destruct (last_call_times self !! k) as [l|];
     [destruct (_ =? 0); [discriminate|destruct (Qltb _ _)] | ]);
    intros Heq; inversion Heq; subst; simpl; apply lookup_insert_eq.
Qed.

(** The call returns normally unless the limit in force is 0. *)
Lemma wait_if_needed_returns self endpoint clk :
  RL.calls_per_minute self (RL.get_rate_limit_key self endpoint) <> 0 ->
  exists self' clk', RL.wait_if_needed self endpoint clk = (Return tt, (self', clk')).
Proof.
  intros Hcpm. unfold RL.wait_if_needed, RL.calls_per_minute in *.
  set (k := RL.get_rate_limit_key self endpoint) in *.
  assert (Hz : forall rl, rate_limits rl = rate_limits self ->
                          (default 5 (rate_limits rl !! k) =? 0) = false).
  { intros rl ->. apply Z.eqb_neq. exact Hcpm. }
  destruct (backoff_until self !! k) as [u|]; [destruct (Qltb _ _)|]; simpl;
    (destruct (last_call_times self !! k) as [l|];
     [rewrite Hz by reflexivity; destruct (Qltb _ _) | ]); eauto.
Qed.

(** C4, amended: two calls gated by [wait_if_needed] on one class, the
    second of which enters the gate after the first has left it, are
    issued at least [60 / callsPerMinute] seconds apart, whatever time
    passes between the return of the first and the arrival of the second;
    and a gated call is issued whenever the limit of its class is not 0. *)
Theorem C4_min_interval_between_calls :
  forall (self : RateLimiter) (clk : Clock) (endpoint1 endpoint2 : string) (gap : Q)
         (self1 self2 : RateLimiter) (clk1 clk2 : Clock),
    let k := RL.get_rate_limit_key self endpoint1 in
    RL.get_rate_limit_key self endpoint2 = k ->
    (0 <= gap)%Q ->
    RL.wait_if_needed self endpoint1 clk = (Return tt, (self1, clk1)) ->
    RL.wait_if_needed self1 endpoint2 (elapse gap clk1) = (Return tt, (self2, clk2)) ->
    (now clk1 + 60 / inject_Z (RL.calls_per_minute self k) <= now clk2)%Q /\
    (RL.calls_per_minute self k <> 0 ->
     forall clk', exists self' clk'',
         RL.wait_if_needed self1 endpoint2 clk' = (Return tt, (self', clk''))).
Proof.
  intros self clk ep1 ep2 gap self1 self2 clk1 clk2 k Hk Hgap H1 H2.
  assert (Hlim : rate_limits self1 = rate_limits self).
  { pose proof (wait_keeps_limits self ep1 clk) as Hw. now rewrite H1 in Hw. }
  assert (Hk2 : RL.get_rate_limit_key self1 ep2 = k).
  { rewrite <- Hk. now apply key_depends_on_limits. }
  assert (Hcpm : RL.calls_per_minute self1 k = RL.calls_per_minute self k).
  { unfold RL.calls_per_minute. now rewrite Hlim. }
  split.
  - pose proof (wait_if_needed_records self ep1 clk self1 clk1 H1) as Hrec. fold k in Hrec.
    pose proof (wait_if_needed_spacing self1 ep2 (elapse gap clk1) (now clk1) self2 clk2) as Hsp.
    cbv zeta in Hsp. rewrite Hk2, Hcpm in Hsp. apply Hsp; assumption.
  - intros Hnz clk'. apply wait_if_needed_returns. now rewrite Hk2, Hcpm.
Qed.

(** The scenario of the "warehouses" class, limit 1 per minute: the first
    call is issued at t = 0, the second arrives 10 seconds later and is
    issued at t = 60. *)
Example warehouses_scenario :
  let '(_, (self1, clk1)) := RL.wait_if_needed RL.init "warehouses" (mkClock 0 []) in
  let '(_, (self2, clk2)) := RL.wait_if_needed self1 "warehouses" (elapse 10 clk1) in
  (now clk1 == 0)%Q /\ (now clk2 == 60)%Q /\ sleeps clk2 = [50%Q].
Proof. vm_compute. repeat split; reflexivity. Qed.

Lemma C4_min_interval_between_calls_witness :
  let out1 := RL.wait_if_needed RL.init "warehouses" (mkClock 0 []) in
  let out2 := RL.wait_if_needed (fst (snd out1)) "listWarehouses"
                (elapse 10 (snd (snd out1))) in
  (now (snd (snd out1)) + 60 / inject_Z 1 <= now (snd (snd out2)))%Q.
Proof.
  intros out1 out2.
  refine (proj1 (C4_min_interval_between_calls RL.init (mkClock 0 [])
                   "warehouses" "listWarehouses" 10
                   (fst (snd out1)) (fst (snd out2)) (snd (snd out1)) (snd (snd out2))
                   _ _ _ _)).
  - vm_compute. reflexivity.
  - vm_compute. discriminate.
  - vm_compute. reflexivity.
  - vm_compute. reflexivity.
Defined.

(** The claim as stated fails for calls that overlap.  Class
    "warehouses", one call per minute, a first call issued at t = 0: a
    caller that arrives at t = 10 and one that arrives at t = 20 both find
    the last call too recent and sleep until t = 60; nothing is recorded
    while they sleep, and both are issued at t = 60, no time apart. *)
Lemma C4_overlapping_calls_issued_together :
  let self := fst (snd (RL.wait_if_needed RL.init "warehouses" (mkClock 0 []))) in
  RL.calls_per_minute self (RL.get_rate_limit_key self "warehouses") = 1 /\
  option_map callers
    (Tasks.schedule_all [(0%nat, 10%Q); (1%nat, 20%Q); (0%nat, 60%Q); (1%nat, 60%Q)]
       {| shared := self;
          callers := [NotStarted "warehouses"; NotStarted "warehouses"];
          gate_time := 0 |})
  = Some [Issued 60; Issued 60] /\
  ~ (60 + 60 / inject_Z 1 <= 60)%Q.
Proof.
  intros self. split; [vm_compute; reflexivity|]. split; [vm_compute; reflexivity|].
  vm_compute. intros H. apply H. reflexivity.
Qed.

(** ** C9: the limit learned from an error message *)

Lemma span_digits_app (d rest : string) :
  PyStr.is_digits d = true ->
  match rest with String c _ => PyStr.is_digit c = false | EmptyString => True end ->
  PyStr.span_digits (d ++ rest) = (d, rest).
Proof.
  intros Hd Hrest. induction d as [|c d IH]; simpl in *.
  - destruct rest as [|c r]; [reflexivity|]. simpl. now rewrite Hrest.
  - apply andb_true_iff in Hd as [Hc Hd]. rewrite Hc, (IH Hd). reflexivity.
Qed.

(** The pattern [Only (\d+) API calls? per minute] at the front of a
    message is recognised, with or without the plural, and the number
    captured is the value of the digits. *)
Lemma match_limit_here_complete (d suffix : string) (plural : bool) :
  d <> EmptyString -> PyStr.is_digits d = true ->
  RL.match_limit_here
    ("Only " ++ d ++ " API call" ++ (if plural then "s" else "") ++ " per minute" ++ suffix)
  = Some (PyStr.int_of_digits 0 d).
Proof.
  intros Hne Hd. unfold RL.match_limit_here.
  change (PyStr.startswith "Only " ("Only " ++ ?x)) with true. cbv iota.
  change (PyStr.span_digits (PyStr.drop 5 ("Only " ++ ?x))) with (PyStr.span_digits x).
  rewrite span_digits_app by (try assumption; reflexivity).
  destruct d as [|c d]; [contradiction|].
  destruct plural; reflexivity.
Qed.

Lemma search_limit_unfold (s : string) :
  RL.search_limit s =
  match RL.match_limit_here s with
  | Some n => Some n
  | None => match s with
            | EmptyString => None
            | String _ s' => RL.search_limit s'
            end
  end.
Proof. destruct s; reflexivity. Qed.

(** [re.search] finds a match wherever one starts. *)
Lemma search_limit_complete (pre rest : string) (n : Z) :
  RL.match_limit_here rest = Some n -> is_Some (RL.search_limit (pre ++ rest)).
Proof.
  intros Hm. induction pre as [|c pre IH].
  - change ("" ++ rest) with rest. rewrite search_limit_unfold, Hm. eauto.
  - change (String c pre ++ rest) with (String c (pre ++ rest)).
    rewrite search_limit_unfold.
    destruct (RL.match_limit_here (String c (pre ++ rest))); eauto.
Qed.

(** ... and reports none only when none starts anywhere. *)
Lemma search_limit_none_sound (s : string) :
  RL.search_limit s = None ->
  forall pre rest, s = pre ++ rest -> RL.match_limit_here rest = None.
Proof.
  intros Hs pre. revert s Hs. induction pre as [|c pre IH]; intros s Hs rest ->.
  - change ("" ++ rest) with rest in Hs. rewrite search_limit_unfold in Hs.
    destruct (RL.match_limit_here rest); [discriminate | reflexivity].
  - change (String c pre ++ rest) with (String c (pre ++ rest)) in Hs.
    rewrite search_limit_unfold in Hs.
    destruct (RL.match_limit_here (String c (pre ++ rest))); [discriminate|].
    eapply IH; eauto.
Qed.

Lemma update_matching self endpoint msg n :
  RL.search_limit msg = Some n ->
  RL.update_rate_limit_from_error self endpoint msg
  = {| last_call_times := last_call_times self;
       retry_counts := retry_counts self;
       backoff_until := backoff_until self;
       rate_limits := <[PyStr.lower endpoint := n]> (rate_limits self) |}.
Proof. intros H. unfold RL.update_rate_limit_from_error. now rewrite H. Qed.

Lemma startswith_split (p s : string) :
  PyStr.startswith p s = true -> s = p ++ PyStr.drop (String.length p) s.
Proof.
  revert s. induction p as [|a p IH]; intros s Hs; [reflexivity|].
  destruct s as [|b s]; [discriminate|]. cbn [PyStr.startswith] in Hs.
  destruct (Ascii.eqb a b) eqn:E; [|discriminate].
  apply Ascii.eqb_eq in E. subst b.
  change (String a p ++ PyStr.drop (String.length (String a p)) (String a s))
    with (String a (p ++ PyStr.drop (String.length p) s)).
  f_equal. now apply IH.
Qed.

Lemma span_digits_spec (s : string) :
  forall d r, PyStr.span_digits s = (d, r) -> s = d ++ r /\ PyStr.is_digits d = true.
Proof.
  induction s as [|c s IH]; intros d r; cbn [PyStr.span_digits].
  - intros [= <- <-]. split; reflexivity.
  - destruct (PyStr.is_digit c) eqn:Hc.
    + destruct (PyStr.span_digits s) as [d0 r0]. intros [= <- <-].
      destruct (IH d0 r0 eq_refl) as [-> Hd]. split; [reflexivity|].
      cbn [PyStr.is_digits]. now rewrite Hc, Hd.
    + intros [= <- <-]. split; reflexivity.
Qed.

(** What the pattern recognises at the front of a message is a message of
    that shape, and the number is the value of its digits. *)
Lemma match_limit_here_sound (s : string) (n : Z) :
  RL.match_limit_here s = Some n ->
  exists digits plural after,
    s = RL.limit_message "" digits plural after /\
    digits <> "" /\ PyStr.is_digits digits = true /\ n = PyStr.int_of_digits 0 digits.
Proof.
  unfold RL.match_limit_here.
  destruct (PyStr.startswith "Only " s) eqn:H1; [|discriminate].
  apply startswith_split in H1. change (String.length "Only ") with 5%nat in H1.
  destruct (PyStr.span_digits (PyStr.drop 5 s)) as [digits rest] eqn:Hspan.
  apply span_digits_spec in Hspan as [Hdrop Hd].
  destruct digits as [|c digits]; [discriminate|].
  destruct (PyStr.startswith " API call" rest) eqn:H2; [|discriminate].
  apply startswith_split in H2. change (String.length " API call") with 9%nat in H2.
  set (rest1 := PyStr.drop 9 rest) in *.
  destruct (PyStr.startswith "s" rest1) eqn:H3.
  - apply startswith_split in H3. change (String.length "s") with 1%nat in H3.
    set (rest2 := PyStr.drop 1 rest1) in *.
    destruct (PyStr.startswith " per minute" rest2) eqn:H4; [|discriminate].
    apply startswith_split in H4. change (String.length " per minute") with 11%nat in H4.
    intros [= <-].
    exists (String c digits), true, (PyStr.drop 11 rest2).
    split; [|split; [discriminate|split; [exact Hd|reflexivity]]].
    change (RL.limit_message "" (String c digits) true (PyStr.drop 11 rest2))
      with ("Only " ++ String c digits ++ " API call" ++ "s" ++ " per minute"
            ++ PyStr.drop 11 rest2).
    rewrite <- H4, <- H3, <- H2, <- Hdrop. exact H1.
  - destruct (PyStr.startswith " per minute" rest1) eqn:H4; [|discriminate].
    apply startswith_split in H4. change (String.length " per minute") with 11%nat in H4.
    intros [= <-].
    exists (String c digits), false, (PyStr.drop 11 rest1).
    split; [|split; [discriminate|split; [exact Hd|reflexivity]]].
    change (RL.limit_message "" (String c digits) false (PyStr.drop 11 rest1))
      with ("Only " ++ String c digits ++ " API call" ++ " per minute"
            ++ PyStr.drop 11 rest1).
    rewrite <- H4, <- H2, <- Hdrop. exact H1.
Qed.

Lemma limit_message_cons (c : ascii) (before digits : string) (plural : bool) (after : string) :
  RL.limit_message (String c before) digits plural after
  = String c (RL.limit_message before digits plural after).
Proof. reflexivity. Qed.

(** A message for which the search finds a number has that shape. *)
Lemma search_limit_sound (s : string) :
  forall n, RL.search_limit s = Some n ->
  exists before digits plural after,
    s = RL.limit_message before digits plural after /\
    digits <> "" /\ PyStr.is_digits digits = true.
Proof.
  induction s as [|c s IH]; intros n; rewrite search_limit_unfold.
  - destruct (RL.match_limit_here "") as [m|] eqn:Hm; [|discriminate].
    intros _. apply match_limit_here_sound in Hm as (d & pl & af & Hs & Hne & Hd & _).
    exists "", d, pl, af. auto.
  - destruct (RL.match_limit_here (String c s)) as [m|] eqn:Hm.
    + intros _. apply match_limit_here_sound in Hm as (d & pl & af & Hs & Hne & Hd & _).
      exists "", d, pl, af. auto.
    + intros Hn. apply IH in Hn as (before & d & pl & af & -> & Hne & Hd).
      exists (String c before), d, pl, af. rewrite limit_message_cons. auto.
Qed.

(** The search returns the number of the first place where the pattern
    occurs. *)
Lemma search_limit_first (before digits : string) (plural : bool) (after : string) :
  digits <> "" -> PyStr.is_digits digits = true ->
  (forall before' digits' plural' after',
      digits' <> "" -> PyStr.is_digits digits' = true ->
      RL.limit_message before' digits' plural' after'
      = RL.limit_message before digits plural after ->
      (String.length before <= String.length before')%nat) ->
  RL.search_limit (RL.limit_message before digits plural after)
  = Some (PyStr.int_of_digits 0 digits).
Proof.
  intros Hne Hd. induction before as [|c before IH]; intros Hfirst.
  - rewrite search_limit_unfold.
    change (RL.limit_message "" digits plural after)
      with ("Only " ++ digits ++ " API call" ++ (if plural then "s" else "")
            ++ " per minute" ++ after).
    now rewrite match_limit_here_complete.
  - rewrite search_limit_unfold.
    destruct (RL.match_limit_here (RL.limit_message (String c before) digits plural after))
      as [m|] eqn:Hm.
    + apply match_limit_here_sound in Hm as (d & pl & af & Hs & Hne' & Hd' & _).
      specialize (Hfirst "" d pl af Hne' Hd' (eq_sym Hs)). cbn in Hfirst. lia.
    + rewrite limit_message_cons. apply IH.
      intros before' d pl af Hne' Hd' Heq.
      specialize (Hfirst (String c before') d pl af Hne' Hd').
      rewrite !limit_message_cons in Hfirst. rewrite Heq in Hfirst.
      specialize (Hfirst eq_refl). cbn [String.length] in Hfirst. lia.
Qed.

(** The keys of the category classes are their own category. *)
Lemma category_idem (x : string) : RL.category (RL.category x) = RL.category x.
Proof.
  unfold RL.category at 2 3.
  destruct (PyStr.contains "product" x); [reflexivity|].
  destruct (PyStr.contains "warehouse" x); [reflexivity|].
  destruct (PyStr.contains "inventory" x || PyStr.contains "location" x); reflexivity.
Qed.

(** C9, amended: a message in which [Only N API calls? per minute] occurs,
    [N] being the digits of the first place where it does, makes
    [update_rate_limit_from_error] set the limit stored under the exact
    lowercased endpoint name to [N] and change nothing else: every other
    key of the limits table keeps its value, and the call times, retry
    counts and backoff windows are untouched.  Unless the lowercased name
    is itself the key of a category class, the limit of the endpoint's
    category and the limit in force for every other endpoint are as they
    were.  A message in which the pattern does not occur leaves the
    limiter unchanged.  The text searched is ASCII, [\d] being read as
    [0-9]. *)
Theorem C9_update_is_per_endpoint :
  forall (self : RateLimiter) (endpoint_name : string),
    (forall (before digits : string) (plural : bool) (after : string),
        PyStr.all_in PyStr.is_ascii before = true ->
        digits <> "" ->
        PyStr.is_digits digits = true ->
        (forall before' digits' plural' after',
            digits' <> "" -> PyStr.is_digits digits' = true ->
            RL.limit_message before' digits' plural' after'
            = RL.limit_message before digits plural after ->
            (String.length before <= String.length before')%nat) ->
        let self' := RL.update_rate_limit_from_error self endpoint_name
                       (RL.limit_message before digits plural after) in
        let name := PyStr.lower endpoint_name in
        rate_limits self' !! name = Some (PyStr.int_of_digits 0 digits) /\
        (forall k, k <> name -> rate_limits self' !! k = rate_limits self !! k) /\
        (RL.category name <> name ->
         rate_limits self' !! RL.category name = rate_limits self !! RL.category name /\
         forall other,
           PyStr.lower other <> name ->
           RL.get_rate_limit_key self' other = RL.get_rate_limit_key self other /\
           RL.calls_per_minute self' (RL.get_rate_limit_key self' other)
           = RL.calls_per_minute self (RL.get_rate_limit_key self other)) /\
        last_call_times self' = last_call_times self /\
        retry_counts self' = retry_counts self /\
        backoff_until self' = backoff_until self) /\
    (forall error_message : string,
        PyStr.all_in PyStr.is_ascii error_message = true ->
        (forall before digits plural after,
            digits <> "" -> PyStr.is_digits digits = true ->
            error_message <> RL.limit_message before digits plural after) ->
        RL.update_rate_limit_from_error self endpoint_name error_message = self).
Proof.
  intros self ep. split.
  - intros before digits plural after _ Hne Hd Hfirst self' name. subst self'.
    rewrite (update_matching self ep _ _ (search_limit_first _ _ _ _ Hne Hd Hfirst)).
    cbn [rate_limits last_call_times retry_counts backoff_until]. fold name.
    split; [apply lookup_insert_eq|].
    split; [intros k Hk; apply lookup_insert_ne; congruence|].
    split; [|repeat split].
    intros Hcat. split; [apply lookup_insert_ne; congruence|].
    intros other Hother.
    assert (Hkey : RL.get_rate_limit_key
                     {| last_call_times := last_call_times self;
                        retry_counts := retry_counts self;
                        backoff_until := backoff_until self;
                        rate_limits := <[name := PyStr.int_of_digits 0 digits]>
                                         (rate_limits self) |} other
                   = RL.get_rate_limit_key self other).
    { unfold RL.get_rate_limit_key. cbn [rate_limits].
      rewrite lookup_insert_ne by congruence. reflexivity. }
    split; [exact Hkey|]. rewrite Hkey.
    unfold RL.calls_per_minute. cbn [rate_limits].
    rewrite lookup_insert_ne; [reflexivity|].
    unfold RL.get_rate_limit_key.
    destruct (rate_limits self !! PyStr.lower other); [congruence|].
    intros Heq. apply Hcat. rewrite Heq. apply category_idem.
  - intros msg _ Hno. unfold RL.update_rate_limit_from_error.
    destruct (RL.search_limit msg) as [n|] eqn:Hn; [|reflexivity].
    apply search_limit_sound in Hn as (before & d & pl & af & Hs & Hne & Hd).
    exfalso. exact (Hno before d pl af Hne Hd Hs).
Qed.

(** The statement at the initial limiter: the message of the API for
    "getItemQuantities", which falls in the "default" category. *)
Lemma C9_update_is_per_endpoint_witness :
  let self' := RL.update_rate_limit_from_error RL.init "getItemQuantities"
                 "429: Only 2 API calls per minute guaranteed" in
  rate_limits self' !! "getitemquantities" = Some 2 /\
  rate_limits self' !! "default" = Some 5 /\
  RL.calls_per_minute self' (RL.get_rate_limit_key self' "getWarehouses") = 1.
Proof.
  destruct (C9_update_is_per_endpoint RL.init "getItemQuantities") as [Hyes _].
  destruct (Hyes "429: " "2" true " guaranteed") as (Hname & _ & Hcat & _).
  - reflexivity.
  - discriminate.
  - reflexivity.
  - intros before' digits' plural' after' _ _ Heq.
    destruct before' as [|c1 [|c2 [|c3 [|c4 [|c5 before']]]]];
      try (cbn [String.length]; lia); exfalso; revert Heq;
      unfold RL.limit_message; destruct plural'; discriminate.
  - destruct Hcat as [Hdefault Hother]; [vm_compute; discriminate|].
    split; [exact Hname|]. split.
    + etransitivity; [exact Hdefault|]. vm_compute. reflexivity.
    + destruct (Hother "getWarehouses") as [_ Hlim]; [vm_compute; discriminate|].
      etransitivity; [exact Hlim|]. vm_compute. reflexivity.
Defined.

(** The claim as stated fails for an endpoint whose lowercased name is
    the key of a category class.  For the endpoint "products" the entry
    rewritten is the limit of the class "products": the class limit goes
    from 5 to 1, and with it the limit in force for every endpoint that
    falls back on the class, such as "getProductDetails". *)
Lemma C9_class_named_endpoint_rewrites_class :
  let self' := RL.update_rate_limit_from_error RL.init "products"
                 "Only 1 API calls per minute guaranteed" in
  RL.category (PyStr.lower "products") = "products" /\
  rate_limits RL.init !! "products" = Some 5 /\
  rate_limits self' !! "products" = Some 1 /\
  RL.get_rate_limit_key RL.init "getProductDetails" = "products" /\
  RL.get_rate_limit_key self' "getProductDetails" = "products" /\
  RL.calls_per_minute RL.init (RL.get_rate_limit_key RL.init "getProductDetails") = 5 /\
  RL.calls_per_minute self' (RL.get_rate_limit_key self' "getProductDetails") = 1.
Proof. vm_compute. repeat split; reflexivity. Qed.

(** ** C10: an endpoint that got a limit of its own is a class of its own *)

Lemma category_in (x : string) : In (RL.category x) RL.categories.
Proof.
  unfold RL.category, RL.categories.
  destruct (PyStr.contains "product" x); [simpl; tauto|].
  destruct (PyStr.contains "warehouse" x); [simpl; tauto|].
  destruct (PyStr.contains "inventory" x || PyStr.contains "location" x); simpl; tauto.
Qed.

Lemma key_has_limit self endpoint :
  RL.consistent self -> is_Some (rate_limits self !! RL.get_rate_limit_key self endpoint).
Proof.
  intros (Hcat & _). unfold RL.get_rate_limit_key.
  destruct (rate_limits self !! PyStr.lower endpoint) as [n|] eqn:E.
  - rewrite E. eauto.
  - apply Hcat, category_in.
Qed.

Lemma init_consistent : RL.consistent RL.init.
Proof.
  unfold RL.consistent. split; [|repeat split].
  - intros c Hc. simpl in Hc.
    destruct Hc as [<-|[<-|[<-|[<-|[]]]]]; vm_compute; eauto.
  - intros k [x Hx]. simpl in Hx. rewrite lookup_empty in Hx. discriminate.
  - intros k [x Hx]. simpl in Hx. rewrite lookup_empty in Hx. discriminate.
  - intros k [x Hx]. simpl in Hx. rewrite lookup_empty in Hx. discriminate.
Qed.

Lemma is_Some_insert_elim {A} (m : gmap string A) (k k' : string) (x : A) :
  is_Some (<[k := x]> m !! k') -> k' = k \/ is_Some (m !! k').
Proof.
  destruct (decide (k = k')) as [->|Hne]; [auto|].
  rewrite lookup_insert_ne by assumption. auto.
Qed.

Lemma is_Some_delete_elim {A} (m : gmap string A) (k k' : string) :
  is_Some (delete k m !! k') -> is_Some (m !! k').
Proof.
  destruct (decide (k = k')) as [->|Hne].
  - rewrite lookup_delete_eq. intros [x Hx]. discriminate.
  - rewrite lookup_delete_ne by assumption. auto.
Qed.

Lemma handle_consistent self endpoint retry_after clk :
  RL.consistent self ->
  RL.consistent (fst (RL.handle_rate_limit_error self endpoint retry_after clk)).
Proof.
  intros Hc. pose proof (key_has_limit self endpoint Hc) as Hk.
  destruct Hc as (Hcat & Hl & Hr & Hb).
  unfold RL.handle_rate_limit_error, RL.consistent; simpl.
  repeat split; auto.
  - intros k [->|H]%is_Some_insert_elim; auto.
  - intros k [->|H]%is_Some_insert_elim; auto.
Qed.

Lemma reset_consistent self endpoint :
  RL.consistent self -> RL.consistent (RL.reset_retry_count self endpoint).
Proof.
  intros (Hcat & Hl & Hr & Hb). unfold RL.reset_retry_count, RL.consistent; simpl.
  repeat split; auto.
  intros k H%is_Some_delete_elim. auto.
Qed.

Lemma update_consistent self endpoint msg :
  RL.consistent self -> RL.consistent (RL.update_rate_limit_from_error self endpoint msg).
Proof.
  intros (Hcat & Hl & Hr & Hb). unfold RL.update_rate_limit_from_error.
  destruct (RL.search_limit msg) as [n|]; [|repeat split; auto].
  assert (Hgrow : forall k, is_Some (rate_limits self !! k) ->
                            is_Some (<[PyStr.lower endpoint := n]> (rate_limits self) !! k)).
  { intros k Hk. destruct (decide (PyStr.lower endpoint = k)) as [->|Hne].
    - rewrite lookup_insert_eq. eauto.
    - rewrite lookup_insert_ne by assumption. exact Hk. }
  unfold RL.consistent; simpl. repeat split; auto.
Qed.

Lemma wait_consistent self endpoint clk :
  RL.consistent self -> RL.consistent (fst (snd (RL.wait_if_needed self endpoint clk))).
Proof.
  intros Hc. pose proof (key_has_limit self endpoint Hc) as Hk.
  destruct Hc as (Hcat & Hl & Hr & Hb).
  unfold RL.wait_if_needed.
  set (k := RL.get_rate_limit_key self endpoint) in *.
  assert (Hdel : forall k', is_Some (delete k (backoff_until self) !! k') ->
                            is_Some (rate_limits self !! k')).
  { intros k' H%is_Some_delete_elim. auto. }
  assert (Hins : forall t k', is_Some (<[k := t]> (last_call_times self) !! k') ->
                              is_Some (rate_limits self !! k')).
  { intros t k' [->|H]%is_Some_insert_elim; auto. }
  destruct (backoff_until self !! k) as [u|]; [destruct (Qltb _ _)|]; simpl;
    (destruct (last_call_times self !! k) as [l|];
     [destruct (_ =? 0); [|destruct (Qltb _ _)] | ]);
    unfold RL.consistent; simpl; repeat split; eauto.
Qed.

Lemma apply_op_consistent (o : RL.Op) (st : RateLimiter * Clock) :
  RL.consistent (fst st) -> RL.consistent (fst (RL.apply_op o st)).
Proof.
  destruct st as [self clk]. cbn [fst]. intros Hc.
  destruct o; cbn [RL.apply_op fst].
  - now apply wait_consistent.
  - now apply handle_consistent.
  - now apply reset_consistent.
  - now apply update_consistent.
  - exact Hc.
Qed.

Lemma run_ops_consistent (ops : list RL.Op) :
  forall st, RL.consistent (fst st) -> RL.consistent (fst (RL.run_ops ops st)).
Proof.
  induction ops as [|o ops IH]; intros st Hc; [exact Hc|].
  simpl. apply IH, apply_op_consistent, Hc.
Qed.

Lemma reachable_consistent self : RL.reachable self -> RL.consistent self.
Proof.
  intros (ops & clk0 & clk & Hrun).
  pose proof (run_ops_consistent ops (RL.init, clk0) init_consistent) as H.
  now rewrite Hrun in H.
Qed.

Lemma init_reachable : RL.reachable RL.init.
Proof. exists [], (mkClock 0 []), (mkClock 0 []). reflexivity. Qed.

(** State kept under keys other than the one a call works on is not touched. *)
Lemma wait_other_keys self endpoint clk k' :
  k' <> RL.get_rate_limit_key self endpoint ->
  let self' := fst (snd (RL.wait_if_needed self endpoint clk)) in
  last_call_times self' !! k' = last_call_times self !! k' /\
  retry_counts self' !! k' = retry_counts self !! k' /\
  backoff_until self' !! k' = backoff_until self !! k'.
Proof.
  intros Hne. unfold RL.wait_if_needed.
  set (k := RL.get_rate_limit_key self endpoint) in *.
  destruct (backoff_until self !! k) as [u|]; [destruct (Qltb _ _)|]; simpl;
    (destruct (last_call_times self !! k) as [l|];
     [destruct (_ =? 0); [|destruct (Qltb _ _)] | ]);
    simpl; repeat split;
    rewrite ?lookup_insert_ne, ?lookup_delete_ne by congruence; reflexivity.
Qed.

Lemma handle_other_keys self endpoint retry_after clk k' :
  k' <> RL.get_rate_limit_key self endpoint ->
  let self' := fst (RL.handle_rate_limit_error self endpoint retry_after clk) in
  last_call_times self' !! k' = last_call_times self !! k' /\
  retry_counts self' !! k' = retry_counts self !! k' /\
  backoff_until self' !! k' = backoff_until self !! k'.
Proof.
  intros Hne. unfold RL.handle_rate_limit_error; simpl.
  repeat split; rewrite ?lookup_insert_ne by congruence; reflexivity.
Qed.

(** C10: once [update_rate_limit_from_error] has recorded a limit for an
    endpoint [E] that had no entry of its own in the limits table,
    [get_rate_limit_key(E)] is [E]'s lowercase name and no longer the
    category it was before; that name is a fresh class (it has no call
    time, retry count or backoff window yet, so the first gated call of
    [E] does not sleep), and the calls made for [E] from then on leave
    the call time, retry count and backoff window of the former class as
    they were. *)
Theorem C10_endpoint_becomes_own_class :
  forall (self : RateLimiter) (E error_message : string) (n : Z),
    RL.reachable self ->
    RL.search_limit error_message = Some n ->
    rate_limits self !! PyStr.lower E = None ->
    let self' := RL.update_rate_limit_from_error self E error_message in
    let name := PyStr.lower E in
    let former := RL.get_rate_limit_key self E in
    RL.get_rate_limit_key self' E = name /\
    former = RL.category name /\
    former <> name /\
    (last_call_times self' !! name = None /\
     retry_counts self' !! name = None /\
     backoff_until self' !! name = None) /\
    (forall clk,
        let out := RL.wait_if_needed self' E clk in
        sleeps (snd (snd out)) = sleeps clk /\
        last_call_times (fst (snd out)) !! name = Some (now clk) /\
        last_call_times (fst (snd out)) !! former = last_call_times self !! former /\
        retry_counts (fst (snd out)) !! former = retry_counts self !! former /\
        backoff_until (fst (snd out)) !! former = backoff_until self !! former) /\
    (forall retry_after clk,
        let out := RL.handle_rate_limit_error self' E retry_after clk in
        retry_counts (fst out) !! name = Some 1 /\
        last_call_times (fst out) !! former = last_call_times self !! former /\
        retry_counts (fst out) !! former = retry_counts self !! former /\
        backoff_until (fst out) !! former = backoff_until self !! former).
Proof.
  intros self E msg n Hreach Hn Hnone self' name former.
  change (rate_limits self !! name = None) in Hnone.
  pose proof (reachable_consistent self Hreach) as (Hcat & Hl & Hr & Hb).
  assert (Hself' : self' = {| last_call_times := last_call_times self;
                              retry_counts := retry_counts self;
                              backoff_until := backoff_until self;
                              rate_limits := <[name := n]> (rate_limits self) |}).
  { apply update_matching. exact Hn. }
  assert (Hkey' : RL.get_rate_limit_key self' E = name).
  { unfold RL.get_rate_limit_key. fold name. rewrite Hself'. simpl.
    now rewrite lookup_insert_eq. }
  assert (Hformer : former = RL.category name).
  { unfold former, RL.get_rate_limit_key. fold name. now rewrite Hnone. }
  assert (Hne : former <> name).
  { intros Heq. pose proof (Hcat former) as Hin.
    rewrite Hformer in Hin at 1. specialize (Hin (category_in name)).
    rewrite Heq in Hin. rewrite Hnone in Hin.
    destruct Hin; discriminate. }
  assert (Hfresh : last_call_times self !! name = None /\
                   retry_counts self !! name = None /\
                   backoff_until self !! name = None).
  { repeat split.
    - destruct (last_call_times self !! name) eqn:Ex; [|reflexivity].
      destruct (Hl name ltac:(eauto)) as [x Hx]. congruence.
    - destruct (retry_counts self !! name) eqn:Ex; [|reflexivity].
      destruct (Hr name ltac:(eauto)) as [x Hx]. congruence.
    - destruct (backoff_until self !! name) eqn:Ex; [|reflexivity].
      destruct (Hb name ltac:(eauto)) as [x Hx]. congruence. }
  destruct Hfresh as (Hfl & Hfr & Hfb).
  clearbody name former. clearbody self'.
  assert (Hs1 : last_call_times self' = last_call_times self) by now rewrite Hself'.
  assert (Hs2 : retry_counts self' = retry_counts self) by now rewrite Hself'.
  assert (Hs3 : backoff_until self' = backoff_until self) by now rewrite Hself'.
  split; [exact Hkey'|]. split; [exact Hformer|]. split; [exact Hne|].
  split; [rewrite Hs1, Hs2, Hs3; auto|]. split.
  - intros clk out.
    pose proof (wait_other_keys self' E clk former) as Hother.
    rewrite Hkey' in Hother. specialize (Hother Hne). cbv zeta in Hother.
    fold out in Hother. rewrite Hs1, Hs2, Hs3 in Hother.
    destruct Hother as (Ho1 & Ho2 & Ho3).
    assert (Hout : out = (Return tt,
                          ({| last_call_times := <[name := now clk]> (last_call_times self');
                              retry_counts := retry_counts self';
                              backoff_until := backoff_until self';
                              rate_limits := rate_limits self' |}, clk))).
    { unfold out, RL.wait_if_needed. cbv zeta. rewrite Hkey'.
      rewrite Hs3, Hfb, Hs1, Hfl. cbv iota beta. rewrite ?Hs3, ?Hs1. reflexivity. }
    rewrite Ho1, Ho2, Ho3. rewrite Hout. cbn [fst snd last_call_times].
    repeat split. apply lookup_insert_eq.
  - intros retry_after clk out.
    pose proof (handle_other_keys self' E retry_after clk former) as Hother.
    rewrite Hkey' in Hother. specialize (Hother Hne). cbv zeta in Hother.
    fold out in Hother. rewrite Hs1, Hs2, Hs3 in Hother.
    destruct Hother as (Ho1 & Ho2 & Ho3).
    rewrite Ho1, Ho2, Ho3. repeat split.
    unfold out, RL.handle_rate_limit_error. cbv zeta. rewrite Hkey'.
    cbn [fst retry_counts]. rewrite lookup_insert_eq, Hs2, Hfr. reflexivity.
Qed.

(** The statement at the initial limiter, for "getItemQuantities". *)
Lemma C10_endpoint_becomes_own_class_witness :
  RL.get_rate_limit_key RL.init "getItemQuantities" = "default" /\
  RL.get_rate_limit_key
    (RL.update_rate_limit_from_error RL.init "getItemQuantities"
       "429: Only 2 API calls per minute guaranteed") "getItemQuantities"
  = "getitemquantities".
Proof.
  split; [vm_compute; reflexivity|].
  refine (proj1 (C10_endpoint_becomes_own_class RL.init "getItemQuantities"
                   "429: Only 2 API calls per minute guaranteed" 2 init_reachable _ _)).
  - vm_compute. reflexivity.
  - vm_compute. reflexivity.
Defined.

(** ** C5: invalidation by key pattern *)

(** The keys collected are those of the cache that contain the pattern. *)
Lemma elem_of_to_remove (self : SimpleCache) (pattern key : string) :
  key ∈ Cache.to_remove self pattern <->
  PyStr.contains (PyStr.lower pattern) (PyStr.lower key) = true /\
  is_Some (cache self !! key).
Proof.
  unfold Cache.to_remove. rewrite list_elem_of_filter, list_elem_of_fmap.
  split.
  - intros (Hhit & [k' v] & -> & Hin). split; [exact Hhit|].
    apply elem_of_map_to_list in Hin. simpl. eauto.
  - intros (Hhit & v & Hv). split; [exact Hhit|].
    exists (key, v). split; [reflexivity|]. now apply elem_of_map_to_list.
Qed.

Lemma to_remove_NoDup (self : SimpleCache) (pattern : string) :
  NoDup (Cache.to_remove self pattern).
Proof. apply NoDup_filter, NoDup_fst_map_to_list. Qed.

(** Deleting distinct keys that are present removes that many entries. *)
Lemma size_foldr_delete {A} (m : gmap string A) (keys : list string) :
  NoDup keys -> (forall k, k ∈ keys -> is_Some (m !! k)) ->
  size m = (size (foldr delete m keys) + length keys)%nat.
Proof.
  induction 1 as [|k keys Hk Hnd IH]; intros Hin; simpl; [lia|].
  rewrite map_size_delete_Some.
  - rewrite IH by (intros; apply Hin; now right).
    assert (0 < size (foldr delete m keys))%nat; [|lia].
    destruct (Hin k ltac:(now left)) as [x Hx].
    assert (Hl : foldr delete m keys !! k = Some x)
      by (now rewrite lookup_foldr_delete_not_elem_of).
    destruct (size (foldr delete m keys)) eqn:Hs; [|lia].
    apply map_size_empty_inv in Hs. rewrite Hs, lookup_empty in Hl. discriminate.
  - rewrite lookup_foldr_delete_not_elem_of by assumption. apply Hin. now left.
Qed.

Lemma contains_empty (s : string) : PyStr.contains "" s = true.
Proof. destruct s; reflexivity. Qed.

Lemma invalidate_lookup (self : SimpleCache) (pattern key : string) :
  cache (fst (Cache.invalidate self (Some pattern))) !! key
  = if PyStr.contains (PyStr.lower pattern) (PyStr.lower key) then None
    else cache self !! key.
Proof.
  unfold Cache.invalidate.
  destruct (Cache.pattern_truthy (Some pattern)) eqn:Ht; cbn [fst Cache.with_entries cache].
  - destruct (PyStr.contains _ _) eqn:Hhit.
    + destruct (cache self !! key) as [x|] eqn:Hx.
      * apply lookup_foldr_delete, elem_of_to_remove. eauto.
      * rewrite lookup_foldr_delete_not_elem_of; [exact Hx|].
        intros (_ & y & Hy)%elem_of_to_remove. congruence.
    + apply lookup_foldr_delete_not_elem_of.
      intros (Hhit' & _)%elem_of_to_remove. congruence.
  - destruct pattern; [|discriminate].
    change (PyStr.lower "") with "". rewrite contains_empty. apply lookup_empty.
Qed.

Lemma invalidate_count (self : SimpleCache) (pattern : option string) :
  Z.of_nat (size (cache self))
  = Z.of_nat (size (cache (fst (Cache.invalidate self pattern))))
    + snd (Cache.invalidate self pattern).
Proof.
  unfold Cache.invalidate.
  destruct pattern as [pat|]; [destruct (Cache.pattern_truthy (Some pat))|];
    cbn [fst snd Cache.with_entries cache]; rewrite ?map_size_empty; try lia.
  rewrite (size_foldr_delete (cache self) (Cache.to_remove self pat)).
  - lia.
  - apply to_remove_NoDup.
  - intros k Hk. now apply elem_of_to_remove in Hk.
Qed.

Lemma invalidate_again (self : SimpleCache) (pattern : option string) :
  snd (Cache.invalidate (fst (Cache.invalidate self pattern)) pattern) = 0.
Proof.
  destruct pattern as [pat|].
  - unfold Cache.invalidate at 1.
    destruct (Cache.pattern_truthy (Some pat)) eqn:Ht; cbn [snd].
    + assert (Hnil : Cache.to_remove (fst (Cache.invalidate self (Some pat))) pat = []).
      { apply elem_of_nil_inv. intros k (Hhit & x & Hx)%elem_of_to_remove.
        rewrite invalidate_lookup, Hhit in Hx. discriminate. }
      rewrite Hnil. reflexivity.
    + unfold Cache.invalidate. rewrite Ht. cbn [fst Cache.with_entries cache].
      now rewrite map_size_empty.
  - unfold Cache.invalidate. cbn [fst snd Cache.with_entries cache].
    now rewrite map_size_empty.
Qed.

(** C5: [invalidate(pattern)] removes exactly the entries whose cache key
    contains the pattern case-insensitively, and returns how many it
    removed; called again at once with the same pattern it returns 0;
    [invalidate()] removes every entry and returns how many there were. *)
Theorem C5_invalidate_by_key_pattern :
  forall (self : SimpleCache) (pattern : string),
    let out := Cache.invalidate self (Some pattern) in
    let all := Cache.invalidate self None in
    (forall key : string,
        cache (fst out) !! key
        = if PyStr.contains (PyStr.lower pattern) (PyStr.lower key) then None
          else cache self !! key) /\
    Z.of_nat (size (cache self)) = Z.of_nat (size (cache (fst out))) + snd out /\
    snd (Cache.invalidate (fst out) (Some pattern)) = 0 /\
    cache (fst all) = ∅ /\
    snd all = Z.of_nat (size (cache self)).
Proof.
  intros self pattern out all. repeat split.
  - intros key. apply invalidate_lookup.
  - apply invalidate_count.
  - apply invalidate_again.
Qed.

(** On a cache with three keys, two of which contain "inventory". *)
Example invalidate_inventory_keys :
  let self := Cache.with_entries Cache.global_cache
                (<["getInventoryByLocation:{}" := (VInt 1, 30%Q)]>
                 (<["getproducts:{}" := (VInt 2, 300%Q)]>
                  (<["inventory" := (VInt 3, 30%Q)]> ∅))) in
  let out := Cache.invalidate self (Some "inventory") in
  snd out = 2 /\
  cache (fst out) = <["getproducts:{}" := (VInt 2, 300%Q)]> ∅ /\
  snd (Cache.invalidate (fst out) (Some "inventory")) = 0.
Proof. vm_compute. repeat split; reflexivity. Qed.

(** The keys that [_get_cache_key] makes are hexadecimal digests, and no
    such key contains "inventory": on a cache filled through [set] the
    call [invalidate("inventory")] removes nothing and returns 0. *)
Lemma startswith_head (a : ascii) (p s : string) :
  PyStr.startswith (String a p) s = true -> exists s', s = String a s'.
Proof.
  destruct s as [|b s]; simpl; [discriminate|].
  destruct (Ascii.eqb a b) eqn:E; [|discriminate].
  apply Ascii.eqb_eq in E. subst. eauto.
Qed.

Lemma hex_never_contains (a : ascii) (p s : string) :
  PyStr.is_hex_digit (PyStr.lower_ascii a) = false ->
  PyStr.lower_ascii a = a ->
  PyStr.is_hex s = true ->
  PyStr.contains (String a p) (PyStr.lower s) = false.
Proof.
  intros Ha Hfix. induction s as [|c s IH]; intros Hs; [reflexivity|].
  simpl in Hs. apply andb_true_iff in Hs as [Hc Hs].
  change (PyStr.lower (String c s)) with (String (PyStr.lower_ascii c) (PyStr.lower s)).
  change (PyStr.contains (String a p) (String (PyStr.lower_ascii c) (PyStr.lower s)))
    with (PyStr.startswith (String a p) (String (PyStr.lower_ascii c) (PyStr.lower s))
          || PyStr.contains (String a p) (PyStr.lower s)).
  rewrite (IH Hs), orb_false_r.
  destruct (PyStr.startswith _ _) eqn:E; [|reflexivity].
  apply startswith_head in E as [s' Hs']. injection Hs' as Hc' _.
  assert (Hlow : PyStr.is_hex_digit (PyStr.lower_ascii c) = true).
  { clear -Hc. revert Hc. unfold PyStr.is_hex_digit, PyStr.lower_ascii.
    destruct c as [[] [] [] [] [] [] [] []]; vm_compute; congruence. }
  rewrite Hc', <- Hfix in Hlow. rewrite Hfix in Hlow. congruence.
Qed.

Lemma invalidate_inventory_on_digests (self : SimpleCache) :
  (forall key, is_Some (cache self !! key) -> PyStr.is_hex key = true) ->
  Cache.invalidate self (Some "inventory") = (self, 0).
Proof.
  intros Hhex. unfold Cache.invalidate. cbn [Cache.pattern_truthy].
  assert (Hnil : Cache.to_remove self "inventory" = []).
  { apply elem_of_nil_inv. intros k (Hhit & Hk)%elem_of_to_remove.
    change (PyStr.lower "inventory") with "inventory" in Hhit.
    rewrite (hex_never_contains "i" "nventory" k) in Hhit;
      [discriminate | reflexivity | reflexivity | auto]. }
  rewrite Hnil. destruct self; reflexivity.
Qed.

(** ** C6: no error value is ever cached *)

Lemma set_error_noop `{PyLib} self endpoint p value ttl clk :
  is_error_dict value = true -> Cache.set self endpoint p value ttl clk = self.
Proof. intros Hv. unfold Cache.set. now rewrite Hv. Qed.

Lemma init_error_free (dt : Z) : Cache.error_free (Cache.init dt).
Proof. intros key value t Hk. simpl in Hk. rewrite lookup_empty in Hk. discriminate. Qed.

Lemma set_error_free `{PyLib} self endpoint p value ttl clk :
  Cache.error_free self -> Cache.error_free (Cache.set self endpoint p value ttl clk).
Proof.
  intros Hfree. unfold Cache.set.
  destruct (is_error_dict value) eqn:Hv; [exact Hfree|].
  intros key v t. cbn [Cache.with_entries cache].
  destruct (decide (Cache._get_cache_key endpoint p = key)) as [->|Hne].
  - rewrite lookup_insert_eq. intros [= <- _]. exact Hv.
  - rewrite lookup_insert_ne by assumption. apply Hfree.
Qed.

Lemma get_error_free `{PyLib} self endpoint p clk :
  Cache.error_free self -> Cache.error_free (snd (Cache.get self endpoint p clk)).
Proof.
  intros Hfree. unfold Cache.get.
  destruct (cache self !! _) as [[v t]|]; [destruct (Qltb _ _)|]; cbn [snd]; try exact Hfree.
  intros key v' t'. cbn [Cache.with_entries cache].
  intros Hk. apply lookup_delete_Some in Hk as [_ Hk]. eapply Hfree, Hk.
Qed.

Lemma invalidate_error_free self pattern :
  Cache.error_free self -> Cache.error_free (fst (Cache.invalidate self pattern)).
Proof.
  intros Hfree key v t. unfold Cache.invalidate.
  destruct pattern as [pat|]; [destruct (Cache.pattern_truthy (Some pat))|];
    cbn [fst Cache.with_entries cache]; rewrite ?lookup_empty; try discriminate.
  intros Hk. apply lookup_foldr_delete_Some in Hk as [_ Hk]. eapply Hfree, Hk.
Qed.

Lemma cache_run_ops_error_free `{PyLib} (ops : list Cache.Op) :
  forall st, Cache.error_free (fst st) -> Cache.error_free (fst (Cache.run_ops ops st)).
Proof.
  induction ops as [|o ops IH]; intros [self clk] Hfree; [exact Hfree|].
  cbn [Cache.run_ops fold_left]. apply IH.
  destruct o; cbn [Cache.apply_op fst] in *.
  - now apply get_error_free.
  - now apply set_error_free.
  - now apply invalidate_error_free.
  - exact Hfree.
Qed.

(** A hit is never an error value. *)
Lemma get_not_error `{PyLib} self endpoint p clk :
  Cache.error_free self -> is_error_dict (fst (Cache.get self endpoint p clk)) = false.
Proof.
  intros Hfree. unfold Cache.get.
  destruct (cache self !! _) as [[v t]|] eqn:Hk; [destruct (Qltb _ _)|];
    cbn [fst]; try reflexivity.
  eapply Hfree, Hk.
Qed.

(** C6 (counterexample): after a value was stored for ("getproducts", {}),
    a [set] of an error value for the same pair is a no-op, and the [get]
    that follows returns the stored value: it does not miss. *)
Lemma C6_get_after_error_set_hits :
  ~ (forall (L : PyLib) (self : SimpleCache) (endpoint : string) (p : params)
            (value : pyvalue) (clk clk' : Clock),
        is_error_dict value = true ->
        fst (Cache.get (Cache.set self endpoint p value None clk) endpoint p clk') = VNone).
Proof.
  intros H.
  specialize (H Sample.pylib
                (Cache.set (H := Sample.pylib) Cache.global_cache "getproducts" []
                   (VDict [("Products", VList [])]) None (mkClock 0 []))
                "getproducts" [] (VDict [("error", VStr "HTTP 500 error")])
                (mkClock 1 []) (mkClock 2 []) eq_refl).
  vm_compute in H. discriminate.
Qed.

(** C6 (amended): whatever sequence of cache operations has run, no entry
    present in the cache is an error value; a [set] whose value is a
    mapping containing an "error" key is a no-op, so the [get] that follows
    for the same (endpoint, parameters) answers exactly as it would have
    without that [set]: it misses when no entry was stored under that key
    before, and returns the earlier stored value when there is one that
    has not expired. *)
Theorem C6_errors_never_cached :
  (forall (L : PyLib) (ops : list Cache.Op) (dt : Z) (clk0 : Clock),
      Cache.error_free (fst (Cache.run_ops ops (Cache.init dt, clk0)))) /\
  (forall (L : PyLib) self endpoint p value ttl clk,
      is_error_dict value = true ->
      Cache.set self endpoint p value ttl clk = self) /\
  (forall (L : PyLib) self endpoint p value ttl clk clk',
      is_error_dict value = true ->
      Cache.get (Cache.set self endpoint p value ttl clk) endpoint p clk'
      = Cache.get self endpoint p clk') /\
  (forall (L : PyLib) self endpoint p value ttl clk clk',
      is_error_dict value = true ->
      cache self !! Cache._get_cache_key endpoint p = None ->
      fst (Cache.get (Cache.set self endpoint p value ttl clk) endpoint p clk') = VNone) /\
  (forall (L : PyLib) self endpoint p value ttl clk clk' stored expiry_time,
      is_error_dict value = true ->
      cache self !! Cache._get_cache_key endpoint p = Some (stored, expiry_time) ->
      (now clk' < expiry_time)%Q ->
      fst (Cache.get (Cache.set self endpoint p value ttl clk) endpoint p clk') = stored).
Proof.
  split; [|split; [|split; [|split]]].
  - intros L ops dt clk0. apply cache_run_ops_error_free, init_error_free.
  - intros L self ep p v ttl clk Hv. now apply set_error_noop.
  - intros L self ep p v ttl clk clk' Hv. now rewrite set_error_noop.
  - intros L self ep p v ttl clk clk' Hv Hnone. rewrite set_error_noop by assumption.
    unfold Cache.get. now rewrite Hnone.
  - intros L self ep p v ttl clk clk' stored t Hv Hsome Hlt.
    rewrite set_error_noop by assumption.
    unfold Cache.get. rewrite Hsome. apply Qltb_lt in Hlt. unfold time_time.
    now rewrite Hlt.
Qed.

(** The statement on the fresh global cache: after the [set] of an error
    value the [get] misses and nothing is stored. *)
Lemma C6_errors_never_cached_witness :
  let err := VDict [("error", VStr "HTTP 500 error")] in
  let self := Cache.set (H := Sample.pylib) Cache.global_cache "getproducts" [] err None
                (mkClock 0 []) in
  self = Cache.global_cache /\
  fst (Cache.get (H := Sample.pylib) self "getproducts" [] (mkClock 1 [])) = VNone.
Proof.
  destruct C6_errors_never_cached as (_ & Hnoop & _ & Hmiss & _).
  split.
  - apply (Hnoop Sample.pylib). reflexivity.
  - apply (Hmiss Sample.pylib); reflexivity.
Defined.

(** ** C1: what a cache hit does to the rate limiter *)

(** The decorated [call_endpoint] on a cache hit: the rate-limit gate runs
    first, then the cache is read; the cached value is returned, nothing is
    posted, and the limiter is left as [wait_if_needed] followed by
    [reset_retry_count] leave it. *)
Lemma call_endpoint_on_hit `{PyLib} `{Remote} (st : Client) (endpoint_name : string)
    (kwargs : params) (value : pyvalue) (expiry_time : Q) (rl1 : RateLimiter) (clk1 : Clock) :
  cache (store st) !! Cache._get_cache_key endpoint_name kwargs = Some (value, expiry_time) ->
  value <> VNone ->
  is_error_dict value = false ->
  RL.wait_if_needed (limiter st) endpoint_name (clock st) = (Return tt, (rl1, clk1)) ->
  (now clk1 < expiry_time)%Q ->
  Api.call_endpoint endpoint_name kwargs st
  = Some (Return value,
          {| limiter := RL.reset_retry_count rl1 endpoint_name;
             store := store st; clock := clk1; posts := posts st |}).
Proof.
  intros Hk Hnone Herr Hwait Hfresh.
  unfold Api.call_endpoint. cbn [Api.rate_limit_loop].
  change (0 <? Api.max_retries) with true. cbv iota.
  rewrite Hwait. cbv iota beta.
  unfold Api.with_cache, Cache.get.
  cbn [Api.set_clock Api.set_limiter store clock limiter posts].
  rewrite Hk. apply Qltb_lt in Hfresh. unfold time_time. rewrite Hfresh.
  destruct value as [| b | n | s | l | kvs]; try contradiction; try reflexivity.
  simpl in Herr. destruct (dict_get "error" kvs); [discriminate|]. reflexivity.
Qed.

(** C1 (as the code has it): [call_endpoint("getwarehouses")] with a valid
    cache entry, called at t = 10 on a fresh limiter and again at t = 20.
    Both calls return the cached response without a POST; but the first
    records t = 10 as the last call time of the class, and the second
    sleeps 50 seconds in [wait_if_needed] before it reads the cache. *)
Theorem C1_cache_hit_passes_rate_limit_gate :
  let cached := VDict [("Warehouses", VList [])] in
  let st0 := {| limiter := RL.init;
                store := Cache.set (H := Sample.pylib) Cache.global_cache "getwarehouses" []
                           cached None (mkClock 0 []);
                clock := mkClock 10 [];
                posts := [] |} in
  exists st1 st2,
    Api.call_endpoint (H := Sample.pylib) (H0 := Sample.remote) "getwarehouses" [] st0
    = Some (Return cached, st1) /\
    Api.call_endpoint (H := Sample.pylib) (H0 := Sample.remote) "getwarehouses" []
      (Api.set_clock st1 (elapse 10 (clock st1)))
    = Some (Return cached, st2) /\
    posts st2 = [] /\
    last_call_times (limiter st0) !! "getwarehouses" = None /\
    last_call_times (limiter st1) !! "getwarehouses" = Some 10%Q /\
    limiter st1 <> limiter st0 /\
    Forall2 Qeq (sleeps (clock st2)) [50%Q] /\
    (now (clock st2) == 70)%Q.
Proof.
  intros cached st0.
  eexists _, _. split; [vm_compute; reflexivity|]. split; [vm_compute; reflexivity|].
  split; [reflexivity|]. split; [reflexivity|]. split; [vm_compute; reflexivity|].
  split.
  - intros Heq. apply (f_equal (fun rl => last_call_times rl !! "getwarehouses")) in Heq.
    vm_compute in Heq. discriminate.
  - split; [|vm_compute; reflexivity].
    vm_compute. repeat constructor.
Qed.

(** The retry count of the class is cleared by a hit as well. *)
Lemma hit_resets_retry_count `{PyLib} `{Remote} (st st' : Client) (endpoint_name : string)
    (kwargs : params) (value : pyvalue) (expiry_time : Q) (rl1 : RateLimiter) (clk1 : Clock) :
  cache (store st) !! Cache._get_cache_key endpoint_name kwargs = Some (value, expiry_time) ->
  value <> VNone ->
  is_error_dict value = false ->
  RL.wait_if_needed (limiter st) endpoint_name (clock st) = (Return tt, (rl1, clk1)) ->
  (now clk1 < expiry_time)%Q ->
  Api.call_endpoint endpoint_name kwargs st = Some (Return value, st') ->
  retry_counts (limiter st') !! RL.get_rate_limit_key (limiter st) endpoint_name = None /\
  posts st' = posts st.
Proof.
  intros Hk Hnone Herr Hwait Hfresh Hcall.
  rewrite (call_endpoint_on_hit st endpoint_name kwargs value expiry_time rl1 clk1)
    in Hcall by assumption.
  injection Hcall as <-. cbn [limiter posts]. split; [|reflexivity].
  unfold RL.reset_retry_count. cbn [retry_counts].
  assert (Hkey : RL.get_rate_limit_key rl1 endpoint_name
                 = RL.get_rate_limit_key (limiter st) endpoint_name).
  { apply key_depends_on_limits.
    pose proof (wait_keeps_limits (limiter st) endpoint_name (clock st)) as Hw.
    now rewrite Hwait in Hw. }
  rewrite Hkey. apply lookup_delete_eq.
Qed.

(** ** C8: waiting for a result *)

Lemma get_result_loop_unfold history request_id start_time timeout fuel k clk :
  Queue.get_result_loop history request_id start_time timeout fuel k clk =
  if Qltb (now clk - start_time)%Q timeout then
    match history k !! request_id with
    | Some rd => Some (Queue.outcome rd, clk)
    | None =>
        match fuel with
        | O => None
        | S fuel' =>
            Queue.get_result_loop history request_id start_time timeout fuel' (S k)
              (sleep (1 # 10) clk)
        end
    end
  else Some (Queue.timed_out request_id, clk).
Proof.
  destruct fuel; simpl; unfold time_time;
    destruct (Qltb _ _); try reflexivity;
    destruct (history k !! request_id) as [[]|]; reflexivity.
Qed.

Lemma sleep_tenth (clk : Clock) : now (sleep (1 # 10) clk) = (now clk + (1 # 10))%Q.
Proof. apply sleep_now_pos. reflexivity. Qed.

Lemma inject_nat_succ (n : nat) :
  (inject_Z (Z.of_nat (S n)) == inject_Z (Z.of_nat n) + 1)%Q.
Proof. rewrite Nat2Z.inj_succ. unfold Z.succ. rewrite inject_Z_plus. reflexivity. Qed.

(** Division by ten as a multiplication, for [lra]. *)
Ltac tenths := unfold Qdiv in *; change (/ 10)%Q with (1 # 10)%Q in *.

(** The loop ends once the checks still allowed cover the time left. *)
Lemma get_result_loop_ends history request_id start_time timeout :
  forall fuel k clk,
    (timeout <= (now clk - start_time) + inject_Z (Z.of_nat fuel) / 10)%Q ->
    exists r clk', Queue.get_result_loop history request_id start_time timeout fuel k clk
                   = Some (r, clk').
Proof.
  induction fuel as [|fuel IH]; intros k clk Hleft;
    rewrite get_result_loop_unfold;
    destruct (Qltb (now clk - start_time) timeout) eqn:Hlt; eauto;
    destruct (history k !! request_id); eauto.
  - apply Qltb_lt in Hlt. change (inject_Z (Z.of_nat 0)) with 0%Q in Hleft.
    exfalso. (tenths; lra).
  - apply IH. rewrite sleep_tenth.
    pose proof (inject_nat_succ fuel) as Hs. (tenths; lra).
Qed.

Lemma checks_within_enough (timeout : Q) :
  (timeout <= inject_Z (Z.of_nat (Queue.checks_within timeout)) / 10)%Q.
Proof.
  unfold Queue.checks_within.
  pose proof (Qle_ceiling (timeout * 10)) as Hc.
  destruct (Z_le_gt_dec 0 (Qceiling (timeout * 10))) as [Hpos|Hneg].
  - rewrite Z2Nat.id by assumption. (tenths; lra).
  - assert (Hz : Z.to_nat (Qceiling (timeout * 10)) = 0%nat) by lia.
    rewrite Hz. change (inject_Z (Z.of_nat 0)) with 0%Q.
    assert (inject_Z (Qceiling (timeout * 10)) <= 0)%Q.
    { change 0%Q with (inject_Z 0). rewrite <- Zle_Qle. lia. }
    (tenths; lra).
Qed.

(** What the loop returns was found in [self.results]. *)
Lemma get_result_loop_sound history request_id start_time timeout :
  forall fuel k clk r clk',
    Queue.get_result_loop history request_id start_time timeout fuel k clk = Some (r, clk') ->
    r = Queue.timed_out request_id \/
    exists k' rd, history k' !! request_id = Some rd /\ r = Queue.outcome rd.
Proof.
  induction fuel as [|fuel IH]; intros k clk r clk';
    rewrite get_result_loop_unfold;
    destruct (Qltb (now clk - start_time) timeout);
    try (intros [= <- <-]; now left);
    destruct (history k !! request_id) as [rd|] eqn:Hk;
    try (intros [= <- <-]; right; eauto); try discriminate.
  apply IH.
Qed.

(** The first check that finds a result decides, if it is made in time. *)
Lemma get_result_loop_first history request_id start_time timeout :
  forall n j fuel clk rd,
    (now clk - start_time == inject_Z (Z.of_nat j) / 10)%Q ->
    (forall i, (j <= i < j + n)%nat -> history i !! request_id = None) ->
    history (j + n)%nat !! request_id = Some rd ->
    (inject_Z (Z.of_nat (j + n)) / 10 < timeout)%Q ->
    (n <= fuel)%nat ->
    exists clk',
      Queue.get_result_loop history request_id start_time timeout fuel j clk
      = Some (Queue.outcome rd, clk') /\
      (now clk' - start_time == inject_Z (Z.of_nat (j + n)) / 10)%Q.
Proof.
  induction n as [|n IH]; intros j fuel clk rd Hnow Hnone Hsome Hin Hfuel;
    rewrite get_result_loop_unfold.
  - rewrite Nat.add_0_r in *.
    assert (Hlt : Qltb (now clk - start_time) timeout = true) by (apply Qltb_lt; tenths; lra).
    rewrite Hlt, Hsome. eauto.
  - assert (Hle : (inject_Z (Z.of_nat j) <= inject_Z (Z.of_nat (j + S n)))%Q)
      by (rewrite <- Zle_Qle; lia).
    assert (Hlt : Qltb (now clk - start_time) timeout = true) by (apply Qltb_lt; tenths; lra).
    rewrite Hlt, (Hnone j) by lia.
    destruct fuel as [|fuel]; [lia|].
    replace (j + S n)%nat with (S j + n)%nat in * by lia.
    apply IH; try assumption; try lia.
    + rewrite sleep_tenth. pose proof (inject_nat_succ j). (tenths; lra).
    + intros i Hi. apply Hnone. lia.
Qed.

(** C8 (counterexample): with a timeout of 0 and a success result already
    recorded, [get_result] raises the timeout error; it does not return
    the stored payload. *)
Lemma C8_zero_timeout_misses_recorded_result :
  ~ (forall (history : nat -> gmap string ResultData) (request_id : string) (timeout : Q)
            (clk : Clock) (payload : pyvalue) (completed_at : Q),
        history 0%nat !! request_id = Some (StatusSuccess payload completed_at) ->
        exists fuel clk',
          Queue.get_result history request_id timeout fuel clk = Some (Return payload, clk')).
Proof.
  intros H.
  destruct (H (fun _ => {["r1" := StatusSuccess (VInt 7) 0%Q]}) "r1" 0%Q (mkClock 0 [])
              (VInt 7) 0%Q) as (fuel & clk' & Hres).
  - apply lookup_singleton_eq.
  - unfold Queue.get_result in Hres. rewrite get_result_loop_unfold in Hres.
    vm_compute in Hres. discriminate.
Qed.

(** C8 (amended): for every request id and timeout, [get_result] ends
    (after at most [checks_within timeout] sleeps of 0.1 s); when the
    timeout is positive and a result is already recorded, or is first
    found by a check made before the timeout has passed, it returns the
    stored payload of a success and fails with the stored error of an
    error; when no check finds a result it fails with the timeout error;
    a timeout that is not positive gives the timeout error whatever is
    recorded; and a payload it returns is always one that was stored. *)
Theorem C8_get_result_outcomes :
  forall (history : nat -> gmap string ResultData) (request_id : string) (timeout : Q)
         (clk : Clock),
    (forall fuel, (Queue.checks_within timeout <= fuel)%nat ->
        exists r clk', Queue.get_result history request_id timeout fuel clk = Some (r, clk')) /\
    (forall rd fuel,
        (0 < timeout)%Q ->
        history 0%nat !! request_id = Some rd ->
        Queue.get_result history request_id timeout fuel clk
        = Some (Queue.outcome rd, clk)) /\
    (forall n rd fuel,
        (forall i, (i < n)%nat -> history i !! request_id = None) ->
        history n !! request_id = Some rd ->
        (inject_Z (Z.of_nat n) / 10 < timeout)%Q ->
        (n <= fuel)%nat ->
        exists clk', Queue.get_result history request_id timeout fuel clk
                     = Some (Queue.outcome rd, clk')) /\
    (forall fuel r clk',
        (forall i, history i !! request_id = None) ->
        Queue.get_result history request_id timeout fuel clk = Some (r, clk') ->
        r = Queue.timed_out request_id) /\
    (forall fuel,
        (timeout <= 0)%Q ->
        Queue.get_result history request_id timeout fuel clk
        = Some (Queue.timed_out request_id, clk)) /\
    (forall fuel payload clk',
        Queue.get_result history request_id timeout fuel clk = Some (Return payload, clk') ->
        exists k completed_at,
          history k !! request_id = Some (StatusSuccess payload completed_at)).
Proof.
  intros history rid timeout clk. unfold Queue.get_result, time_time.
  split; [|split; [|split; [|split; [|split]]]].
  - intros fuel Hfuel. apply get_result_loop_ends.
    pose proof (checks_within_enough timeout) as Hc.
    assert (inject_Z (Z.of_nat (Queue.checks_within timeout)) <= inject_Z (Z.of_nat fuel))%Q
      by (rewrite <- Zle_Qle; lia).
    (tenths; lra).
  - intros rd fuel Hpos H0. rewrite get_result_loop_unfold.
    assert (Hlt : Qltb (now clk - now clk) timeout = true) by (apply Qltb_lt; tenths; lra).
    now rewrite Hlt, H0.
  - intros n rd fuel Hnone Hsome Hin Hfuel.
    destruct (get_result_loop_first history rid (now clk) timeout n 0%nat fuel clk rd)
      as (clk' & Hres & _); eauto.
    + change (inject_Z (Z.of_nat 0)) with 0%Q. (tenths; lra).
    + intros i Hi. apply Hnone. lia.
  - intros fuel r clk' Hnone Hres.
    apply get_result_loop_sound in Hres as [Ht|(k' & rd & Hk & _)]; [exact Ht|].
    rewrite Hnone in Hk. discriminate.
  - intros fuel Hle. rewrite get_result_loop_unfold.
    assert (Hlt : Qltb (now clk - now clk) timeout = false) by (apply Qltb_ge; tenths; lra).
    now rewrite Hlt.
  - intros fuel payload clk' Hres.
    apply get_result_loop_sound in Hres as [Ht|(k' & rd & Hk & Hr)]; [discriminate|].
    destruct rd as [res t|e t]; simpl in Hr; [|discriminate].
    injection Hr as ->. eauto.
Qed.

(** The statement for a request whose success is recorded between the
    second and the third check, awaited for 30 seconds. *)
Lemma C8_get_result_outcomes_witness :
  let history := fun k : nat =>
    if (k <? 2)%nat then (∅ : gmap string ResultData)
    else {["r1" := StatusSuccess (VInt 7) (1 # 4)]} in
  exists clk',
    Queue.get_result history "r1" 30 (Queue.checks_within 30) (mkClock 0 [])
    = Some (Return (VInt 7), clk').
Proof.
  intros history.
  destruct (C8_get_result_outcomes history "r1" 30 (mkClock 0 []))
    as (_ & _ & Hfirst & _).
  apply (Hfirst 2%nat (StatusSuccess (VInt 7) (1 # 4)) (Queue.checks_within 30)).
  - intros i Hi. unfold history.
    destruct i as [|[|i]]; [reflexivity | reflexivity | lia].
  - reflexivity.
  - reflexivity.
  - vm_compute. lia.
Defined.

(** A result recorded within the timeout but after the last check made in
    time is not seen: with a timeout of 0.25 s the checks are made at 0,
    0.1 and 0.2 s, and a result recorded between 0.2 and 0.25 s is met by
    the timeout error. *)
Example late_result_times_out :
  let history := fun k : nat =>
    if (k <? 3)%nat then (∅ : gmap string ResultData)
    else {["r1" := StatusSuccess (VInt 7) (22 # 100)]} in
  fst <$> Queue.get_result history "r1" (1 # 4) 10 (mkClock 0 [])
  = Some (Queue.timed_out "r1").
Proof. vm_compute. reflexivity. Qed.

(** ** The heap of the request queue *)

Lemma swap_Permutation (heap : list Queue.item) (i j : nat) : Queue.swap heap i j ≡ₚ heap.
Proof.
  unfold Queue.swap.
  destruct (heap !! i) as [x|] eqn:Hi; [|reflexivity].
  destruct (heap !! j) as [y|] eqn:Hj; [|reflexivity].
  now apply Permutation_insert_swap.
Qed.

Lemma siftdown_Permutation (turns : nat) :
  forall heap startpos pos, snd (Queue.siftdown turns heap startpos pos) ≡ₚ heap.
Proof.
  induction turns as [|turns IH]; intros heap startpos pos; [reflexivity|].
  cbn [Queue.siftdown].
  destruct (startpos <? pos)%nat; [|reflexivity].
  destruct (heap !! pos) as [newitem|]; [|reflexivity].
  destruct (heap !! ((pos - 1) / 2)%nat) as [parent|]; [|reflexivity].
  destruct (Queue.item_lt newitem parent) as [[|]|]; try reflexivity.
  rewrite IH. apply swap_Permutation.
Qed.

Lemma siftup_loop_Permutation (turns : nat) :
  forall heap pos, snd (Queue.siftup_loop turns heap pos) ≡ₚ heap.
Proof.
  induction turns as [|turns IH]; intros heap pos; [reflexivity|].
  cbn [Queue.siftup_loop].
  destruct (pos <? length heap / 2)%nat; [|reflexivity].
  match goal with
  | |- context [match ?c with Some _ => _ | None => _ end] => destruct c as [childpos|]
  end; [|reflexivity].
  rewrite IH. apply swap_Permutation.
Qed.

Lemma siftup_Permutation (heap : list Queue.item) (pos : nat) :
  snd (Queue.siftup heap pos) ≡ₚ heap.
Proof.
  unfold Queue.siftup.
  pose proof (siftup_loop_Permutation (length heap) heap pos) as Hloop.
  destruct (Queue.siftup_loop (length heap) heap pos) as [[leaf|e] heap']; cbn [snd] in *.
  - rewrite siftdown_Permutation. exact Hloop.
  - exact Hloop.
Qed.

(** [heappush] keeps every item, the new one included, also when a
    comparison raises. *)
Lemma heappush_Permutation (heap : list Queue.item) (x : Queue.item) :
  snd (Queue.heappush heap x) ≡ₚ heap ++ [x].
Proof. unfold Queue.heappush. apply siftdown_Permutation. Qed.

(** [heappop] takes one item out of the list, the one it returns when
    it returns. *)
Lemma heappop_Permutation (heap heap' : list Queue.item) (r : result Queue.item) :
  Queue.heappop heap = Some (r, heap') ->
  exists x, heap ≡ₚ x :: heap' /\ (forall y, r = Return y -> y = x).
Proof.
  unfold Queue.heappop. destruct (last heap) as [lastelt|] eqn:Hlast; [|discriminate].
  apply last_Some in Hlast as [front ->].
  rewrite length_app. cbn [length].
  replace (length front + 1 - 1)%nat with (length front) by lia.
  rewrite take_app_length.
  destruct front as [|returnitem rest].
  - intros [= <- <-]. exists lastelt. split; [reflexivity|]. now intros y [= <-].
  - pose proof (siftup_Permutation (lastelt :: rest) 0) as Hup.
    destruct (Queue.siftup (lastelt :: rest) 0) as [[[]|e] heap2]; cbn [snd] in Hup;
      intros [= <- <-]; exists returnitem.
    + split; [|now intros y [= <-]].
      rewrite Hup. cbn [app]. rewrite <- Permutation_cons_append. reflexivity.
    + split; [|intros y Hy; discriminate].
      rewrite Hup. cbn [app]. rewrite <- Permutation_cons_append. reflexivity.
Qed.

(** The turns given to the two loops are enough: more turns change
    nothing. *)
Lemma siftdown_turns (turns : nat) :
  forall heap startpos pos,
    (pos <= turns)%nat ->
    Queue.siftdown (S turns) heap startpos pos = Queue.siftdown turns heap startpos pos.
Proof.
  induction turns as [|turns IH]; intros heap startpos pos Hle.
  - assert (pos = 0%nat) by lia. subst pos. cbn [Queue.siftdown].
    destruct (startpos <? 0)%nat eqn:E; [apply Nat.ltb_lt in E; lia|reflexivity].
  - change (Queue.siftdown (S (S turns)) heap startpos pos)
      with (if (startpos <? pos)%nat then
              match heap !! pos, heap !! ((pos - 1) / 2)%nat with
              | Some newitem, Some parent =>
                  match Queue.item_lt newitem parent with
                  | None => (Raise Queue.unorderable, heap)
                  | Some false => (Return tt, heap)
                  | Some true =>
                      Queue.siftdown (S turns) (Queue.swap heap pos ((pos - 1) / 2))
                        startpos ((pos - 1) / 2)
                  end
              | _, _ => (Return tt, heap)
              end
            else (Return tt, heap)).
    cbn [Queue.siftdown].
    destruct (startpos <? pos)%nat eqn:E; [|reflexivity].
    destruct (heap !! pos) as [newitem|]; [|reflexivity].
    destruct (heap !! ((pos - 1) / 2)%nat) as [parent|]; [|reflexivity].
    destruct (Queue.item_lt newitem parent) as [[|]|]; try reflexivity.
    apply IH. apply Nat.ltb_lt in E.
    assert ((pos - 1) / 2 <= pos - 1)%nat by (apply Nat.Div0.div_le_upper_bound; lia).
    lia.
Qed.

Lemma siftdown_enough (extra : nat) (heap : list Queue.item) (startpos pos : nat) :
  Queue.siftdown (pos + extra) heap startpos pos = Queue.siftdown pos heap startpos pos.
Proof.
  induction extra as [|extra IH]; [now rewrite Nat.add_0_r|].
  rewrite Nat.add_succ_r, siftdown_turns by lia. exact IH.
Qed.

(** ** The queue of the module as it stands *)

(** As [api_client.py] stands it binds no [get_client], so the import at
    the top of [_process_queue] raises: every worker ends before its loop,
    nothing is ever dispatched and no result is ever stored. *)
Lemma import_fails_in_source :
  Queue.import_from Queue.api_client_names "get_client"
  = Raise (ImportError "cannot import name 'get_client'").
Proof. reflexivity. Qed.

Lemma outside_loop_pc (w w' : Worker) :
  pc w' = pc w -> Queue.outside_loop w -> Queue.outside_loop w'.
Proof. unfold Queue.outside_loop. intros ->. tauto. Qed.

Lemma source_step_idle (ev : Event) (s : RequestQueue) :
  Queue.idle s ->
  Queue.idle (Queue.step Queue.api_client_names ev s) /\
  max_concurrent (Queue.step Queue.api_client_names ev s) = max_concurrent s /\
  length (queue (Queue.step Queue.api_client_names ev s))
  = (length (queue s) + Queue.adds [ev])%nat.
Proof.
  intros (Ht & Ha & Hr & Hw). unfold Queue.idle.
  assert (Hstart : forall s0,
             tasks s0 = [] -> active_requests s0 = 0 -> results s0 = ∅ ->
             Forall Queue.outside_loop (workers s0) ->
             (tasks (Queue.start_processing s0) = [] /\
              active_requests (Queue.start_processing s0) = 0 /\
              results (Queue.start_processing s0) = ∅ /\
              Forall Queue.outside_loop (workers (Queue.start_processing s0))) /\
             max_concurrent (Queue.start_processing s0) = max_concurrent s0 /\
             queue (Queue.start_processing s0) = queue s0).
  { intros s0 Ht0 Ha0 Hr0 Hw0. unfold Queue.start_processing.
    destruct (processing s0); cbn; repeat split; auto.
    constructor; [now left|exact Hw0]. }
  destruct ev as [uuid ep p prio callback at_time| | |i|i|j res at_time|j msg at_time|j];
    cbn [Queue.step].
  - unfold Queue.add_request.
    pose proof (heappush_Permutation (queue s)
                  (- prio, at_time,
                   {| id := uuid; endpoint := ep; req_params := p;
                      has_callback := callback; priority := prio;
                      created_at := at_time |})) as Hperm.
    cbn [created_at].
    destruct (Queue.heappush _ _) as [[[]|e] heap]; cbn [snd] in *.
    + destruct (Hstart (Queue.set_queue heap s) Ht Ha Hr Hw) as (Hidle & Hmax & Hq).
      split; [exact Hidle|]. split; [exact Hmax|].
      rewrite Hq. cbn [Queue.set_queue queue]. rewrite Hperm, length_app. reflexivity.
    + cbn [Queue.set_queue tasks active_requests results workers max_concurrent queue].
      repeat split; auto. rewrite Hperm, length_app. reflexivity.
  - destruct (Hstart s Ht Ha Hr Hw) as (Hidle & Hmax & Hq).
    split; [exact Hidle|]. split; [exact Hmax|]. rewrite Hq. cbn. lia.
  - cbn [Queue.stop_processing tasks active_requests results workers max_concurrent queue].
    split; [|split; [reflexivity|cbn; lia]].
    split; [exact Ht|]. split; [exact Ha|]. split; [exact Hr|].
    destruct (workers s) as [|w ws]; [constructor|].
    apply Forall_cons in Hw as [Hw1 Hw2]. constructor; [|exact Hw2].
    unfold Queue.cancel. destruct (Queue.is_live (pc w)); [|exact Hw1].
    eapply outside_loop_pc; [|exact Hw1]. reflexivity.
  - assert (Hset : forall w',
               Queue.outside_loop w' ->
               (tasks (Queue.set_worker i w' s) = [] /\
                active_requests (Queue.set_worker i w' s) = 0 /\
                results (Queue.set_worker i w' s) = ∅ /\
                Forall Queue.outside_loop (workers (Queue.set_worker i w' s))) /\
               max_concurrent (Queue.set_worker i w' s) = max_concurrent s /\
               length (queue (Queue.set_worker i w' s))
               = (length (queue s) + Queue.adds [Work i])%nat).
    { intros w' Hw'. split; [|split; [reflexivity|cbn; lia]].
      cbn. repeat split; auto. now apply Forall_insert. }
    unfold Queue.worker_step.
    destruct (workers s !! i) as [w|] eqn:Hi; [|cbn; repeat split; auto; try lia].
    pose proof (proj1 (Forall_lookup _ _) Hw i w Hi) as Hout.
    destruct (pc w) eqn:Hpc.
    + destruct (must_cancel w).
      * apply Hset. right. now left.
      * rewrite import_fails_in_source. apply Hset. right. now right.
    + destruct Hout as [H|[H|H]]; congruence.
    + destruct Hout as [H|[H|H]]; congruence.
    + destruct Hout as [H|[H|H]]; congruence.
    + destruct Hout as [H|[H|H]]; congruence.
    + cbn. repeat split; auto; try lia.
    + cbn. repeat split; auto; try lia.
    + cbn. repeat split; auto; try lia.
  - unfold Queue.get_step.
    destruct (workers s !! i) as [w|] eqn:Hi; [|cbn; repeat split; auto; try lia].
    pose proof (proj1 (Forall_lookup _ _) Hw i w Hi) as Hout.
    destruct (pc w) eqn:Hpc; try (destruct Hout as [H|[H|H]]; congruence);
      cbn; repeat split; auto; lia.
  - unfold Queue.call_returns. rewrite Ht. cbn. repeat split; auto; try lia.
  - unfold Queue.call_raises. rewrite Ht. cbn. repeat split; auto; try lia.
  - unfold Queue.callback_ends. rewrite Ht. cbn. repeat split; auto; try lia.
Qed.

Lemma adds_cons (ev : Event) (evs : list Event) :
  Queue.adds (ev :: evs) = (Queue.adds [ev] + Queue.adds evs)%nat.
Proof. unfold Queue.adds. cbn [List.filter]. destruct ev; reflexivity. Qed.

Lemma source_run_idle (evs : list Event) :
  forall s, Queue.idle s ->
    Queue.idle (Queue.run Queue.api_client_names evs s) /\
    max_concurrent (Queue.run Queue.api_client_names evs s) = max_concurrent s /\
    length (queue (Queue.run Queue.api_client_names evs s))
    = (length (queue s) + Queue.adds evs)%nat.
Proof.
  induction evs as [|ev evs IH]; intros s Hs.
  - cbn. repeat split; try apply Hs. lia.
  - cbn [Queue.run fold_left].
    destruct (source_step_idle ev s Hs) as (Hidle & Hmax & Hlen).
    destruct (IH _ Hidle) as (Hidle' & Hmax' & Hlen').
    split; [exact Hidle'|]. split; [unfold Queue.run in *; congruence|].
    unfold Queue.run in *. rewrite Hlen', Hlen, (adds_cons ev evs). lia.
Qed.

Lemma init_idle (mc : Z) : Queue.idle (Queue.init mc).
Proof. unfold Queue.idle. cbn. repeat split. constructor. Qed.

Lemma source_worker_never_dispatches (mc : Z) (s : RequestQueue) :
  Queue.reachable Queue.api_client_names mc s ->
  tasks s = [] /\ active_requests s = 0 /\ results s = ∅.
Proof.
  intros (evs & ->).
  destruct (source_run_idle evs (Queue.init mc) (init_idle mc)) as ((Ht & Ha & Hr & _) & _).
  auto.
Qed.

(** ** C7: the bound on concurrent executions *)


(** One hundred requests enqueued with [max_concurrent = 2]: the worker
    runs once and is gone, and the hundred requests are still queued
    however often the event loop turns to it. *)
Lemma load_of_100_stays_queued :
  let s := Queue.run Queue.api_client_names
             (Queue.load 100 ++ [Work 0; Work 0; Work 0; Get 0; Work 0])%list (Queue.init 2) in
  length (queue s) = 100%nat /\
  active_requests s = 0 /\
  processing s = true /\
  workers s = [mkWorker (Crashed (ImportError "cannot import name 'get_client'")) false].
Proof. vm_compute. repeat split; reflexivity. Qed.

(** ** With the import resolving *)

(** Whatever [api_client] binds, the counter is the number of
    [_process_request] tasks that are running. *)
Lemma active_is_running_tasks (names : list string) (evs : list Event) :
  forall s,
    active_requests s = Z.of_nat (length (tasks s)) ->
    active_requests (Queue.run names evs s)
    = Z.of_nat (length (tasks (Queue.run names evs s))).
Proof.
  induction evs as [|ev evs IH]; intros s Hs; [exact Hs|].
  cbn [Queue.run fold_left]. apply IH. clear IH.
  assert (Hrel : forall j x s0,
             tasks s0 !! j = Some x ->
             active_requests s0 = Z.of_nat (length (tasks s0)) ->
             active_requests (Queue.release j s0)
             = Z.of_nat (length (tasks (Queue.release j s0)))).
  { intros j x s0 Hj H0. apply lookup_lt_Some in Hj.
    cbn [Queue.release active_requests tasks].
    rewrite length_app, length_take, length_drop. lia. }
  assert (Hdel : forall i got s0,
             active_requests s0 = Z.of_nat (length (tasks s0)) ->
             active_requests (Queue.deliver i got s0)
             = Z.of_nat (length (tasks (Queue.deliver i got s0)))).
  { intros i got s0 H0. destruct got as [[[np t] request]|e]; cbn; [|exact H0].
    rewrite length_app. cbn [length]. lia. }
  destruct ev as [uuid ep p prio callback at_time| | |i|i|j res at_time|j msg at_time|j];
    cbn [Queue.step].
  - unfold Queue.add_request. destruct (Queue.heappush _ _) as [[[]|e] heap]; cbn [snd].
    + unfold Queue.start_processing. cbn. destruct (processing s); exact Hs.
    + exact Hs.
  - unfold Queue.start_processing. destruct (processing s); exact Hs.
  - exact Hs.
  - unfold Queue.worker_step.
    destruct (workers s !! i) as [w|]; [|exact Hs].
    destruct (pc w); try exact Hs.
    + destruct (must_cancel w); [exact Hs|].
      destruct (Queue.import_from names "get_client"); exact Hs.
    + destruct (processing s); [destruct (_ >=? _)|]; exact Hs.
    + destruct (must_cancel w); exact Hs.
    + destruct (must_cancel w); [exact Hs|].
      destruct (Queue.heappop (queue s)) as [[got heap]|]; [|exact Hs].
      apply Hdel. exact Hs.
    + apply Hdel. exact Hs.
  - unfold Queue.get_step.
    destruct (workers s !! i) as [w|]; [|exact Hs].
    destruct (pc w); try exact Hs.
    destruct (Queue.heappop (queue s)) as [[got heap]|]; exact Hs.
  - unfold Queue.call_returns.
    destruct (tasks s !! j) as [[request [|]]|] eqn:Hj; try exact Hs.
    destruct (has_callback request).
    + cbn. rewrite length_insert. exact Hs.
    + eapply Hrel; [exact Hj|exact Hs].
  - unfold Queue.call_raises.
    destruct (tasks s !! j) as [[request [|]]|] eqn:Hj; try exact Hs.
    eapply Hrel; [exact Hj|exact Hs].
  - unfold Queue.callback_ends.
    destruct (tasks s !! j) as [[request [|]]|] eqn:Hj; try exact Hs.
    eapply Hrel; [exact Hj|exact Hs].
Qed.

(** Were [get_client] bound in [api_client], the bound would rest on
    there being one worker, and [stop_processing] does not see to that.
    A worker whose [queue.get()] has ended keeps running when it is
    cancelled (Python 3.10 and 3.11), and an [add_request] that follows
    the [stop_processing] starts a second one; each of the two finds a
    free slot before it waits for an item, and three requests are
    executing with [max_concurrent = 2]. *)
Lemma two_workers_pass_the_bound :
  let names := "get_client" :: Queue.api_client_names in
  let s := Queue.run names
             [ Start; Work 0; Work 0;
               Add "a" "getproduct" [] 5 false 0; Get 0;
               Stop;
               Add "b" "getproduct" [] 5 false 1;
               Add "c" "getproduct" [] 5 false 2;
               Add "d" "getproduct" [] 5 false 3;
               Work 1; Work 1; Work 0; Work 0; Work 0; Work 1 ]
             (Queue.init 2) in
  active_requests s = 3 /\ max_concurrent s = 2 /\ length (tasks s) = 3%nat /\
  List.map (fun w => Queue.is_live (pc w)) (workers s) = [true; true].
Proof. vm_compute. repeat split; reflexivity. Qed.
(** ** More on [utils/rate_limiter.py]: the gate and the backoff window *)

(** What one gated call does with a backoff window of its class. *)
Lemma wait_if_needed_backoff self endpoint clk until self' clk' :
  let k := RL.get_rate_limit_key self endpoint in
  backoff_until self !! k = Some until ->
  RL.wait_if_needed self endpoint clk = (Return tt, (self', clk')) ->
  (until <= now clk')%Q /\ (now clk <= now clk')%Q /\
  backoff_until self' !! k = if Qltb (now clk) until then None else Some until.
Proof.
  intros k Hb. unfold RL.wait_if_needed. fold k. rewrite Hb. unfold time_time.
  set (mi := (60 / inject_Z (default 5%Z (rate_limits self !! k)))%Q).
  destruct (Qltb (now clk) until) eqn:E.
  - apply Qltb_lt in E.
    assert (E0 : Qltb 0 (until - now clk) = true) by (apply Qltb_lt; lra).
    rewrite E0. clear E0. cbn [last_call_times rate_limits retry_counts backoff_until]. fold mi.
    assert (Hs : now (sleep (until - now clk) clk) = (now clk + (until - now clk))%Q).
    { apply sleep_now_pos. lra. }
    destruct (last_call_times self !! k) as [l|].
    + destruct (default 5 (rate_limits self !! k) =? 0); [discriminate|].
      pose proof (sleep_now_le (mi - (now clk - l)) (sleep (until - now clk) clk)) as Hle.
      rewrite Hs in Hle.
      destruct (Qltb (now clk - l) mi); intros Heq; inversion Heq; subst;
        cbn [backoff_until]; rewrite lookup_delete_eq, ?Hs;
        (split; [|split; [|reflexivity]]); lra.
    + intros Heq; inversion Heq; subst. cbn [backoff_until]. rewrite lookup_delete_eq, Hs.
      split; [|split; [|reflexivity]]; lra.
  - apply Qltb_ge in E.
    assert (E0 : Qltb 0 (until - now clk) = false) by (apply Qltb_ge; lra).
    rewrite E0. clear E0. fold mi.
    destruct (last_call_times self !! k) as [l|].
    + destruct (default 5 (rate_limits self !! k) =? 0); [discriminate|].
      pose proof (sleep_now_le (mi - (now clk - l)) clk) as Hle.
      destruct (Qltb (now clk - l) mi); intros Heq; inversion Heq; subst;
        cbn [backoff_until]; (split; [|split; [|exact Hb]]); lra.
    + intros Heq; inversion Heq; subst. cbn [backoff_until].
      split; [|split; [|exact Hb]]; lra.
Qed.

(** After [handle_rate_limit_error] has answered a rate-limit error of a
    class with a wait of [w] seconds, a gated call of that class, arriving
    any time later, is not let through before [w] seconds have passed since
    the error; and if it had to wait for that, it removes the window. *)
Theorem backoff_window_holds_next_call :
  forall (self : RateLimiter) (endpoint1 endpoint2 : string) (retry_after : option Q)
         (clk : Clock) (gap : Q) (self2 : RateLimiter) (clk2 : Clock),
    let out := RL.handle_rate_limit_error self endpoint1 retry_after clk in
    let k := RL.get_rate_limit_key self endpoint1 in
    RL.get_rate_limit_key self endpoint2 = k ->
    RL.wait_if_needed (fst out) endpoint2 (elapse gap clk) = (Return tt, (self2, clk2)) ->
    (now clk + snd out <= now clk2)%Q /\
    ((gap < snd out)%Q -> backoff_until self2 !! k = None).
Proof.
  intros self ep1 ep2 ra clk gap self2 clk2 out k Hk Hw.
  assert (Hk2 : RL.get_rate_limit_key (fst out) ep2 = k).
  { rewrite <- Hk. apply key_depends_on_limits. apply handle_keeps_limits. }
  assert (Hb : backoff_until (fst out) !! RL.get_rate_limit_key (fst out) ep2
               = Some (now clk + snd out)%Q).
  { rewrite Hk2. unfold out, RL.handle_rate_limit_error. cbn [fst snd backoff_until].
    fold k. apply lookup_insert_eq. }
  pose proof (wait_if_needed_backoff (fst out) ep2 (elapse gap clk)
                (now clk + snd out)%Q self2 clk2 Hb Hw) as (H1 & _ & H3).
  rewrite Hk2 in H3. split; [exact H1|].
  intros Hlt. rewrite H3.
  assert (E : Qltb (now (elapse gap clk)) (now clk + snd out) = true).
  { apply Qltb_lt. unfold elapse; cbn [now]. lra. }
  now rewrite E.
Qed.

Lemma backoff_window_holds_next_call_witness :
  let out := RL.handle_rate_limit_error RL.init "getproducts" None (mkClock 100 []) in
  let out2 := RL.wait_if_needed (fst out) "GetProducts" (elapse (1 # 2) (mkClock 100 [])) in
  (100 + 2 <= now (snd (snd out2)))%Q.
Proof.
  intros out out2.
  refine (proj1 (backoff_window_holds_next_call RL.init "getproducts" "GetProducts" None
                   (mkClock 100 []) (1 # 2) (fst (snd out2)) (snd (snd out2)) _ _)).
  - vm_compute. reflexivity.
  - vm_compute. reflexivity.
Defined.

(** [wait_if_needed] reads the time once, before any sleep.  A call that
    finds both a backoff window and a recent call of its class sleeps to
    the end of the window and then the whole spacing it computed on
    arrival: the time spent in the first sleep does not shorten the second. *)
Theorem wait_sleeps_backoff_then_full_spacing :
  forall (self : RateLimiter) (endpoint : string) (clk : Clock) (until last : Q),
    let k := RL.get_rate_limit_key self endpoint in
    let min_interval := (60 / inject_Z (RL.calls_per_minute self k))%Q in
    backoff_until self !! k = Some until ->
    last_call_times self !! k = Some last ->
    RL.calls_per_minute self k <> 0 ->
    (now clk < until)%Q ->
    (now clk - last < min_interval)%Q ->
    exists self' clk',
      RL.wait_if_needed self endpoint clk = (Return tt, (self', clk')) /\
      sleeps clk' = (sleeps clk ++ [(until - now clk)%Q; (min_interval - (now clk - last))%Q])%list /\
      (now clk' == until + (min_interval - (now clk - last)))%Q /\
      last_call_times self' !! k = Some (now clk').
Proof.
  intros self ep clk until last k mi Hb Hl Hcpm Hlt Hsp.
  unfold RL.wait_if_needed. fold k. rewrite Hb. unfold time_time.
  assert (E1 : Qltb 0 (until - now clk) = true) by (apply Qltb_lt; lra).
  rewrite E1. cbn [last_call_times rate_limits]. rewrite Hl.
  unfold RL.calls_per_minute in *. fold mi.
  destruct (default 5 (rate_limits self !! k) =? 0) eqn:Ez.
  { apply Z.eqb_eq in Ez. contradiction. }
  assert (E2 : Qltb (now clk - last) mi = true) by (apply Qltb_lt; exact Hsp).
  rewrite E2. eexists _, _. split; [reflexivity|].
  cbn [last_call_times]. split; [|split].
  - unfold sleep; simpl. rewrite <- app_assoc. reflexivity.
  - rewrite sleep_now_pos by lra. rewrite sleep_now_pos by lra. lra.
  - apply lookup_insert_eq.
Qed.

Lemma wait_sleeps_backoff_then_full_spacing_witness :
  let self := fst (snd (RL.wait_if_needed RL.init "getproduct" (mkClock 0 []))) in
  let self1 := fst (RL.handle_rate_limit_error self "getproduct" (Some 100%Q) (mkClock 0 [])) in
  exists self' clk',
    RL.wait_if_needed self1 "getproduct" (mkClock 1 []) = (Return tt, (self', clk')) /\
    sleeps clk' = ([] ++ [(100 - 1)%Q; (60 / inject_Z 5 - (1 - 0))%Q])%list /\
    (now clk' == 100 + (60 / inject_Z 5 - (1 - 0)))%Q /\
    last_call_times self' !! "getproduct" = Some (now clk').
Proof.
  intros self self1.
  refine (wait_sleeps_backoff_then_full_spacing self1 "getproduct" (mkClock 1 []) 100 0 _ _ _ _ _).
  - vm_compute. reflexivity.
  - vm_compute. reflexivity.
  - vm_compute. discriminate.
  - vm_compute. reflexivity.
  - vm_compute. reflexivity.
Defined.
(** ** [wait_if_needed] among other tasks *)

Lemma Qle_bool_true x y : (x <= y)%Q -> Qle_bool x y = true.
Proof. apply Qle_bool_iff. Qed.

(** Run with nobody else around, the coroutine ends as the call followed
    in one piece does: let through at the same time with the same limiter,
    or stopped by the same division by zero. *)
Lemma run_alone_as_sequential self endpoint clk :
  match RL.wait_if_needed self endpoint clk with
  | (Return _, (self', clk')) =>
      Tasks.run_alone self endpoint (now clk) = (Issued (now clk'), self')
  | (Raise e, (self', _)) =>
      Tasks.run_alone self endpoint (now clk) = (Raised e, self')
  end.
Proof.
  unfold RL.wait_if_needed, Tasks.run_alone, Tasks.resume, time_time.
  set (k := RL.get_rate_limit_key self endpoint).
  destruct (backoff_until self !! k) as [u|] eqn:Hb.
  - destruct (Qltb 0 (u - now clk)) eqn:E0.
    + cbn [Tasks.wake]. rewrite Hb. unfold Tasks.spacing_part.
      cbn [last_call_times rate_limits retry_counts backoff_until].
      assert (Hs : now (sleep (u - now clk) clk) = (now clk + (u - now clk))%Q).
      { apply sleep_now_pos. now apply Qltb_lt. }
      destruct (last_call_times self !! k) as [l|].
      * destruct (default 5 (rate_limits self !! k) =? 0); [reflexivity|].
        destruct (Qltb (now clk - l) _) eqn:E1.
        -- cbn [Tasks.wake Tasks.resume Tasks.record_call time_time
                last_call_times rate_limits retry_counts backoff_until].
           rewrite sleep_now_pos, Hs; [reflexivity|].
           apply Qltb_lt in E1. lra.
        -- cbn [Tasks.wake time_time]. rewrite Hs. reflexivity.
      * cbn [Tasks.wake time_time]. rewrite Hs. reflexivity.
    + unfold Tasks.spacing_part.
      destruct (last_call_times self !! k) as [l|].
      * destruct (default 5 (rate_limits self !! k) =? 0); [reflexivity|].
        destruct (Qltb (now clk - l) _) eqn:E1.
        -- cbn [Tasks.wake Tasks.resume Tasks.record_call time_time].
           rewrite sleep_now_pos; [reflexivity|]. apply Qltb_lt in E1. lra.
        -- reflexivity.
      * reflexivity.
  - unfold Tasks.spacing_part.
    destruct (last_call_times self !! k) as [l|].
    + destruct (default 5 (rate_limits self !! k) =? 0); [reflexivity|].
      destruct (Qltb (now clk - l) _) eqn:E1.
      * cbn [Tasks.wake Tasks.resume Tasks.record_call time_time].
        rewrite sleep_now_pos; [reflexivity|]. apply Qltb_lt in E1. lra.
      * reflexivity.
    + reflexivity.
Qed.

(** The gate spaces calls that come one after the other, not calls that
    overlap.  Two callers of one class that both arrive while the class
    still has to wait out its interval read the same last call time, sleep
    to the same instant [last + 60/limit] and are let through together,
    zero seconds apart, both recording that instant. *)
Theorem overlapping_callers_pass_together :
  forall (self : RateLimiter) (endpoint1 endpoint2 : string) (last t0 t1 t2 : Q),
    let k := RL.get_rate_limit_key self endpoint1 in
    let min_interval := (60 / inject_Z (RL.calls_per_minute self k))%Q in
    let w := (last + min_interval)%Q in
    RL.get_rate_limit_key self endpoint2 = k ->
    backoff_until self !! k = None ->
    last_call_times self !! k = Some last ->
    RL.calls_per_minute self k <> 0 ->
    (t0 <= t1)%Q -> (t1 <= t2)%Q -> (t2 < w)%Q ->
    exists g,
      Tasks.schedule_all [(0%nat, t1); (1%nat, t2); (0%nat, w); (1%nat, w)]
        {| shared := self;
           callers := [NotStarted endpoint1; NotStarted endpoint2];
           gate_time := t0 |} = Some g /\
      callers g = [Issued w; Issued w] /\
      last_call_times (shared g) !! k = Some w.
Proof.
  intros self ep1 ep2 last t0 t1 t2 k mi w Hk Hb Hl Hcpm H01 H12 H2w.
  unfold RL.calls_per_minute in *.
  assert (Ez : (default 5 (rate_limits self !! k) =? 0) = false) by now apply Z.eqb_neq.
  assert (Hstart : forall ep t, RL.get_rate_limit_key self ep = k -> (t < w)%Q ->
            Tasks.resume (NotStarted ep) self t
            = (SpacingSleep k (t + (mi - (t - last)))%Q, self)).
  { intros ep t Hep Ht. unfold Tasks.resume. rewrite Hep, Hb.
    unfold Tasks.spacing_part. rewrite Hl, Ez. fold mi.
    assert (E : Qltb (t - last) mi = true) by (apply Qltb_lt; unfold w in Ht; lra).
    now rewrite E. }
  unfold Tasks.schedule_all, Tasks.schedule. cbn [callers gate_time shared].
  (* caller 0 starts at t1 *)
  change ([NotStarted ep1; NotStarted ep2] !! 0%nat) with (Some (NotStarted ep1)).
  cbn [Tasks.may_resume Tasks.wake]. rewrite (Qle_bool_true t0 t1 H01). cbn [andb].
  rewrite (Hstart ep1 t1 eq_refl) by lra.
  cbn [callers gate_time shared].
  (* caller 1 starts at t2 *)
  change (<[0%nat := SpacingSleep k (t1 + (mi - (t1 - last)))%Q]>
            [NotStarted ep1; NotStarted ep2])
    with [SpacingSleep k (t1 + (mi - (t1 - last)))%Q; NotStarted ep2].
  change ([SpacingSleep k (t1 + (mi - (t1 - last)))%Q; NotStarted ep2] !! 1%nat)
    with (Some (NotStarted ep2)).
  cbn [Tasks.may_resume Tasks.wake]. rewrite (Qle_bool_true t1 t2 H12). cbn [andb].
  rewrite (Hstart ep2 t2 Hk) by lra.
  cbn [callers gate_time shared].
  change (<[1%nat := SpacingSleep k (t2 + (mi - (t2 - last)))%Q]>
            [SpacingSleep k (t1 + (mi - (t1 - last)))%Q; NotStarted ep2])
    with [SpacingSleep k (t1 + (mi - (t1 - last)))%Q;
          SpacingSleep k (t2 + (mi - (t2 - last)))%Q].
  (* both wake at w *)
  change ([SpacingSleep k (t1 + (mi - (t1 - last)))%Q;
           SpacingSleep k (t2 + (mi - (t2 - last)))%Q] !! 0%nat)
    with (Some (SpacingSleep k (t1 + (mi - (t1 - last)))%Q)).
  cbn [Tasks.may_resume Tasks.wake].
  rewrite (Qle_bool_true t2 w) by lra.
  rewrite (Qle_bool_true (t1 + (mi - (t1 - last))) w) by (unfold w; lra).
  cbn [andb Tasks.resume callers gate_time shared].
  change (<[0%nat := Issued w]> [SpacingSleep k (t1 + (mi - (t1 - last)))%Q;
                                 SpacingSleep k (t2 + (mi - (t2 - last)))%Q])
    with [Issued w; SpacingSleep k (t2 + (mi - (t2 - last)))%Q].
  change ([Issued w; SpacingSleep k (t2 + (mi - (t2 - last)))%Q] !! 1%nat)
    with (Some (SpacingSleep k (t2 + (mi - (t2 - last)))%Q)).
  cbn [Tasks.may_resume Tasks.wake].
  rewrite (Qle_bool_true w w) by lra.
  rewrite (Qle_bool_true (t2 + (mi - (t2 - last))) w) by (unfold w; lra).
  cbn [andb Tasks.resume callers gate_time shared].
  eexists. split; [reflexivity|]. cbn [callers shared]. split; [reflexivity|].
  unfold Tasks.record_call. cbn [last_call_times]. apply lookup_insert_eq.
Qed.

Lemma overlapping_callers_pass_together_witness :
  let self := fst (snd (RL.wait_if_needed RL.init "updateproduct" (mkClock 0 []))) in
  exists g,
    Tasks.schedule_all [(0%nat, 1%Q); (1%nat, 2%Q); (0%nat, (0 + 60 / inject_Z 5)%Q);
                        (1%nat, (0 + 60 / inject_Z 5)%Q)]
      {| shared := self;
         callers := [NotStarted "updateproduct"; NotStarted "updateproduct"];
         gate_time := 0 |} = Some g /\
    callers g = [Issued (0 + 60 / inject_Z 5)%Q; Issued (0 + 60 / inject_Z 5)%Q] /\
    last_call_times (shared g) !! "updateproduct" = Some (0 + 60 / inject_Z 5)%Q.
Proof.
  intros self.
  refine (overlapping_callers_pass_together self "updateproduct" "updateproduct"
            0 0 1 2 _ _ _ _ _ _ _).
  - reflexivity.
  - vm_compute. reflexivity.
  - vm_compute. reflexivity.
  - vm_compute. discriminate.
  - vm_compute. discriminate.
  - vm_compute. discriminate.
  - vm_compute. reflexivity.
Defined.

(** Two callers of one class that both arrive inside a backoff window of
    the class both sleep to its end; the first to wake deletes the
    window's entry, and the second, doing the same [del], is ended by a
    [KeyError] instead of being let through. *)
Theorem overlapping_backoff_raises_KeyError :
  forall (self : RateLimiter) (endpoint1 endpoint2 : string) (until t0 t1 t2 w1 w2 : Q),
    let k := RL.get_rate_limit_key self endpoint1 in
    RL.get_rate_limit_key self endpoint2 = k ->
    backoff_until self !! k = Some until ->
    (t0 <= t1)%Q -> (t1 <= t2)%Q -> (t2 < until)%Q ->
    (until <= w1)%Q -> (w1 <= w2)%Q ->
    exists g,
      Tasks.schedule_all [(0%nat, t1); (1%nat, t2); (0%nat, w1); (1%nat, w2)]
        {| shared := self;
           callers := [NotStarted endpoint1; NotStarted endpoint2];
           gate_time := t0 |} = Some g /\
      callers g !! 1%nat = Some (Raised (KeyError k)) /\
      backoff_until (shared g) !! k = None.
Proof.
  intros self ep1 ep2 until t0 t1 t2 w1 w2 k Hk Hb H01 H12 H2u Hu1 H12'.
  assert (Hstart : forall ep t, RL.get_rate_limit_key self ep = k -> (t < until)%Q ->
            Tasks.resume (NotStarted ep) self t
            = (BackoffSleep k t (t + (until - t))%Q, self)).
  { intros ep t Hep Ht. unfold Tasks.resume. rewrite Hep, Hb.
    assert (E : Qltb 0 (until - t) = true) by (apply Qltb_lt; lra).
    now rewrite E. }
  unfold Tasks.schedule_all, Tasks.schedule. cbn [callers gate_time shared].
  change ([NotStarted ep1; NotStarted ep2] !! 0%nat) with (Some (NotStarted ep1)).
  cbn [Tasks.may_resume Tasks.wake]. rewrite (Qle_bool_true t0 t1 H01). cbn [andb].
  rewrite (Hstart ep1 t1 eq_refl) by lra.
  cbn [callers gate_time shared].
  change (<[0%nat := BackoffSleep k t1 (t1 + (until - t1))%Q]>
            [NotStarted ep1; NotStarted ep2])
    with [BackoffSleep k t1 (t1 + (until - t1))%Q; NotStarted ep2].
  change ([BackoffSleep k t1 (t1 + (until - t1))%Q; NotStarted ep2] !! 1%nat)
    with (Some (NotStarted ep2)).
  cbn [Tasks.may_resume Tasks.wake]. rewrite (Qle_bool_true t1 t2 H12). cbn [andb].
  rewrite (Hstart ep2 t2 Hk) by lra.
  cbn [callers gate_time shared].
  change (<[1%nat := BackoffSleep k t2 (t2 + (until - t2))%Q]>
            [BackoffSleep k t1 (t1 + (until - t1))%Q; NotStarted ep2])
    with [BackoffSleep k t1 (t1 + (until - t1))%Q;
          BackoffSleep k t2 (t2 + (until - t2))%Q].
  change ([BackoffSleep k t1 (t1 + (until - t1))%Q;
           BackoffSleep k t2 (t2 + (until - t2))%Q] !! 0%nat)
    with (Some (BackoffSleep k t1 (t1 + (until - t1))%Q)).
  cbn [Tasks.may_resume Tasks.wake].
  rewrite (Qle_bool_true t2 w1) by lra.
  rewrite (Qle_bool_true (t1 + (until - t1)) w1) by lra.
  cbn [andb Tasks.resume]. rewrite Hb.
  set (self1 := {| last_call_times := last_call_times self;
                   retry_counts := retry_counts self;
                   backoff_until := delete k (backoff_until self);
                   rate_limits := rate_limits self |}).
  destruct (Tasks.spacing_part self1 k t1 w1) as [pc0 self2] eqn:Hsp.
  assert (Hb2 : backoff_until self2 !! k = None).
  { assert (Hkeep : backoff_until self2 = backoff_until self1).
    { revert Hsp. unfold Tasks.spacing_part.
      destruct (last_call_times self1 !! k);
        [destruct (_ =? 0); [|destruct (Qltb _ _)]|];
        intros Heq; inversion Heq; reflexivity. }
    rewrite Hkeep. apply lookup_delete_eq. }
  cbn [callers gate_time shared].
  change (<[0%nat := pc0]> [BackoffSleep k t1 (t1 + (until - t1))%Q;
                            BackoffSleep k t2 (t2 + (until - t2))%Q])
    with [pc0; BackoffSleep k t2 (t2 + (until - t2))%Q].
  change ([pc0; BackoffSleep k t2 (t2 + (until - t2))%Q] !! 1%nat)
    with (Some (BackoffSleep k t2 (t2 + (until - t2))%Q)).
  cbn [Tasks.may_resume Tasks.wake].
  rewrite (Qle_bool_true w1 w2 H12').
  rewrite (Qle_bool_true (t2 + (until - t2)) w2) by lra.
  cbn [andb Tasks.resume]. rewrite Hb2.
  eexists. split; [reflexivity|]. cbn [callers shared]. split; [reflexivity|exact Hb2].
Qed.

Lemma overlapping_backoff_raises_KeyError_witness :
  let self := fst (RL.handle_rate_limit_error RL.init "updateproduct" None (mkClock 0 [])) in
  exists g,
    Tasks.schedule_all [(0%nat, (1 # 2)%Q); (1%nat, 1%Q); (0%nat, 2%Q); (1%nat, 2%Q)]
      {| shared := self;
         callers := [NotStarted "updateproduct"; NotStarted "updateproduct"];
         gate_time := 0 |} = Some g /\
    callers g !! 1%nat = Some (Raised (KeyError "updateproduct")) /\
    backoff_until (shared g) !! "updateproduct" = None.
Proof.
  intros self.
  refine (overlapping_backoff_raises_KeyError self "updateproduct" "updateproduct"
            2 0 (1 # 2) 1 2 2 _ _ _ _ _ _ _).
  - reflexivity.
  - vm_compute. reflexivity.
  - vm_compute. discriminate.
  - vm_compute. discriminate.
  - vm_compute. reflexivity.
  - vm_compute. discriminate.
  - vm_compute. discriminate.
Defined.
(** ** More on [utils/cache.py] *)

(** What is stored is served until its lifetime is over, and thrown away
    by the first lookup after that.  The lifetime of an entry is the [ttl]
    given to [set] if it is not 0, and the TTL of the endpoint otherwise;
    a [get] made [d] seconds after the [set] returns the stored value when
    [d] is less than the lifetime, and when it is not, it returns [None]
    and deletes the entry (a lifetime of 0 or less: at once). *)
Theorem set_then_get `{PyLib} :
  forall (self : SimpleCache) (endpoint : string) (p : params) (value : pyvalue)
         (ttl : option Z) (clk : Clock) (d : Q),
    is_error_dict value = false ->
    let lifetime := match ttl with
                    | Some t => if t =? 0 then Cache._get_ttl self endpoint else t
                    | None => Cache._get_ttl self endpoint
                    end in
    let self1 := Cache.set self endpoint p value ttl clk in
    let out := Cache.get self1 endpoint p (elapse d clk) in
    cache self1 !! Cache._get_cache_key endpoint p = Some (value, (now clk + inject_Z lifetime)%Q) /\
    ((d < inject_Z lifetime)%Q -> out = (value, self1)) /\
    ((inject_Z lifetime <= d)%Q ->
     fst out = VNone /\
     cache (snd out) = delete (Cache._get_cache_key endpoint p) (cache self)).
Proof.
  intros self endpoint p value ttl clk d Hv lifetime self1 out.
  assert (Hlife : Cache.ttl_or ttl (Cache._get_ttl self endpoint) = lifetime) by reflexivity.
  assert (Hk : cache self1 !! Cache._get_cache_key endpoint p
               = Some (value, (now clk + inject_Z lifetime)%Q)).
  { unfold self1, Cache.set. rewrite Hv, Hlife. cbn [Cache.with_entries cache].
    apply lookup_insert_eq. }
  split; [exact Hk|].
  unfold out, Cache.get. rewrite Hk. unfold time_time, elapse. cbn [now].
  split.
  - intros Hd. assert (E : Qltb (now clk + d) (now clk + inject_Z lifetime) = true)
      by (apply Qltb_lt; lra).
    now rewrite E.
  - intros Hd. assert (E : Qltb (now clk + d) (now clk + inject_Z lifetime) = false)
      by (apply Qltb_ge; lra).
    rewrite E. cbn [fst snd Cache.with_entries cache]. split; [reflexivity|].
    unfold self1, Cache.set. rewrite Hv. cbn [Cache.with_entries cache].
    apply delete_insert_eq.
Qed.

Lemma set_then_get_witness :
  let self1 := Cache.set (H := Sample.pylib) Cache.global_cache "getinventorybylocation" []
                 (VDict [("Items", VList [])]) (Some 0) (mkClock 100 []) in
  Cache.get (H := Sample.pylib) self1 "getinventorybylocation" [] (elapse 29 (mkClock 100 []))
  = (VDict [("Items", VList [])], self1).
Proof.
  intros self1.
  refine (proj1 (proj2 (set_then_get (H := Sample.pylib) Cache.global_cache
                          "getinventorybylocation" [] (VDict [("Items", VList [])])
                          (Some 0) (mkClock 100 []) 29 _)) _).
  - reflexivity.
  - vm_compute. reflexivity.
Defined.

Lemma strip_tokens_app (p1 p2 : params) :
  Cache.strip_tokens (p1 ++ p2) = (Cache.strip_tokens p1 ++ Cache.strip_tokens p2)%list.
Proof. apply List.filter_app. Qed.

(** The cache key does not depend on the credentials among the
    parameters: an entry stored by a request that carried a [TenantToken]
    or a [UserToken] is the entry of the same request without it, or with
    another value for it, wherever the token stands among the parameters. *)
Theorem cache_key_ignores_tokens `{PyLib} :
  forall (endpoint token : string) (v v' : pyvalue) (p1 p2 : params),
    token = "TenantToken" \/ token = "UserToken" ->
    Cache._get_cache_key endpoint (p1 ++ (token, v) :: p2)%list
    = Cache._get_cache_key endpoint (p1 ++ p2)%list /\
    Cache._get_cache_key endpoint (p1 ++ (token, v) :: p2)%list
    = Cache._get_cache_key endpoint (p1 ++ (token, v') :: p2)%list.
Proof.
  intros endpoint token v v' p1 p2 Htok.
  assert (Hstrip : forall w, Cache.strip_tokens (p1 ++ (token, w) :: p2)
                             = Cache.strip_tokens (p1 ++ p2)).
  { intros w. rewrite !strip_tokens_app. f_equal.
    destruct Htok as [-> | ->]; reflexivity. }
  unfold Cache._get_cache_key. rewrite !Hstrip. split; reflexivity.
Qed.

Lemma cache_key_ignores_tokens_witness :
  Cache._get_cache_key (H := Sample.pylib) "getproduct"
    ([("ProductSKU", VStr "A1")] ++ ("UserToken", VStr "alice") :: [])%list
  = Cache._get_cache_key (H := Sample.pylib) "getproduct"
      ([("ProductSKU", VStr "A1")] ++ [])%list.
Proof.
  refine (proj1 (cache_key_ignores_tokens (H := Sample.pylib) "getproduct" "UserToken"
                   (VStr "alice") VNone [("ProductSKU", VStr "A1")] [] _)).
  right. reflexivity.
Defined.

(** ** The cache wrapper around the body of [call_endpoint] *)

Lemma set_store_same (st : Client) : Api.set_store st (store st) = st.
Proof. destruct st; reflexivity. Qed.

(** A valid entry is served by the cache wrapper as it is: the body of
    [call_endpoint] does not run, so the endpoint is not looked up in the
    schema, the credentials are not looked at, and nothing is posted or
    changed, whatever the schema and the credentials are. *)
Theorem cache_hit_skips_checks `{PyLib} `{Remote} :
  forall (st : Client) (endpoint_name : string) (kwargs : params)
         (value : pyvalue) (expiry_time : Q),
    cache (store st) !! Cache._get_cache_key endpoint_name kwargs = Some (value, expiry_time) ->
    value <> VNone ->
    (now (clock st) < expiry_time)%Q ->
    Api.with_cache Api.raw_call_endpoint endpoint_name kwargs st = (Return value, st).
Proof.
  intros st e kwargs value expiry Hk Hv Hfresh.
  unfold Api.with_cache, Cache.get. rewrite Hk.
  apply Qltb_lt in Hfresh. unfold time_time. rewrite Hfresh, set_store_same.
  destruct value; try reflexivity. contradiction.
Qed.

Lemma cache_hit_skips_checks_witness :
  let st := {| limiter := RL.init;
               store := Cache.set (H := Sample.pylib) Cache.global_cache "nosuchendpoint" []
                          (VStr "cached") None (mkClock 0 []);
               clock := mkClock 10 [];
               posts := [] |} in
  Api.with_cache (H := Sample.pylib) (Api.raw_call_endpoint (H := Sample.closed_remote))
    "nosuchendpoint" [] st = (Return (VStr "cached"), st).
Proof.
  intros st.
  refine (cache_hit_skips_checks (H := Sample.pylib) (H0 := Sample.closed_remote) st
            "nosuchendpoint" [] (VStr "cached") (0 + inject_Z 300)%Q _ _ _).
  - vm_compute. reflexivity.
  - discriminate.
  - vm_compute. reflexivity.
Defined.

(** On a miss the body runs.  An endpoint that is not in the schema is
    refused before the credentials are looked at, and a client without
    credentials is refused before anything is sent; neither failure posts
    or stores anything.  Otherwise exactly one request is posted and the
    answer of the service is the result; it is stored, for the TTL of the
    endpoint, unless it is an error mapping. *)
Theorem cache_miss_runs_body `{PyLib} `{Remote} :
  forall (st : Client) (endpoint_name : string) (kwargs : params),
    cache (store st) !! Cache._get_cache_key endpoint_name kwargs = None ->
    let out := Api.with_cache Api.raw_call_endpoint endpoint_name kwargs st in
    (in_schema (PyStr.lower endpoint_name) = false ->
     out = (Raise (SkuVaultAPIError ("Unknown endpoint: " ++ endpoint_name)), st)) /\
    (in_schema (PyStr.lower endpoint_name) = true -> has_auth_tokens = false ->
     out = (Raise (SkuVaultAPIError "Authentication required. Call authenticate() first."), st)) /\
    (in_schema (PyStr.lower endpoint_name) = true -> has_auth_tokens = true ->
     fst out = respond (posts st) endpoint_name kwargs /\
     posts (snd out) = (posts st ++ [(endpoint_name, kwargs)])%list /\
     forall res, respond (posts st) endpoint_name kwargs = Return res ->
       cache (store (snd out)) !! Cache._get_cache_key endpoint_name kwargs
       = if is_error_dict res then None
         else Some (res, (now (clock st)
                          + inject_Z (Cache._get_ttl (store st) endpoint_name))%Q)).
Proof.
  intros st e kwargs Hk out. unfold out, Api.with_cache, Cache.get.
  rewrite Hk, set_store_same. unfold Api.raw_call_endpoint.
  split; [|split].
  - intros ->. reflexivity.
  - intros -> ->. reflexivity.
  - intros -> ->. cbn [negb].
    destruct (respond (posts st) e kwargs) as [res|ex] eqn:Hr.
    + destruct (is_error_dict res) eqn:Herr; cbn [negb fst snd posts];
        (split; [reflexivity|]); (split; [reflexivity|]);
        intros res' [= <-]; rewrite Herr.
      * cbn [store]. exact Hk.
      * cbn [Api.set_store store clock]. unfold Cache.set. rewrite Herr.
        cbn [Cache.with_entries cache Cache.ttl_or]. apply lookup_insert_eq.
    + cbn [fst snd posts]. split; [reflexivity|]. split; [reflexivity|]. discriminate.
Qed.

Lemma cache_miss_runs_body_witness :
  let st := {| limiter := RL.init; store := Cache.global_cache;
               clock := mkClock 10 []; posts := [] |} in
  Api.with_cache (H := Sample.pylib) (Api.raw_call_endpoint (H := Sample.closed_remote))
    "getproduct" [] st
  = (Raise (SkuVaultAPIError ("Unknown endpoint: " ++ "getproduct")), st).
Proof.
  intros st.
  refine (proj1 (cache_miss_runs_body (H := Sample.pylib) (H0 := Sample.closed_remote) st
                   "getproduct" [] _) _).
  - reflexivity.
  - reflexivity.
Defined.

(** A response that is [None] (a JSON [null]) is stored like any other,
    but the wrapper takes the [None] it reads back for a miss: the next
    call posts the request again, the entry being valid or not. *)
Theorem none_response_is_posted_again `{PyLib} `{Remote} :
  forall (st : Client) (endpoint_name : string) (kwargs : params) (gap : Q),
    in_schema (PyStr.lower endpoint_name) = true ->
    has_auth_tokens = true ->
    (forall sent, respond sent endpoint_name kwargs = Return VNone) ->
    cache (store st) !! Cache._get_cache_key endpoint_name kwargs = None ->
    let out1 := Api.with_cache Api.raw_call_endpoint endpoint_name kwargs st in
    let st1 := Api.set_clock (snd out1) (elapse gap (clock (snd out1))) in
    let out2 := Api.with_cache Api.raw_call_endpoint endpoint_name kwargs st1 in
    fst out1 = Return VNone /\
    cache (store (snd out1)) !! Cache._get_cache_key endpoint_name kwargs
    = Some (VNone, (now (clock st) + inject_Z (Cache._get_ttl (store st) endpoint_name))%Q) /\
    fst out2 = Return VNone /\
    posts (snd out2) = (posts st ++ [(endpoint_name, kwargs); (endpoint_name, kwargs)])%list.
Proof.
  intros st e kwargs gap Hs Ha Hr Hk out1 st1 out2.
  assert (Hout1 : out1
                  = (Return VNone,
                     Api.set_store
                       {| limiter := limiter st; store := store st; clock := clock st;
                          posts := (posts st ++ [(e, kwargs)])%list |}
                       (Cache.set (store st) e kwargs VNone None (clock st)))).
  { unfold out1, Api.with_cache, Cache.get. rewrite Hk, set_store_same.
    unfold Api.raw_call_endpoint. rewrite Hs, Ha. cbn [negb]. rewrite Hr. reflexivity. }
  assert (Hres : fst out1 = Return VNone) by now rewrite Hout1.
  assert (Hposts : posts (snd out1) = (posts st ++ [(e, kwargs)])%list) by now rewrite Hout1.
  assert (Hstore : cache (store (snd out1)) !! Cache._get_cache_key e kwargs
                   = Some (VNone, (now (clock st)
                                   + inject_Z (Cache._get_ttl (store st) e))%Q)).
  { rewrite Hout1. cbn [snd Api.set_store store]. unfold Cache.set.
    cbn [is_error_dict Cache.with_entries cache Cache.ttl_or]. apply lookup_insert_eq. }
  split; [exact Hres|]. split; [exact Hstore|].
  assert (Hposts1 : posts st1 = (posts st ++ [(e, kwargs)])%list) by exact Hposts.
  assert (Hstore1 : cache (store st1) !! Cache._get_cache_key e kwargs
                    = Some (VNone, (now (clock st)
                                    + inject_Z (Cache._get_ttl (store st) e))%Q)) by exact Hstore.
  unfold out2, Api.with_cache, Cache.get. rewrite Hstore1.
  destruct (Qltb (time_time (clock st1)) _);
    cbn [fst snd]; unfold Api.raw_call_endpoint;
    cbn [Api.set_store posts store clock limiter]; rewrite Hs, Ha; cbn [negb];
    rewrite Hr; cbn [negb is_error_dict fst snd posts Api.set_store];
    rewrite Hposts1, <- app_assoc; split; reflexivity.
Qed.

Lemma none_response_is_posted_again_witness :
  let st := {| limiter := RL.init; store := Cache.global_cache;
               clock := mkClock 10 []; posts := [] |} in
  let out1 := Api.with_cache (H := Sample.pylib) (Api.raw_call_endpoint (H := Sample.null_remote))
                "getproduct" [] st in
  let st1 := Api.set_clock (snd out1) (elapse 1 (clock (snd out1))) in
  let out2 := Api.with_cache (H := Sample.pylib) (Api.raw_call_endpoint (H := Sample.null_remote))
                "getproduct" [] st1 in
  posts (snd out2) = ([] ++ [("getproduct", []); ("getproduct", [])])%list.
Proof.
  intros st out1 st1 out2.
  refine (proj2 (proj2 (proj2 (none_response_is_posted_again (H := Sample.pylib)
            (H0 := Sample.null_remote) st "getproduct" [] 1 _ _ _ _)))).
  - reflexivity.
  - reflexivity.
  - reflexivity.
  - reflexivity.
Defined.
(** ** Invalidation as the server calls it, and the statistics *)

Lemma digest_keys_step `{PyLib} (o : Cache.Op) (st : SimpleCache * Clock) :
  (forall s, PyStr.is_hex (md5_hexdigest s) = true) ->
  Cache.digest_keys (fst st) -> Cache.digest_keys (fst (Cache.apply_op o st)).
Proof.
  intros Hmd5. destruct st as [self clk]. intros Hd key.
  destruct o as [e p | e p v ttl | pat | d]; cbn [Cache.apply_op fst].
  - unfold Cache.get.
    destruct (cache self !! _) as [[v t]|]; [destruct (Qltb _ _)|]; cbn [snd]; try apply Hd.
    cbn [Cache.with_entries cache]. intros [x Hx].
    apply lookup_delete_Some in Hx as [_ Hx]. apply Hd. eauto.
  - unfold Cache.set. destruct (is_error_dict v); [apply Hd|].
    cbn [Cache.with_entries cache].
    destruct (decide (Cache._get_cache_key e p = key)) as [<-|Hne].
    + intros _. apply Hmd5.
    + rewrite lookup_insert_ne by assumption. apply Hd.
  - unfold Cache.invalidate.
    destruct pat as [pat|]; [destruct (Cache.pattern_truthy (Some pat))|];
      cbn [fst Cache.with_entries cache]; rewrite ?lookup_empty;
      try (intros [x Hx]; discriminate).
    intros [x Hx]. apply lookup_foldr_delete_Some in Hx as [_ Hx]. apply Hd. eauto.
  - apply Hd.
Qed.

Lemma digest_keys_run `{PyLib} (ops : list Cache.Op) :
  (forall s, PyStr.is_hex (md5_hexdigest s) = true) ->
  forall st, Cache.digest_keys (fst st) -> Cache.digest_keys (fst (Cache.run_ops ops st)).
Proof.
  intros Hmd5. induction ops as [|o ops IH]; intros st Hd; [exact Hd|].
  cbn [Cache.run_ops fold_left]. apply IH. now apply digest_keys_step.
Qed.

Lemma invalidate_on_digests (self : SimpleCache) (a : ascii) (rest : string) :
  PyStr.is_hex_digit (PyStr.lower_ascii a) = false ->
  Cache.digest_keys self ->
  Cache.invalidate self (Some (String a rest)) = (self, 0).
Proof.
  intros Ha Hhex. unfold Cache.invalidate. cbn [Cache.pattern_truthy].
  assert (Hnil : Cache.to_remove self (String a rest) = []).
  { apply elem_of_nil_inv. intros k (Hhit & Hk)%elem_of_to_remove.
    change (PyStr.lower (String a rest))
      with (String (PyStr.lower_ascii a) (PyStr.lower rest)) in Hhit.
    rewrite (hex_never_contains (PyStr.lower_ascii a) (PyStr.lower rest) k) in Hhit;
      [discriminate | | | auto].
    - assert (Hidem : PyStr.lower_ascii (PyStr.lower_ascii a) = PyStr.lower_ascii a).
      { clear. destruct a as [[] [] [] [] [] [] [] []]; reflexivity. }
      now rewrite Hidem.
    - clear. destruct a as [[] [] [] [] [] [] [] []]; reflexivity. }
  rewrite Hnil. destruct self; reflexivity.
Qed.

(** After a successful write the server calls
    [global_cache.invalidate("product")] or [invalidate("inventory")].  The
    keys of the cache are the digests that [_get_cache_key] makes, and a
    hexadecimal digest contains neither word: whatever was stored, looked
    up and invalidated before, the call returns 0 and leaves the cache as
    it is, so that every lookup is answered as before the write. *)
Theorem server_invalidation_removes_nothing `{PyLib} :
  (forall s, PyStr.is_hex (md5_hexdigest s) = true) ->
  forall (ops : list Cache.Op) (clk0 : Clock) (pattern : string),
    pattern = "product" \/ pattern = "inventory" ->
    let self := fst (Cache.run_ops ops (Cache.global_cache, clk0)) in
    Cache.invalidate self (Some pattern) = (self, 0) /\
    forall endpoint p clk,
      Cache.get (fst (Cache.invalidate self (Some pattern))) endpoint p clk
      = Cache.get self endpoint p clk.
Proof.
  intros Hmd5 ops clk0 pattern Hpat self.
  assert (Hd : Cache.digest_keys self).
  { apply (digest_keys_run ops Hmd5 (Cache.global_cache, clk0)).
    intros key [x Hx]. cbn in Hx. rewrite lookup_empty in Hx. discriminate. }
  assert (Hinv : Cache.invalidate self (Some pattern) = (self, 0)).
  { destruct Hpat as [-> | ->]; apply invalidate_on_digests; try exact Hd; reflexivity. }
  split; [exact Hinv|]. intros. now rewrite Hinv.
Qed.

Lemma hex_of_string_is_hex (s : string) : PyStr.is_hex (Sample.hex_of_string s) = true.
Proof.
  induction s as [|c s IH]; [reflexivity|].
  cbn [Sample.hex_of_string PyStr.is_hex]. rewrite IH, andb_true_r.
  clear. destruct c as [[] [] [] [] [] [] [] []]; reflexivity.
Qed.

Lemma server_invalidation_removes_nothing_witness :
  let self := fst (Cache.run_ops (H := Sample.pylib)
                     [Cache.OpSet "getproduct" [("ProductSKU", VStr "A1")]
                        (VDict [("Product", VStr "A1")]) None]
                     (Cache.global_cache, mkClock 0 [])) in
  Cache.invalidate self (Some "product") = (self, 0).
Proof.
  intros self.
  refine (proj1 (server_invalidation_removes_nothing (H := Sample.pylib)
                   hex_of_string_is_hex
                   [Cache.OpSet "getproduct" [("ProductSKU", VStr "A1")]
                      (VDict [("Product", VStr "A1")]) None]
                   (mkClock 0 []) "product" _)).
  left. reflexivity.
Defined.

(** *** [get_stats] *)

Lemma filter_length_Permutation {A} (f : A -> bool) (l l' : list A) :
  l ≡ₚ l' -> length (List.filter f l) = length (List.filter f l').
Proof.
  induction 1 as [|x l l' _ IH|x y l|l l' l'' _ IH1 _ IH2]; simpl.
  - reflexivity.
  - destruct (f x); simpl; congruence.
  - destruct (f x), (f y); reflexivity.
  - congruence.
Qed.

Lemma sum_Permutation (l l' : list Z) :
  l ≡ₚ l' -> fold_right Z.add 0 l = fold_right Z.add 0 l'.
Proof.
  induction 1 as [|x l l' _ IH|x y l|l l' l'' _ IH1 _ IH2]; simpl; lia.
Qed.

Lemma filter_length_le {A} (f : A -> bool) (l : list A) :
  (length (List.filter f l) <= length l)%nat.
Proof. induction l as [|x l IH]; simpl; [lia|]. destruct (f x); simpl; lia. Qed.

(** The statistics count what is stored, not what can still be served:
    [valid_entries] and [expired_entries] split [total_entries], and an
    expired entry stays counted (and held in memory) until a lookup of its
    own key finds it; that lookup returns [None] and takes exactly this one
    entry out of the total and out of the expired ones. *)
Theorem expired_entry_counted_until_looked_up `{PyLib} :
  forall (self : SimpleCache) (endpoint : string) (p : params) (clk : Clock)
         (value : pyvalue) (expiry_time : Q),
    cache self !! Cache._get_cache_key endpoint p = Some (value, expiry_time) ->
    (expiry_time <= now clk)%Q ->
    let before := Cache.get_stats self clk in
    let out := Cache.get self endpoint p clk in
    let after := Cache.get_stats (snd out) clk in
    fst out = VNone /\
    0 <= Cache.valid_entries before <= Cache.total_entries before /\
    Cache.valid_entries before + Cache.expired_entries before = Cache.total_entries before /\
    0 < Cache.expired_entries before /\
    Cache.total_entries after = Cache.total_entries before - 1 /\
    Cache.valid_entries after = Cache.valid_entries before /\
    Cache.expired_entries after = Cache.expired_entries before - 1 /\
    Cache.memory_usage_bytes after
    = Cache.memory_usage_bytes before - Z.of_nat (String.length (py_str value)).
Proof.
  intros self endpoint p clk value expiry Hk Hexp before out after.
  set (key := Cache._get_cache_key endpoint p) in *.
  assert (E : Qltb (time_time clk) expiry = false) by (apply Qltb_ge; exact Hexp).
  assert (Hout : out = (VNone, Cache.with_entries self (delete key (cache self)))).
  { unfold out, Cache.get. fold key. now rewrite Hk, E. }
  pose proof (map_to_list_delete (cache self) key (value, expiry) Hk) as Hperm.
  set (f := fun kv : string * (pyvalue * Q) => Qltb (time_time clk) (snd (snd kv))).
  set (g := fun kv : string * (pyvalue * Q) => Z.of_nat (String.length (py_str (fst (snd kv))))).
  assert (Hvalid : length (List.filter f (map_to_list (cache self)))
                   = length (List.filter f (map_to_list (delete key (cache self))))).
  { rewrite <- (filter_length_Permutation f _ _ Hperm). simpl.
    unfold f at 1. cbn [snd]. now rewrite E. }
  assert (Hsum : fold_right Z.add 0 (List.map g (map_to_list (cache self)))
                 = g (key, (value, expiry))
                   + fold_right Z.add 0 (List.map g (map_to_list (delete key (cache self))))).
  { rewrite <- (sum_Permutation _ _ (Permutation_map g Hperm)). reflexivity. }
  assert (Hsize : size (cache self) = S (size (delete key (cache self)))).
  { rewrite <- !length_map_to_list, <- Hperm. reflexivity. }
  assert (Hle : (length (List.filter f (map_to_list (delete key (cache self))))
                 <= size (delete key (cache self)))%nat).
  { rewrite <- length_map_to_list. apply filter_length_le. }
  unfold after, before. rewrite Hout. cbn [fst snd].
  unfold Cache.get_stats.
  cbn [Cache.total_entries Cache.valid_entries Cache.expired_entries
       Cache.memory_usage_bytes Cache.with_entries cache].
  fold f g. rewrite Hsum, Hvalid, Hsize. unfold g at 1. cbn [fst snd].
  split; [reflexivity|]. repeat split; try lia.
  unfold g. cbn [fst snd]. lia.
Qed.

Lemma expired_entry_counted_until_looked_up_witness :
  let self := Cache.set (H := Sample.pylib) Cache.global_cache "getinventorybylocation" []
                (VStr "stock") None (mkClock 0 []) in
  let out := Cache.get (H := Sample.pylib) self "getinventorybylocation" [] (mkClock 30 []) in
  fst out = VNone /\
  Cache.total_entries (Cache.get_stats (H := Sample.pylib) (snd out) (mkClock 30 []))
  = Cache.total_entries (Cache.get_stats (H := Sample.pylib) self (mkClock 30 [])) - 1.
Proof.
  intros self out.
  pose proof (expired_entry_counted_until_looked_up (H := Sample.pylib) self
                "getinventorybylocation" [] (mkClock 30 []) (VStr "stock") (0 + inject_Z 30)%Q
                ltac:(vm_compute; reflexivity) ltac:(vm_compute; discriminate)) as Hx.
  cbv zeta in Hx. split; [apply Hx|]. apply Hx.
Defined.
(** ** The retry loop of [with_rate_limit] around the cached call *)

Lemma reset_clears_count (rl : RateLimiter) (endpoint : string) :
  let rl' := RL.reset_retry_count rl endpoint in
  retry_counts rl' !! RL.get_rate_limit_key rl' endpoint = None.
Proof.
  intros rl'.
  assert (Hk : RL.get_rate_limit_key rl' endpoint = RL.get_rate_limit_key rl endpoint)
    by (apply key_depends_on_limits; reflexivity).
  rewrite Hk. unfold rl', RL.reset_retry_count. cbn [retry_counts]. apply lookup_delete_eq.
Qed.

(** The cached body posts at most once and leaves the limiter alone. *)
Lemma with_cache_effect `{PyLib} `{Remote} (endpoint_name : string) (kwargs : params)
    (st : Client) :
  let out := Api.with_cache Api.raw_call_endpoint endpoint_name kwargs st in
  limiter (snd out) = limiter st /\
  (posts (snd out) = posts st \/
   posts (snd out) = (posts st ++ [(endpoint_name, kwargs)])%list).
Proof.
  unfold Api.with_cache, Cache.get, Api.raw_call_endpoint.
  destruct (cache (store st) !! _) as [[v t]|]; [destruct (Qltb _ _)|].
  - destruct v; cbn [Api.set_store limiter posts snd]; try (split; [reflexivity|now left]).
    destruct (negb (in_schema _)); [split; [reflexivity|now left]|].
    destruct (negb has_auth_tokens); [split; [reflexivity|now left]|].
    cbn [Api.set_store limiter posts store clock].
    destruct (respond _ _ _) as [res|ex]; [destruct (negb (is_error_dict res))|];
      cbn [Api.set_store limiter posts snd]; (split; [reflexivity|now right]).
  - cbn [Api.set_store limiter posts store clock].
    destruct (negb (in_schema _)); [split; [reflexivity|now left]|].
    destruct (negb has_auth_tokens); [split; [reflexivity|now left]|].
    destruct (respond _ _ _) as [res|ex]; [destruct (negb (is_error_dict res))|];
      cbn [Api.set_store limiter posts snd]; (split; [reflexivity|now right]).
  - cbn [Api.set_store limiter posts store clock].
    destruct (negb (in_schema _)); [split; [reflexivity|now left]|].
    destruct (negb has_auth_tokens); [split; [reflexivity|now left]|].
    destruct (respond _ _ _) as [res|ex]; [destruct (negb (is_error_dict res))|];
      cbn [Api.set_store limiter posts snd]; (split; [reflexivity|now right]).
Qed.

Lemma rate_limit_loop_ends `{PyLib} `{Remote} (endpoint_name : string) (kwargs : params) :
  forall (fuel : nat) (retry_count : Z) (last : pyvalue) (st : Client),
    0 <= retry_count ->
    (Z.to_nat (Api.max_retries - retry_count) <= fuel)%nat ->
    exists r st' extra,
      Api.rate_limit_loop (Api.with_cache Api.raw_call_endpoint) fuel retry_count last
        endpoint_name kwargs st = Some (r, st') /\
      posts st' = (posts st ++ extra)%list /\
      (length extra <= Z.to_nat (Api.max_retries - retry_count))%nat /\
      Forall (fun sent => sent = (endpoint_name, kwargs)) extra.
Proof.
  unfold Api.max_retries.
  induction fuel as [|fuel IH]; intros rc last st Hrc Hfuel.
  - assert (E : (rc <? 3) = false) by (apply Z.ltb_ge; lia).
    cbn [Api.rate_limit_loop]. unfold Api.max_retries. rewrite E.
    exists (Return last), st, []. rewrite app_nil_r. repeat split; [simpl; lia|constructor].
  - cbn [Api.rate_limit_loop]. unfold Api.max_retries.
    destruct (rc <? 3) eqn:E.
    2:{ exists (Return last), st, []. rewrite app_nil_r.
        repeat split; [simpl; lia|constructor]. }
    apply Z.ltb_lt in E.
    destruct (RL.wait_if_needed (limiter st) endpoint_name (clock st))
      as [[[]|ex] [rl1 clk1]].
    2:{ exists (Raise ex), (Api.set_clock (Api.set_limiter st rl1) clk1), [].
        cbn [Api.set_clock Api.set_limiter posts]. rewrite app_nil_r.
        repeat split; [simpl; lia|constructor]. }
    set (st1 := Api.set_clock (Api.set_limiter st rl1) clk1).
    pose proof (with_cache_effect endpoint_name kwargs st1) as [_ Hposts].
    cbv zeta in Hposts.
    destruct (Api.with_cache Api.raw_call_endpoint endpoint_name kwargs st1)
      as [[res|ex] st2] eqn:Hcall; cbn [snd] in Hposts.
    2:{ exists (Raise ex), st2.
        destruct Hposts as [Hp|Hp]; [exists [] | exists [(endpoint_name, kwargs)]];
          rewrite Hp; cbn [st1 Api.set_clock Api.set_limiter posts]; rewrite ?app_nil_r;
          repeat split; try (simpl; lia); repeat constructor. }
    assert (Hone : exists extra1, posts st2 = (posts st ++ extra1)%list /\
                     (length extra1 <= 1)%nat /\
                     Forall (fun sent => sent = (endpoint_name, kwargs)) extra1).
    { destruct Hposts as [Hp|Hp]; [exists [] | exists [(endpoint_name, kwargs)]];
        rewrite Hp; cbn [st1 Api.set_clock Api.set_limiter posts]; rewrite ?app_nil_r;
        repeat split; try (simpl; lia); repeat constructor. }
    destruct Hone as (extra1 & Hp1 & Hl1 & Hf1).
    assert (Hdone : forall rl, exists r st' extra,
               Some (Return res, Api.set_limiter st2 rl) = Some (r, st') /\
               posts st' = (posts st ++ extra)%list /\
               (length extra <= Z.to_nat (3 - rc))%nat /\
               Forall (fun sent => sent = (endpoint_name, kwargs)) extra).
    { intros rl. exists (Return res), (Api.set_limiter st2 rl), extra1.
      cbn [Api.set_limiter posts]. repeat split; try assumption. lia. }
    destruct res as [| b | n | s | l | kvs]; try apply Hdone.
    destruct (dict_get "error" kvs) as [err|]; [|apply Hdone].
    destruct (Api.signals_rate_limit (py_str err)); [|apply Hdone].
    destruct (RL.handle_rate_limit_error _ endpoint_name _ (clock st2)) as [rl3 wait_time].
    unfold Api.max_retries.
    destruct (rc <? 3 - 1) eqn:E2.
    2:{ cbn [Api.set_limiter limiter]. apply Hdone. }
    apply Z.ltb_lt in E2.
    destruct (IH (rc + 1) (VDict kvs)
                (Api.set_clock (Api.set_limiter st2 rl3)
                   (sleep wait_time (clock (Api.set_limiter st2 rl3)))))
      as (r & st' & extra & Hloop & Hp & Hl & Hf); [lia|lia|].
    exists r, st', (extra1 ++ extra)%list.
    split; [exact Hloop|]. cbn [Api.set_clock Api.set_limiter posts] in Hp.
    rewrite Hp, Hp1, <- app_assoc. split; [reflexivity|]. split.
    + rewrite length_app. lia.
    + now apply Forall_app.
Qed.

(** The decorated [call_endpoint] always comes to an end within its three
    attempts, with a result or an exception, and on the way it posts the
    request at most three times and posts nothing else. *)
Theorem call_endpoint_ends_within_three_posts `{PyLib} `{Remote} :
  forall (endpoint_name : string) (kwargs : params) (st : Client),
  exists r st' extra,
    Api.call_endpoint endpoint_name kwargs st = Some (r, st') /\
    posts st' = (posts st ++ extra)%list /\
    (length extra <= 3)%nat /\
    Forall (fun sent => sent = (endpoint_name, kwargs)) extra.
Proof.
  intros e kwargs st.
  destruct (rate_limit_loop_ends e kwargs 3 0 VNone st) as (r & st' & extra & H1 & H2 & H3 & H4).
  - lia.
  - vm_compute. lia.
  - exists r, st', extra. repeat split; assumption.
Qed.

Lemma rate_limit_loop_clears_count `{PyLib} `{Remote} (endpoint_name : string)
    (kwargs : params) :
  forall (fuel : nat) (retry_count : Z) (last : pyvalue) (st : Client)
         (res : pyvalue) (st' : Client),
    retry_count < Api.max_retries ->
    Api.rate_limit_loop (Api.with_cache Api.raw_call_endpoint) fuel retry_count last
      endpoint_name kwargs st = Some (Return res, st') ->
    retry_counts (limiter st') !! RL.get_rate_limit_key (limiter st') endpoint_name = None.
Proof.
  unfold Api.max_retries.
  induction fuel as [|fuel IH]; intros rc last st res st' Hrc;
    cbn [Api.rate_limit_loop]; unfold Api.max_retries;
    (assert (E : (rc <? 3) = true) by (apply Z.ltb_lt; lia)); rewrite E; [discriminate|].
  destruct (RL.wait_if_needed (limiter st) endpoint_name (clock st))
    as [[[]|ex] [rl1 clk1]]; [|discriminate].
  destruct (Api.with_cache Api.raw_call_endpoint endpoint_name kwargs _)
    as [[res1|ex] st2]; [|discriminate].
  assert (Hdone : forall rl,
             Some (Return res1, Api.set_limiter st2 (RL.reset_retry_count rl endpoint_name))
             = Some (Return res, st') ->
             retry_counts (limiter st') !! RL.get_rate_limit_key (limiter st') endpoint_name
             = None).
  { intros rl [= _ <-]. cbn [Api.set_limiter limiter]. apply reset_clears_count. }
  destruct res1 as [| b | n | s | l | kvs]; try apply Hdone.
  destruct (dict_get "error" kvs) as [err|]; [|apply Hdone].
  destruct (Api.signals_rate_limit (py_str err)); [|apply Hdone].
  destruct (RL.handle_rate_limit_error _ endpoint_name _ (clock st2)) as [rl3 wait_time].
  unfold Api.max_retries.
  destruct (rc <? 3 - 1) eqn:E2.
  - apply Z.ltb_lt in E2. apply IH. lia.
  - cbn [Api.set_limiter limiter]. apply Hdone.
Qed.

(** Whenever the decorated [call_endpoint] returns a value, the retry
    count of the endpoint's class is cleared, also when the value returned
    is the rate-limit error of the third attempt: the exponential backoff
    of the next rate-limit error starts again at 2 seconds. *)
Theorem returned_call_clears_retry_count `{PyLib} `{Remote} :
  forall (endpoint_name : string) (kwargs : params) (st st' : Client) (res : pyvalue),
    Api.call_endpoint endpoint_name kwargs st = Some (Return res, st') ->
    retry_counts (limiter st') !! RL.get_rate_limit_key (limiter st') endpoint_name = None /\
    forall clk, snd (RL.handle_rate_limit_error (limiter st') endpoint_name None clk) = 2%Q.
Proof.
  intros e kwargs st st' res Hcall.
  assert (Hnone : retry_counts (limiter st') !! RL.get_rate_limit_key (limiter st') e = None).
  { eapply (rate_limit_loop_clears_count e kwargs 3 0 VNone st res st'); [reflexivity|].
    exact Hcall. }
  split; [exact Hnone|]. intros clk.
  unfold RL.handle_rate_limit_error. cbn [snd]. rewrite Hnone. reflexivity.
Qed.

Lemma returned_call_clears_retry_count_witness :
  let st := {| limiter := RL.init; store := Cache.global_cache;
               clock := mkClock 0 []; posts := [] |} in
  exists res st',
    Api.call_endpoint (H := Sample.pylib) (H0 := Sample.busy_remote) "getproduct" [] st
    = Some (Return res, st') /\
    length (posts st') = 3%nat /\
    retry_counts (limiter st') !! RL.get_rate_limit_key (limiter st') "getproduct" = None.
Proof.
  intros st.
  assert (Hcall : { out : pyvalue * Client |
                    Api.call_endpoint (H := Sample.pylib) (H0 := Sample.busy_remote)
                      "getproduct" [] st = Some (Return (fst out), snd out) /\
                    length (posts (snd out)) = 3%nat }).
  { eexists (_, _). cbn [fst snd]. split; [vm_compute; reflexivity|reflexivity]. }
  destruct Hcall as [[res st'] [Hcall Hposts]]. cbn [fst snd] in Hcall, Hposts.
  exists res, st'. split; [exact Hcall|]. split; [exact Hposts|].
  exact (proj1 (returned_call_clears_retry_count (H := Sample.pylib)
                  (H0 := Sample.busy_remote) "getproduct" [] st st' res Hcall)).
Defined.

(** ** A limit of zero *)

(** The limit of a key is 0 and a call of the key is on record. *)
Lemma zero_limit_raises (self : RateLimiter) (endpoint : string) (clk : Clock) (last : Q) :
  let k := RL.get_rate_limit_key self endpoint in
  rate_limits self !! k = Some 0 ->
  last_call_times self !! k = Some last ->
  fst (RL.wait_if_needed self endpoint clk) = Raise ZeroDivisionError.
Proof.
  intros k Hz Hl. unfold RL.wait_if_needed. fold k.
  destruct (backoff_until self !! k) as [u|]; [destruct (Qltb _ _)|];
    cbn [last_call_times rate_limits]; rewrite Hl, Hz; reflexivity.
Qed.

Lemma update_sets_limit (self : RateLimiter) (E message : string) (n : Z) :
  RL.search_limit message = Some n ->
  let self1 := RL.update_rate_limit_from_error self E message in
  rate_limits self1 !! PyStr.lower E = Some n /\
  RL.get_rate_limit_key self1 E = PyStr.lower E.
Proof.
  intros Hn self1. unfold self1, RL.update_rate_limit_from_error. rewrite Hn.
  assert (Hl : rate_limits
                 {| last_call_times := last_call_times self;
                    retry_counts := retry_counts self;
                    backoff_until := backoff_until self;
                    rate_limits := <[PyStr.lower E := n]> (rate_limits self) |}
               !! PyStr.lower E = Some n) by apply lookup_insert_eq.
  split; [exact Hl|]. unfold RL.get_rate_limit_key. now rewrite Hl.
Qed.

Lemma apply_op_keeps_zero (k : string) (o : RL.Op) (st : RateLimiter * Clock) :
  (forall e m, o <> RL.OpUpdate e m) ->
  rate_limits (fst st) !! k = Some 0 /\ is_Some (last_call_times (fst st) !! k) ->
  rate_limits (fst (RL.apply_op o st)) !! k = Some 0 /\
  is_Some (last_call_times (fst (RL.apply_op o st)) !! k).
Proof.
  intros Hno [Hz Hl]. destruct st as [self clk]. cbn [fst] in *.
  destruct o as [e | e ra | e | e m | d]; cbn [RL.apply_op fst].
  - pose proof (wait_keeps_limits self e clk) as Hlim. rewrite Hlim. split; [exact Hz|].
    destruct (decide (k = RL.get_rate_limit_key self e)) as [->|Hne].
    + unfold RL.wait_if_needed.
      destruct (backoff_until self !! _) as [u|]; [destruct (Qltb _ _)|];
        cbn [last_call_times rate_limits]; destruct Hl as [l Hl]; rewrite Hl, Hz;
        cbn [snd fst last_call_times]; eauto.
    + destruct (wait_other_keys self e clk k Hne) as (-> & _). exact Hl.
  - split; [exact Hz|exact Hl].
  - split; [exact Hz|exact Hl].
  - exfalso. now apply (Hno e m).
  - split; [exact Hz|exact Hl].
Qed.

(** The limit that [update_rate_limit_from_error] reads from a message
    can be 0 ("Only 0 API calls per minute").  From the second gated call
    of the endpoint on, [wait_if_needed] then ends in the
    [ZeroDivisionError] of [60.0 / calls_per_minute] instead of letting the
    call through, and goes on doing so whatever else the limiter is used
    for, until another error message sets a new limit. *)
Theorem zero_limit_blocks_endpoint :
  forall (self : RateLimiter) (E message : string) (clk1 : Clock)
         (ops : list RL.Op) (clk : Clock),
    RL.search_limit message = Some 0 ->
    Forall (fun o => forall e m, o <> RL.OpUpdate e m) ops ->
    let self1 := RL.update_rate_limit_from_error self E message in
    let st1 := snd (RL.wait_if_needed self1 E clk1) in
    let self2 := fst (RL.run_ops ops st1) in
    fst (RL.wait_if_needed self2 E clk) = Raise ZeroDivisionError.
Proof.
  intros self E message clk1 ops clk Hn Hops self1 st1 self2.
  destruct (update_sets_limit self E message 0 Hn) as [Hz Hk]. fold self1 in Hz, Hk.
  assert (Hst1 : rate_limits (fst st1) !! PyStr.lower E = Some 0 /\
                 is_Some (last_call_times (fst st1) !! PyStr.lower E)).
  { unfold st1. rewrite wait_keeps_limits. split; [exact Hz|].
    unfold RL.wait_if_needed. rewrite Hk.
    destruct (backoff_until self1 !! _) as [u|]; [destruct (Qltb _ _)|];
      cbn [last_call_times rate_limits];
      (destruct (last_call_times self1 !! PyStr.lower E) as [l|] eqn:Hl;
       [rewrite Hz; cbn [snd fst last_call_times]; eauto
       |cbn [snd fst last_call_times]; rewrite lookup_insert_eq; eauto]). }
  assert (Hrun : forall st, rate_limits (fst st) !! PyStr.lower E = Some 0 /\
                            is_Some (last_call_times (fst st) !! PyStr.lower E) ->
                 rate_limits (fst (RL.run_ops ops st)) !! PyStr.lower E = Some 0 /\
                 is_Some (last_call_times (fst (RL.run_ops ops st)) !! PyStr.lower E)).
  { clear -Hops. induction Hops as [|o ops Ho _ IH]; intros st Hst; [exact Hst|].
    cbn [RL.run_ops fold_left]. apply IH. now apply apply_op_keeps_zero. }
  destruct (Hrun st1 Hst1) as [Hz2 [last Hl2]]. fold self2 in Hz2, Hl2.
  assert (Hk2 : RL.get_rate_limit_key self2 E = PyStr.lower E).
  { unfold RL.get_rate_limit_key. now rewrite Hz2. }
  apply (zero_limit_raises self2 E clk last); rewrite Hk2; assumption.
Qed.

Lemma zero_limit_blocks_endpoint_witness :
  let self1 := RL.update_rate_limit_from_error RL.init "getproducts"
                 "429: Only 0 API calls per minute guaranteed" in
  let st1 := snd (RL.wait_if_needed self1 "getproducts" (mkClock 0 [])) in
  let self2 := fst (RL.run_ops [RL.OpElapse 3600; RL.OpReset "getproducts"] st1) in
  fst (RL.wait_if_needed self2 "getproducts" (mkClock 3600 [])) = Raise ZeroDivisionError.
Proof.
  refine (zero_limit_blocks_endpoint RL.init "getproducts"
            "429: Only 0 API calls per minute guaranteed" (mkClock 0 [])
            [RL.OpElapse 3600; RL.OpReset "getproducts"] (mkClock 3600 []) _ _).
  - vm_compute. reflexivity.
  - repeat constructor; discriminate.
Defined.
(** ** More on [utils/request_queue.py] *)

Lemma run_app names (evs1 evs2 : list Event) (s : RequestQueue) :
  Queue.run names (evs1 ++ evs2) s = Queue.run names evs2 (Queue.run names evs1 s).
Proof. apply fold_left_app. Qed.

(** *** Results are kept for ever *)

Lemma deliver_results i got s : results (Queue.deliver i got s) = results s.
Proof. destruct got as [[[np t] request]|e]; reflexivity. Qed.

Lemma step_results names ev s :
  (forall k, is_Some (results s !! k) -> is_Some (results (Queue.step names ev s) !! k)) /\
  (size (results s) <= size (results (Queue.step names ev s)))%nat.
Proof.
  assert (Hstore : forall k r s0,
             (forall k', is_Some (results s0 !! k') ->
                         is_Some (results (Queue.store_result k r s0) !! k')) /\
             (size (results s0) <= size (results (Queue.store_result k r s0)))%nat).
  { intros k r s0. cbn [Queue.store_result results]. split.
    - intros k' Hk'. apply lookup_insert_is_Some.
      destruct (decide (k = k')); [now left|now right].
    - destruct (results s0 !! k) as [r0|] eqn:E.
      + rewrite map_size_insert_Some by eauto. lia.
      + rewrite map_size_insert_None by assumption. lia. }
  assert (Hsame : forall s', results s' = results s ->
             (forall k, is_Some (results s !! k) -> is_Some (results s' !! k)) /\
             (size (results s) <= size (results s'))%nat).
  { intros s' ->. split; auto. }
  destruct ev as [uuid ep p prio callback at_time| | |i|i|j res at_time|j msg at_time|j];
    cbn [Queue.step].
  - apply Hsame. unfold Queue.add_request.
    destruct (Queue.heappush _ _) as [[[]|e] heap]; cbn [snd]; [|reflexivity].
    unfold Queue.start_processing. cbn [processing Queue.set_queue].
    destruct (negb (processing s)); reflexivity.
  - apply Hsame. unfold Queue.start_processing. destruct (negb (processing s)); reflexivity.
  - apply Hsame. reflexivity.
  - apply Hsame. unfold Queue.worker_step.
    destruct (workers s !! i) as [w|]; [|reflexivity].
    destruct (pc w); try reflexivity.
    + destruct (must_cancel w); [reflexivity|].
      destruct (Queue.import_from names "get_client"); reflexivity.
    + destruct (processing s); [destruct (_ >=? _)|]; reflexivity.
    + destruct (must_cancel w); reflexivity.
    + destruct (must_cancel w); [reflexivity|].
      destruct (Queue.heappop (queue s)) as [[got heap]|]; [|reflexivity].
      now rewrite deliver_results.
    + now rewrite deliver_results.
  - apply Hsame. unfold Queue.get_step.
    destruct (workers s !! i) as [w|]; [|reflexivity].
    destruct (pc w); try reflexivity.
    destruct (Queue.heappop (queue s)) as [[got heap]|]; reflexivity.
  - unfold Queue.call_returns.
    destruct (tasks s !! j) as [[request [|]]|]; try (split; auto; fail).
    destruct (has_callback request);
      cbn [Queue.set_phase Queue.release results]; apply Hstore.
  - unfold Queue.call_raises.
    destruct (tasks s !! j) as [[request [|]]|]; try (split; auto; fail).
    cbn [Queue.release results]. apply Hstore.
  - unfold Queue.callback_ends.
    destruct (tasks s !! j) as [[request [|]]|]; split; auto.
Qed.

(** Nothing ever removes an entry of [self.results]: whatever the queue
    does afterwards, a request that has a result on record keeps having
    one, and the number of completed requests that [get_queue_stats]
    reports never goes down. *)
Theorem results_are_never_removed :
  forall (names : list string) (evs : list Event) (s : RequestQueue),
    let s' := Queue.run names evs s in
    (forall request_id, is_Some (results s !! request_id) ->
                        is_Some (results s' !! request_id)) /\
    Queue.completed_requests (Queue.get_queue_stats s)
    <= Queue.completed_requests (Queue.get_queue_stats s').
Proof.
  intros names evs. induction evs as [|ev evs IH]; intros s s'.
  - split; [auto|]. unfold s'. cbn. lia.
  - unfold s'. cbn [Queue.run fold_left].
    destruct (step_results names ev s) as [Hk Hsz].
    destruct (IH (Queue.step names ev s)) as [IHk IHsz].
    split.
    + intros k Hs. apply IHk, Hk, Hs.
    + cbn [Queue.get_queue_stats Queue.completed_requests] in *.
      unfold Queue.run in IHsz. lia.
Qed.

(** *** No request leaves the queue of the module as it stands *)

Lemma source_step_keeps_queue (ev : Event) (s : RequestQueue) (x : Queue.item) :
  Queue.idle s -> x ∈ queue s -> x ∈ queue (Queue.step Queue.api_client_names ev s).
Proof.
  intros (Ht & Ha & Hr & Hw) Hx.
  assert (Hstart : forall s0, queue (Queue.start_processing s0) = queue s0).
  { intros s0. unfold Queue.start_processing. destruct (negb (processing s0)); reflexivity. }
  destruct ev as [uuid ep p prio callback at_time| | |i|i|j res at_time|j msg at_time|j];
    cbn [Queue.step].
  - unfold Queue.add_request.
    match goal with
    | |- context [Queue.heappush ?h ?y] => pose proof (heappush_Permutation h y) as Hperm
    end.
    destruct (Queue.heappush _ _) as [[[]|e] heap]; cbn [snd] in *;
      [rewrite Hstart|]; cbn [Queue.set_queue queue];
      rewrite Hperm; apply elem_of_app; now left.
  - now rewrite Hstart.
  - exact Hx.
  - unfold Queue.worker_step.
    destruct (workers s !! i) as [w|] eqn:Hi; [|exact Hx].
    pose proof (proj1 (Forall_lookup _ _) Hw i w Hi) as Hout.
    destruct (pc w) eqn:Hpc; try (destruct Hout as [H|[H|H]]; congruence); try exact Hx.
    destruct (must_cancel w); [exact Hx|].
    destruct (Queue.import_from Queue.api_client_names "get_client"); exact Hx.
  - unfold Queue.get_step.
    destruct (workers s !! i) as [w|] eqn:Hi; [|exact Hx].
    pose proof (proj1 (Forall_lookup _ _) Hw i w Hi) as Hout.
    destruct (pc w) eqn:Hpc; try (destruct Hout as [H|[H|H]]; congruence); exact Hx.
  - unfold Queue.call_returns. rewrite Ht. exact Hx.
  - unfold Queue.call_raises. rewrite Ht. exact Hx.
  - unfold Queue.callback_ends. rewrite Ht. exact Hx.
Qed.

Lemma source_run_keeps_queue (evs : list Event) :
  forall (s : RequestQueue) (x : Queue.item),
    Queue.idle s -> x ∈ queue s -> x ∈ queue (Queue.run Queue.api_client_names evs s).
Proof.
  induction evs as [|ev evs IH]; intros s x Hs Hx; [exact Hx|].
  cbn [Queue.run fold_left]. apply IH.
  - apply source_step_idle, Hs.
  - now apply source_step_keeps_queue.
Qed.

(** With the modules as they stand no request ever leaves the queue:
    whatever happens after [add_request] was called for it, the tuple
    made for the request is among the items of the [PriorityQueue], also
    when [queue.put] raised for it. *)
Theorem source_queue_keeps_every_request :
  forall (mc : Z) (evs : list Event)
         (uuid endpoint : string) (p : params) (priority : Z) (callback : bool) (at_time : Q),
    In (Add uuid endpoint p priority callback at_time) evs ->
    (- priority, at_time,
     {| id := uuid; endpoint := endpoint; req_params := p; has_callback := callback;
        priority := priority; created_at := at_time |})
    ∈ queue (Queue.run Queue.api_client_names evs (Queue.init mc)).
Proof.
  intros mc evs uuid endpoint p priority callback at_time Hin.
  apply in_split in Hin as (evs1 & evs2 & ->).
  rewrite run_app. cbn [Queue.run fold_left].
  destruct (source_run_idle evs1 (Queue.init mc) (init_idle mc)) as (Hidle & _).
  fold (Queue.run Queue.api_client_names evs1 (Queue.init mc)).
  set (s1 := Queue.run Queue.api_client_names evs1 (Queue.init mc)) in *.
  apply (source_run_keeps_queue evs2).
  - apply source_step_idle, Hidle.
  - cbn [Queue.step]. unfold Queue.add_request. cbn [created_at].
    match goal with
    | |- context [Queue.heappush ?h ?y] => pose proof (heappush_Permutation h y) as Hperm
    end.
    destruct (Queue.heappush _ _) as [[[]|e] heap]; cbn [snd] in *.
    + unfold Queue.start_processing. cbn [processing Queue.set_queue].
      destruct (negb (processing s1)); cbn [queue Queue.set_queue]; rewrite Hperm;
        apply elem_of_app; right; apply list_elem_of_singleton; reflexivity.
    + cbn [Queue.set_queue queue]. rewrite Hperm.
      apply elem_of_app; right; apply list_elem_of_singleton; reflexivity.
Qed.

(** The second request is created at the instant of the first, so
    [queue.put] raises for it; it is in the queue all the same. *)
Lemma source_queue_keeps_every_request_witness :
  let evs := [Add "r1" "getproduct" [] 5 false 0; Work 0;
              Add "r2" "getproduct" [] 5 false 0; Get 0; Work 0; Stop] in
  fst (Queue.add_request "r2" "getproduct" [] 5 false 0
         (Queue.run Queue.api_client_names [Add "r1" "getproduct" [] 5 false 0; Work 0]
            (Queue.init 2)))
  = Raise Queue.unorderable /\
  (-5, 0%Q,
   {| id := "r2"; endpoint := "getproduct"; req_params := []; has_callback := false;
      priority := 5; created_at := 0 |})
  ∈ queue (Queue.run Queue.api_client_names evs (Queue.init 2)).
Proof.
  intros evs. split; [vm_compute; reflexivity|].
  refine (source_queue_keeps_every_request 2 evs "r2" "getproduct" [] 5 false 0 _).
  right. right. left. reflexivity.
Defined.

(** *** The worker that is gone *)

(** What holds of the module as it stands while nobody calls
    [stop_processing]. *)
Lemma unstopped_step (ev : Event) (s : RequestQueue) :
  ev <> Stop ->
  tasks s = [] ->
  (workers s = [] /\ processing s = false) \/
  (exists w, workers s = [w] /\ processing s = true /\ must_cancel w = false /\
             (pc w = Importing \/
              pc w = Crashed (ImportError "cannot import name 'get_client'"))) ->
  let s' := Queue.step Queue.api_client_names ev s in
  (workers s' = [] /\ processing s' = false) \/
  (exists w, workers s' = [w] /\ processing s' = true /\ must_cancel w = false /\
             (pc w = Importing \/
              pc w = Crashed (ImportError "cannot import name 'get_client'"))).
Proof.
  intros Hev Ht Hs s'. subst s'.
  assert (Hstart : forall s0,
             workers s0 = workers s -> processing s0 = processing s ->
             (workers (Queue.start_processing s0) = [] /\
              processing (Queue.start_processing s0) = false) \/
             (exists w, workers (Queue.start_processing s0) = [w] /\
                        processing (Queue.start_processing s0) = true /\
                        must_cancel w = false /\
                        (pc w = Importing \/
                         pc w = Crashed (ImportError "cannot import name 'get_client'")))).
  { intros s0 Hw0 Hp0. unfold Queue.start_processing. rewrite Hp0.
    destruct Hs as [[Hw Hp]|(w & Hw & Hp & Hc & Hpc)]; rewrite Hp; cbn [negb].
    - right. exists (mkWorker Importing false). cbn [workers processing].
      rewrite Hw0, Hw. repeat split. now left.
    - right. exists w. rewrite Hw0, Hp0. auto. }
  destruct ev as [uuid ep p prio callback at_time| | |i|i|j res at_time|j msg at_time|j];
    cbn [Queue.step]; try congruence.
  - unfold Queue.add_request.
    destruct (Queue.heappush _ _) as [[[]|e] heap]; cbn [snd].
    + apply Hstart; reflexivity.
    + exact Hs.
  - apply Hstart; reflexivity.
  - unfold Queue.worker_step.
    destruct Hs as [[Hw Hp]|(w & Hw & Hp & Hc & Hpc)]; rewrite Hw.
    + rewrite lookup_nil. now left.
    + destruct i as [|i]; [|right; exists w; auto].
      cbn [lookup list_lookup]. rewrite Hc.
      destruct Hpc as [Hpc|Hpc]; rewrite Hpc.
      * rewrite import_fails_in_source. right.
        exists (mkWorker (Crashed (ImportError "cannot import name 'get_client'")) false).
        cbn [Queue.set_worker workers processing]. rewrite Hw.
        repeat split; auto.
      * right. exists w. auto.
  - unfold Queue.get_step.
    destruct Hs as [[Hw Hp]|(w & Hw & Hp & Hc & Hpc)]; rewrite Hw.
    + rewrite lookup_nil. now left.
    + destruct i as [|i]; [|right; exists w; auto].
      cbn [lookup list_lookup].
      destruct Hpc as [Hpc|Hpc]; rewrite Hpc; right; exists w; auto.
  - unfold Queue.call_returns. rewrite Ht. exact Hs.
  - unfold Queue.call_raises. rewrite Ht. exact Hs.
  - unfold Queue.callback_ends. rewrite Ht. exact Hs.
Qed.

(** With the modules as they stand, and as long as nobody calls
    [stop_processing], the queue has at most one worker task, started by
    the first [add_request] or [start_processing]; its first run ends it
    with the [ImportError], and it is never replaced, for [processing]
    stays [True]: [get_queue_stats] goes on reporting a queue that is
    processing while no task is left to process anything. *)
Theorem crashed_worker_is_not_replaced :
  forall (mc : Z) (evs : list Event),
    Forall (fun ev => ev <> Stop) evs ->
    let s := Queue.run Queue.api_client_names evs (Queue.init mc) in
    (workers s = [] /\ Queue.stat_processing (Queue.get_queue_stats s) = false) \/
    (exists w,
        workers s = [w] /\
        Queue.stat_processing (Queue.get_queue_stats s) = true /\
        (pc w = Importing \/ pc w = Crashed (ImportError "cannot import name 'get_client'")) /\
        let s1 := Queue.step Queue.api_client_names (Work 0) s in
        workers s1 = [mkWorker (Crashed (ImportError "cannot import name 'get_client'")) false] /\
        Queue.stat_processing (Queue.get_queue_stats s1) = true).
Proof.
  intros mc evs Hevs s.
  assert (Hinv : (workers s = [] /\ processing s = false) \/
                 (exists w, workers s = [w] /\ processing s = true /\ must_cancel w = false /\
                            (pc w = Importing \/
                             pc w = Crashed (ImportError "cannot import name 'get_client'")))).
  { subst s. generalize (init_idle mc).
    assert (H0 : (workers (Queue.init mc) = [] /\ processing (Queue.init mc) = false) \/
                 (exists w, workers (Queue.init mc) = [w] /\ processing (Queue.init mc) = true /\
                            must_cancel w = false /\
                            (pc w = Importing \/
                             pc w = Crashed (ImportError "cannot import name 'get_client'"))))
      by (left; split; reflexivity).
    revert H0. generalize (Queue.init mc).
    induction Hevs as [|ev evs Hev _ IH]; intros s0 H0 Hidle; [exact H0|].
    cbn [Queue.run fold_left]. apply IH.
    - apply unstopped_step; [exact Hev|apply Hidle|exact H0].
    - apply source_step_idle, Hidle. }
  destruct Hinv as [[Hw Hp]|(w & Hw & Hp & Hc & Hpc)]; [left; auto|].
  right. exists w. split; [exact Hw|]. split; [exact Hp|]. split; [exact Hpc|].
  cbn [Queue.step Queue.get_queue_stats Queue.stat_processing]. unfold Queue.worker_step.
  rewrite Hw. cbn [lookup list_lookup]. rewrite Hc.
  destruct Hpc as [Hpc|Hpc]; rewrite Hpc.
  - rewrite import_fails_in_source. cbn [Queue.set_worker workers processing].
    rewrite Hw. split; [reflexivity|exact Hp].
  - split; [|exact Hp]. rewrite Hw. destruct w as [pcw mcw]. cbn in Hpc, Hc. now subst.
Qed.

Lemma crashed_worker_is_not_replaced_witness :
  let s := Queue.run Queue.api_client_names
             (Queue.load 3 ++ [Work 0; Add "late" "getproduct" [] 9 false 7; Start; Work 0])%list
             (Queue.init 2) in
  workers s = [mkWorker (Crashed (ImportError "cannot import name 'get_client'")) false] /\
  Queue.get_queue_stats s
  = {| Queue.queued_requests := 4; Queue.stat_active_requests := 0;
       Queue.completed_requests := 0; Queue.stat_max_concurrent := 2;
       Queue.stat_processing := true |}.
Proof.
  intros s.
  destruct (crashed_worker_is_not_replaced 2
              (Queue.load 3 ++ [Work 0; Add "late" "getproduct" [] 9 false 7; Start; Work 0])%list)
    as [[Hnone _]|(w & Hw & _)].
  - vm_compute. repeat constructor; discriminate.
  - exfalso. revert Hnone. vm_compute. discriminate.
  - split; [|vm_compute; reflexivity]. fold s in Hw. rewrite Hw.
    revert Hw. vm_compute. intros [= <-]. reflexivity.
Defined.

(** *** Requests created at the same instant *)

Lemma ties_item_lt (a b : Queue.item) : Queue.ties a b = true -> Queue.item_lt a b = None.
Proof.
  destruct a as [[pa ta] ra], b as [[pb tb] rb]. unfold Queue.ties, Queue.item_lt.
  cbn [fst snd]. intros H. apply andb_true_iff in H as [-> ->]. reflexivity.
Qed.

Lemma heappush_tie (heap : list Queue.item) (x parent : Queue.item) :
  heap !! ((length heap - 1) / 2)%nat = Some parent ->
  Queue.ties x parent = true ->
  Queue.heappush heap x = (Raise Queue.unorderable, (heap ++ [x])%list).
Proof.
  intros Hparent Htie. unfold Queue.heappush.
  pose proof (lookup_lt_Some _ _ _ Hparent) as Hlt.
  destruct (length heap) as [|n] eqn:Hlen; [cbn in Hlt; lia|].
  cbn [Queue.siftdown].
  change (0 <? S n)%nat with true. cbv iota.
  rewrite (list_lookup_middle heap [] x (S n)) by (symmetry; exact Hlen).
  rewrite lookup_app_l by lia. rewrite Hparent.
  rewrite (ties_item_lt _ _ Htie). reflexivity.
Qed.

(** [add_request] raises [TypeError] when the new request has the
    priority and the creation time of the item that the heap compares it
    with first, the one at the parent of the place it is appended at (the
    first item, when one or two are queued): [queue.put] then compares
    the two [QueuedRequest]s.  The request is in the queue all the same,
    its id is not returned, and [start_processing] is not reached. *)
Theorem tied_add_request_raises :
  forall (s : RequestQueue) (uuid endpoint : string) (p : params) (priority : Z)
         (callback : bool) (at_time : Q) (parent : Queue.item),
    let request := {| id := uuid; endpoint := endpoint; req_params := p;
                      has_callback := callback; priority := priority;
                      created_at := at_time |} in
    queue s !! ((length (queue s) - 1) / 2)%nat = Some parent ->
    Queue.ties (- priority, at_time, request) parent = true ->
    Queue.add_request uuid endpoint p priority callback at_time s
    = (Raise Queue.unorderable,
       Queue.set_queue (queue s ++ [(- priority, at_time, request)]) s) /\
    processing (snd (Queue.add_request uuid endpoint p priority callback at_time s))
    = processing s /\
    workers (snd (Queue.add_request uuid endpoint p priority callback at_time s))
    = workers s.
Proof.
  intros s uuid endpoint p priority callback at_time parent request Hparent Htie.
  assert (Hadd : Queue.add_request uuid endpoint p priority callback at_time s
                 = (Raise Queue.unorderable,
                    Queue.set_queue (queue s ++ [(- priority, at_time, request)]) s)).
  { unfold Queue.add_request. cbn [created_at]. fold request.
    now rewrite (heappush_tie _ _ _ Hparent Htie). }
  rewrite Hadd. cbn [snd Queue.set_queue processing workers]. auto.
Qed.

Lemma tied_add_request_raises_witness :
  let s := snd (Queue.add_request "r1" "getproduct" [] 5 false 0 (Queue.init 2)) in
  fst (Queue.add_request "r2" "getproduct" [] 5 false 0 s) = Raise Queue.unorderable /\
  List.map (fun x => id (snd x))
    (queue (snd (Queue.add_request "r2" "getproduct" [] 5 false 0 s))) = ["r1"; "r2"].
Proof.
  intros s.
  destruct (tied_add_request_raises s "r2" "getproduct" [] 5 false 0
              (-5, 0%Q, {| id := "r1"; endpoint := "getproduct"; req_params := [];
                           has_callback := false; priority := 5; created_at := 0 |})
              eq_refl eq_refl) as (Hadd & _ & _).
  rewrite Hadd. split; reflexivity.
Defined.

(** *** Stopping the queue of the module as it stands *)

(** With the modules as they stand [stop_processing] raises the
    [ImportError] of the worker task whenever that task has run:
    [cancel()] does nothing to a task that is done, the [await] raises
    its exception again, and only [CancelledError] is caught.  The method
    returns only when the task had not run yet, the pending task then
    being cancelled before its first line, or had been cancelled by an
    earlier [stop_processing]. *)
Theorem stop_processing_raises_import_error :
  forall (mc : Z) (s : RequestQueue) (w : Worker) (ws : list Worker),
    Queue.reachable Queue.api_client_names mc s ->
    workers s = w :: ws ->
    let s1 := Queue.stop_processing s in
    processing s1 = false /\
    queue s1 = queue s /\
    (pc w <> Importing -> pc w <> Cancelled ->
     workers s1 = w :: ws /\
     Queue.awaited w = Some (Raise (ImportError "cannot import name 'get_client'"))) /\
    (pc w = Cancelled ->
     workers s1 = w :: ws /\ Queue.awaited w = Some (Return tt)) /\
    (pc w = Importing ->
     workers s1 = mkWorker Importing true :: ws /\
     Queue.awaited (mkWorker Importing true) = None /\
     workers (Queue.step Queue.api_client_names (Work 0) s1) = mkWorker Cancelled false :: ws /\
     Queue.awaited (mkWorker Cancelled false) = Some (Return tt)).
Proof.
  intros mc s w ws (evs & ->) Hws s1.
  destruct (source_run_idle evs (Queue.init mc) (init_idle mc)) as ((_ & _ & _ & Hw) & _).
  rewrite Hws in Hw. apply Forall_cons in Hw as [Hout _].
  subst s1. unfold Queue.stop_processing. cbn [processing queue workers].
  rewrite Hws. unfold Queue.cancel.
  split; [reflexivity|]. split; [reflexivity|].
  destruct Hout as [Hpc|[Hpc|Hpc]]; rewrite Hpc; cbn [Queue.is_live].
  - split; [intros H; congruence|]. split; [intros H; congruence|]. intros _.
    split; [reflexivity|]. split; [reflexivity|]. split; [|reflexivity].
    cbn [Queue.step]. unfold Queue.worker_step. cbn [workers lookup list_lookup pc must_cancel].
    reflexivity.
  - split; [intros _ H; congruence|]. split; [|intros H; congruence]. intros _.
    split; [reflexivity|]. unfold Queue.awaited. now rewrite Hpc.
  - split; [|split; intros H; congruence]. intros _ _.
    split; [reflexivity|]. unfold Queue.awaited. now rewrite Hpc.
Qed.

(** A request is enqueued and the event loop runs the worker once; the
    [stop_processing] that follows raises. *)
Lemma stop_processing_raises_import_error_witness :
  let s := Queue.run Queue.api_client_names [Add "r1" "getproduct" [] 5 false 0; Work 0]
             (Queue.init 2) in
  exists w, workers (Queue.stop_processing s) = [w] /\
            Queue.awaited w = Some (Raise (ImportError "cannot import name 'get_client'")).
Proof.
  intros s.
  destruct (stop_processing_raises_import_error 2 s
              (mkWorker (Crashed (ImportError "cannot import name 'get_client'")) false) []
              (ex_intro _ _ eq_refl) eq_refl) as (_ & _ & Hran & _).
  destruct (Hran ltac:(discriminate) ltac:(discriminate)) as [Hws Haw].
  eexists. split; [exact Hws|exact Haw].
Defined.
(** *** The queue of the module as it stands *)

(** The worker of the module as it stands ends at its first line, so no
    result is ever recorded.  A caller that enqueued a request and waits
    for it with [get_result] is therefore always answered by the timeout
    error, after about [timeout] seconds, whatever the request was. *)
Theorem source_queue_answers_only_timeouts :
  forall (mc : Z) (history : nat -> gmap string ResultData) (request_id : string)
         (timeout : Q) (clk : Clock),
    (forall k, exists s, Queue.reachable Queue.api_client_names mc s /\ history k = results s) ->
    exists clk',
      Queue.get_result history request_id timeout (Queue.checks_within timeout) clk
      = Some (Queue.timed_out request_id, clk').
Proof.
  intros mc history request_id timeout clk Hhist.
  assert (Hnone : forall k, history k !! request_id = None).
  { intros k. destruct (Hhist k) as (s & Hs & ->).
    destruct (source_worker_never_dispatches mc s Hs) as (_ & _ & ->). apply lookup_empty. }
  unfold Queue.get_result.
  destruct (get_result_loop_ends history request_id (time_time clk) timeout
              (Queue.checks_within timeout) 0%nat clk) as (r & clk' & Hloop).
  { unfold time_time. pose proof (checks_within_enough timeout). lra. }
  exists clk'. rewrite Hloop.
  destruct (get_result_loop_sound _ _ _ _ _ _ _ _ _ Hloop) as [->|(k & rd & Hk & _)];
    [reflexivity|]. rewrite Hnone in Hk. discriminate.
Qed.

Lemma source_queue_answers_only_timeouts_witness :
  let s := Queue.run Queue.api_client_names
             [Add "r1" "getproduct" [] 5 false 0; Work 0; Work 0] (Queue.init 2) in
  exists clk',
    Queue.get_result (fun _ => results s) "r1" 30 (Queue.checks_within 30) (mkClock 0 [])
    = Some (Queue.timed_out "r1", clk').
Proof.
  intros s.
  refine (source_queue_answers_only_timeouts 2 (fun _ => results s) "r1" 30 (mkClock 0 []) _).
  intros _. exists s. split; [|reflexivity]. eexists. reflexivity.
Defined.

(** *** Bulk requests *)

Lemma item_lt_None_ties (a b : Queue.item) : Queue.item_lt a b = None -> Queue.ties a b = true.
Proof.
  destruct a as [[pa ta] ra], b as [[pb tb] rb]. unfold Queue.ties, Queue.item_lt.
  cbn [fst snd]. destruct (pa =? pb); cbn [negb]; [|discriminate].
  destruct (Qeq_bool ta tb); cbn [negb]; [reflexivity|discriminate].
Qed.

Lemma siftdown_no_tie (turns : nat) :
  forall (heap : list Queue.item) (pos : nat) (x : Queue.item),
    heap !! pos = Some x ->
    (forall j y, j <> pos -> heap !! j = Some y -> Queue.ties x y = false) ->
    fst (Queue.siftdown turns heap 0 pos) = Return tt.
Proof.
  induction turns as [|turns IH]; intros heap pos x Hpos Hno; [reflexivity|].
  cbn [Queue.siftdown].
  destruct (0 <? pos)%nat eqn:Hlt; [|reflexivity].
  apply Nat.ltb_lt in Hlt. rewrite Hpos.
  assert (Hpar : ((pos - 1) / 2 < pos)%nat).
  { assert ((pos - 1) / 2 <= pos - 1)%nat by (apply Nat.Div0.div_le_upper_bound; lia). lia. }
  set (parentpos := ((pos - 1) / 2)%nat) in *.
  destruct (heap !! parentpos) as [parent|] eqn:Hparent; [|reflexivity].
  assert (Hxp : Queue.ties x parent = false) by (apply (Hno parentpos); [lia|exact Hparent]).
  destruct (Queue.item_lt x parent) as [[|]|] eqn:Hcmp.
  - apply (IH _ _ x).
    + unfold Queue.swap. rewrite Hpos, Hparent.
      rewrite list_lookup_insert_ne by lia.
      apply list_lookup_insert_eq. eapply lookup_lt_Some; eauto.
    + intros j y Hj Hy. unfold Queue.swap in Hy. rewrite Hpos, Hparent in Hy.
      destruct (decide (j = pos)) as [->|Hjp].
      * rewrite list_lookup_insert_eq in Hy
          by (rewrite length_insert; eapply lookup_lt_Some; eauto).
        injection Hy as <-. exact Hxp.
      * rewrite list_lookup_insert_ne in Hy by lia.
        rewrite list_lookup_insert_ne in Hy by lia.
        apply (Hno j); assumption.
  - reflexivity.
  - apply item_lt_None_ties in Hcmp. congruence.
Qed.

(** [queue.put] does not raise for an item that ties with none of those
    queued. *)
Lemma heappush_no_tie (heap : list Queue.item) (x : Queue.item) :
  (forall y, y ∈ heap -> Queue.ties x y = false) ->
  fst (Queue.heappush heap x) = Return tt.
Proof.
  intros Hno. unfold Queue.heappush. apply (siftdown_no_tie _ _ _ x).
  - now apply list_lookup_middle.
  - intros j y Hj Hy. apply Hno.
    apply lookup_app_Some in Hy as [Hy|[Hge Hy]].
    + eapply list_elem_of_lookup_2; eauto.
    + destruct (j - length heap)%nat as [|k] eqn:Hk; [lia|].
      cbn in Hy. try rewrite lookup_nil in Hy. discriminate.
Qed.

Lemma add_request_no_tie (uuid ep : string) (p : params) (prio : Z) (callback : bool)
    (at_time : Q) (s : RequestQueue) :
  let x := (- prio, at_time,
            {| id := uuid; endpoint := ep; req_params := p; has_callback := callback;
               priority := prio; created_at := at_time |}) in
  (forall y, y ∈ queue s -> Queue.ties x y = false) ->
  let out := Queue.add_request uuid ep p prio callback at_time s in
  fst out = Return uuid /\
  queue (snd out) ≡ₚ queue s ++ [x] /\
  processing (snd out) = true /\
  workers (snd out) = (if processing s then workers s else mkWorker Importing false :: workers s).
Proof.
  intros x Hno out. subst out. unfold Queue.add_request. cbn [created_at]. fold x.
  pose proof (heappush_no_tie (queue s) x Hno) as Hret.
  pose proof (heappush_Permutation (queue s) x) as Hperm.
  destruct (Queue.heappush (queue s) x) as [[[]|e] heap]; cbn [fst snd] in *; [|discriminate].
  unfold Queue.start_processing. cbn [processing Queue.set_queue].
  destruct (processing s) eqn:Hp;
    cbn [negb fst snd queue processing workers Queue.set_queue]; rewrite ?Hp;
    repeat split; auto.
Qed.

(** [add_bulk_requests] is [add_request] once per element, in order.
    When none of the new requests ties on priority and creation time with
    a queued one or with another new one, no [queue.put] raises: the ids
    come back in the order of the parameters, the queue holds the former
    items and the new ones, all with the given priority and without a
    callback, and processing is on afterwards if anything was added, with
    no more than one worker started for the whole list. *)
Theorem add_bulk_requests_enqueues_in_order :
  forall (names : list string) (endpoint : string)
         (params_list : list (string * params * Q)) (priority : Z) (s : RequestQueue),
    let items := List.map (fun x => (- priority, snd x,
                                      {| id := fst (fst x); endpoint := endpoint;
                                         req_params := snd (fst x); has_callback := false;
                                         priority := priority; created_at := snd x |}))
                          params_list in
    (forall x y, x ∈ items -> y ∈ queue s -> Queue.ties x y = false) ->
    (forall i j x y, items !! i = Some x -> items !! j = Some y -> (i < j)%nat ->
                     Queue.ties y x = false) ->
    let out := Queue.add_bulk_requests endpoint params_list priority s in
    fst out = Return (List.map (fun x => fst (fst x)) params_list) /\
    snd out = Queue.run names
                (List.map (fun x => Add (fst (fst x)) endpoint (snd (fst x)) priority false (snd x))
                          params_list) s /\
    queue (snd out) ≡ₚ queue s ++ items /\
    (params_list <> [] -> processing (snd out) = true) /\
    (length (workers (snd out)) <= S (length (workers s)))%nat.
Proof.
  intros names ep params_list prio.
  induction params_list as [|[[uuid p] t] rest IH]; intros s items Hold Hnew out.
  - unfold out, items. cbn. rewrite app_nil_r.
    split; [reflexivity|]. split; [reflexivity|]. split; [reflexivity|].
    split; [congruence|lia].
  - unfold out. cbn [Queue.add_bulk_requests].
    set (x := (- prio, t, {| id := uuid; endpoint := ep; req_params := p;
                             has_callback := false; priority := prio; created_at := t |})).
    set (rest_items := List.map (fun x => (- prio, snd x,
                                      {| id := fst (fst x); endpoint := ep;
                                         req_params := snd (fst x); has_callback := false;
                                         priority := prio; created_at := snd x |})) rest).
    assert (Hitems : items = x :: rest_items) by reflexivity.
    destruct (add_request_no_tie uuid ep p prio false t s) as (Hret & Hq1 & Hp1 & Hw1).
    { intros y Hy. apply Hold; [|exact Hy]. rewrite Hitems. now left. }
    destruct (Queue.add_request uuid ep p prio false t s) as [r1 s1] eqn:Hadd.
    cbn [fst snd] in Hret, Hq1, Hp1, Hw1. subst r1. fold x in Hq1.
    assert (Hstep : Queue.step names (Add uuid ep p prio false t) s = s1).
    { cbn [Queue.step]. now rewrite Hadd. }
    specialize (IH s1). cbv zeta in IH. fold rest_items in IH.
    destruct IH as (Hids & Hrun & Hq & Hproc & Hw).
    { intros a b Ha Hb. rewrite Hq1 in Hb. apply elem_of_app in Hb as [Hb|Hb].
      - apply Hold; [|exact Hb]. rewrite Hitems. now right.
      - apply list_elem_of_singleton in Hb as ->.
        apply list_elem_of_lookup_1 in Ha as [j Hj].
        apply (Hnew 0%nat (S j)); rewrite ?Hitems; [reflexivity|exact Hj|lia]. }
    { intros i j a b Hi Hj Hij.
      apply (Hnew (S i) (S j)); rewrite ?Hitems; [exact Hi|exact Hj|lia]. }
    destruct (Queue.add_bulk_requests ep rest prio s1) as [r2 s2] eqn:Hrest.
    cbn [fst snd] in Hids, Hrun, Hq, Hproc, Hw. subst r2.
    cbn [fst snd List.map Queue.run fold_left]. rewrite Hstep.
    split; [reflexivity|]. split; [exact Hrun|]. split.
    + rewrite Hq, Hq1, Hitems, <- app_assoc. reflexivity.
    + split.
      * intros _. destruct rest as [|x' rest']; [|apply Hproc; discriminate].
        cbn in Hrest. injection Hrest as <-. exact Hp1.
      * assert (Hkeep : forall l s0, processing s0 = true ->
                  workers (snd (Queue.add_bulk_requests ep l prio s0)) = workers s0).
        { clear. induction l as [|[[u q] t0] l IHl]; intros s0 Hon; [reflexivity|].
          cbn [Queue.add_bulk_requests].
          assert (Hs' : processing (snd (Queue.add_request u ep q prio false t0 s0)) = true /\
                        workers (snd (Queue.add_request u ep q prio false t0 s0)) = workers s0).
          { unfold Queue.add_request, Queue.start_processing.
            destruct (Queue.heappush _ _) as [[[]|e] heap];
              cbn [snd processing workers Queue.set_queue negb]; rewrite ?Hon; auto. }
          destruct (Queue.add_request u ep q prio false t0 s0) as [[rid|e] s']; cbn [snd] in *.
          - destruct Hs' as [Hon' Hws']. specialize (IHl s' Hon').
            destruct (Queue.add_bulk_requests ep l prio s') as [[ids|e] s'']; cbn [snd] in *;
              congruence.
          - apply Hs'. }
        specialize (Hkeep rest s1 Hp1). rewrite Hrest in Hkeep. cbn [snd] in Hkeep.
        rewrite Hkeep, Hw1. destruct (processing s); cbn [length]; lia.
Qed.

(** Three requests created one after the other, put on the queue of the
    module as it stands. *)
Lemma add_bulk_requests_enqueues_in_order_witness :
  let out := Queue.add_bulk_requests "getproduct"
               [("r1", [("Sku", VStr "A")], 1%Q); ("r2", [("Sku", VStr "B")], 2%Q);
                ("r3", [("Sku", VStr "C")], 3%Q)] 5 (Queue.init 2) in
  fst out = Return ["r1"; "r2"; "r3"] /\ processing (snd out) = true.
Proof.
  intros out.
  destruct (add_bulk_requests_enqueues_in_order Queue.api_client_names "getproduct"
              [("r1", [("Sku", VStr "A")], 1%Q); ("r2", [("Sku", VStr "B")], 2%Q);
               ("r3", [("Sku", VStr "C")], 3%Q)] 5 (Queue.init 2))
    as (Hids & _ & _ & Hproc & _).
  - intros x y _ Hy. inversion Hy.
  - intros [|[|[|i]]] [|[|[|j]]] x y Hi Hj Hij; try lia; try discriminate;
      injection Hi as <-; injection Hj as <-; reflexivity.
  - split; [exact Hids|]. apply Hproc. discriminate.
Defined.

(** *** Bulk results *)

Lemma collect_lookup (pairs : list (string * result pyvalue)) :
  forall acc req_id,
    (is_Some (Queue.collect acc pairs !! req_id) <->
     is_Some (acc !! req_id) \/ req_id ∈ pairs.*1) /\
    (forall v, Queue.collect acc pairs !! req_id = Some v ->
               acc !! req_id = Some v \/ exists r, (req_id, r) ∈ pairs /\ v = Queue.filed r).
Proof.
  induction pairs as [|[k r] pairs IH]; intros acc req_id.
  - cbn. split; [|auto]. split; [auto|]. intros [H|H]; [exact H|]. inversion H.
  - assert (Hstep : Queue.collect acc ((k, r) :: pairs)
                    = Queue.collect (<[k := Queue.filed r]> acc) pairs)
      by (destruct r; reflexivity).
    rewrite Hstep. destruct (IH (<[k := Queue.filed r]> acc) req_id) as [IH1 IH2].
    split.
    + rewrite IH1, lookup_insert_is_Some, fmap_cons, elem_of_cons. cbn [fst].
      destruct (decide (k = req_id)) as [->|Hne]; [tauto|].
      split; [intros [[?|[_ ?]]|?]|intros [?|[?|?]]]; try tauto; congruence.
    + intros v Hv. destruct (IH2 v Hv) as [Hacc|(r' & Hin & ->)].
      * destruct (decide (k = req_id)) as [->|Hne].
        -- rewrite lookup_insert_eq in Hacc. injection Hacc as <-.
           right. exists r. split; [now left|reflexivity].
        -- rewrite lookup_insert_ne in Hacc by assumption. now left.
      * right. exists r'. split; [now right|reflexivity].
Qed.

Lemma get_result_total history request_id timeout clk :
  exists r clk',
    Queue.get_result history request_id timeout (Queue.checks_within timeout) clk
    = Some (r, clk') /\
    (r = Queue.timed_out request_id \/
     exists k rd, history k !! request_id = Some rd /\ r = Queue.outcome rd).
Proof.
  unfold Queue.get_result.
  destruct (get_result_loop_ends history request_id (time_time clk) timeout
              (Queue.checks_within timeout) 0%nat clk) as (r & clk' & Hloop).
  { unfold time_time. pose proof (checks_within_enough timeout). lra. }
  exists r, clk'. split; [exact Hloop|].
  exact (get_result_loop_sound _ _ _ _ _ _ _ _ _ Hloop).
Qed.

Lemma gathered_pairs history timeout clk (request_ids : list string) :
  let gathered := List.map (fun req_id => Queue.get_result history req_id timeout
                                            (Queue.checks_within timeout) clk) request_ids in
  forallb (fun o => match o with Some _ => true | None => false end) gathered = true /\
  exists pairs,
    List.flat_map (fun io => match snd io with
                             | Some (r, _) => [(fst io, r)]
                             | None => []
                             end) (combine request_ids gathered) = pairs /\
    pairs.*1 = request_ids /\
    Forall (fun ir => snd ir = Queue.timed_out (fst ir) \/
                      exists k rd, history k !! fst ir = Some rd /\ snd ir = Queue.outcome rd)
           pairs.
Proof.
  induction request_ids as [|req_id ids IH]; intros gathered.
  - split; [reflexivity|]. exists []. repeat split. constructor.
  - destruct IH as (Hall & pairs & Hflat & Hfst & Hsound).
    destruct (get_result_total history req_id timeout clk) as (r & clk' & Hget & Hr).
    unfold gathered. cbn [List.map forallb combine List.flat_map snd fst].
    rewrite Hget. cbn [andb]. split; [exact Hall|].
    exists ((req_id, r) :: pairs). split; [cbn [app]; now rewrite Hflat|].
    split; [cbn; now rewrite Hfst|]. constructor; [exact Hr|exact Hsound].
Qed.

(** [get_bulk_results] does not raise and leaves no id out: it returns a
    dict with one entry for each id asked for.  The entry is the payload of
    a success found in time; a stored error and a timeout are both filed
    as [{"error": message}], the message being the stored error text or
    "Timeout waiting for result of <id>". *)
Theorem get_bulk_results_answers_every_id :
  forall (history : nat -> gmap string ResultData) (request_ids : list string)
         (timeout : Q) (clk : Clock),
  exists out,
    Queue.get_bulk_results history request_ids timeout (Queue.checks_within timeout) clk
    = Some out /\
    (forall req_id, is_Some (out !! req_id) <-> req_id ∈ request_ids) /\
    (forall req_id v, out !! req_id = Some v ->
       v = VDict [("error", VStr ("Timeout waiting for result of " ++ req_id))] \/
       exists k rd,
         history k !! req_id = Some rd /\
         v = match rd with
             | StatusSuccess res _ => res
             | StatusError error _ => VDict [("error", VStr error)]
             end).
Proof.
  intros history request_ids timeout clk.
  destruct (gathered_pairs history timeout clk request_ids) as (Hall & pairs & Hflat & Hfst & Hsound).
  cbv zeta in Hall, Hflat.
  unfold Queue.get_bulk_results. rewrite Hall, Hflat.
  eexists. split; [reflexivity|]. split.
  - intros req_id. destruct (collect_lookup pairs ∅ req_id) as [Hdom _].
    rewrite Hdom, Hfst, lookup_empty. split; [intros [[x Hx]|H]; [discriminate|exact H]|auto].
  - intros req_id v Hv. destruct (collect_lookup pairs ∅ req_id) as [_ Hval].
    destruct (Hval v Hv) as [Hacc|(r & Hin & ->)].
    { rewrite lookup_empty in Hacc. discriminate. }
    pose proof (proj1 (Forall_forall _ _) Hsound _ Hin) as Hr. cbn [fst snd] in Hr.
    destruct Hr as [->|(k & rd & Hk & ->)].
    + left. reflexivity.
    + right. exists k, rd. split; [exact Hk|]. destruct rd; reflexivity.
Qed.
(** ** [utils/validators.py] and the batches of [batch_update_products] *)

Lemma startswith_nil (s : string) : PyStr.startswith "" s = true.
Proof. destruct s; reflexivity. Qed.

Lemma has_char_In (c : ascii) (s : string) :
  PyStr.has_char c s = true <-> In c (list_ascii_of_string s).
Proof.
  unfold PyStr.has_char. induction s as [|b s IH].
  - cbn. split; [discriminate|tauto].
  - cbn [PyStr.contains PyStr.startswith list_ascii_of_string In].
    rewrite orb_true_iff, IH.
    destruct (Ascii.eqb c b) eqn:E.
    + apply Ascii.eqb_eq in E. subst. tauto.
    + apply Ascii.eqb_neq in E. split; [intros [?|?]; [discriminate|tauto]|].
      intros [?|?]; [congruence|tauto].
Qed.

Lemma first_invalid_None (chars : list ascii) (sku : string) :
  Validators.first_invalid chars sku = None <->
  forall c, In c chars -> ~ In c (list_ascii_of_string sku).
Proof.
  induction chars as [|c chars IH]; cbn [Validators.first_invalid In].
  - split; [tauto|reflexivity].
  - destruct (PyStr.has_char c sku) eqn:E.
    + apply has_char_In in E. split; [discriminate|]. intros H. exfalso. apply (H c); tauto.
    + rewrite IH. split.
      * intros H c' [<-|Hc']; [|now apply H].
        intros Hin. apply has_char_In in Hin. congruence.
      * intros H c' Hc'. apply H. tauto.
Qed.

Lemma lstrip_length (s : string) : (String.length (PyStr.lstrip s) <= String.length s)%nat.
Proof.
  induction s as [|c s IH]; [reflexivity|]. cbn [PyStr.lstrip].
  destruct (PyStr.is_space c); cbn [String.length]; lia.
Qed.

Lemma lstrip_fixed (s : string) :
  PyStr.lstrip s = s <-> s = "" \/ exists c rest, s = String c rest /\ PyStr.is_space c = false.
Proof.
  destruct s as [|c s]; [cbn; tauto|]. cbn [PyStr.lstrip].
  destruct (PyStr.is_space c) eqn:E.
  - split.
    + intros H. pose proof (lstrip_length s) as Hl. rewrite H in Hl. cbn in Hl. lia.
    + intros [?|(c' & rest & [= <- <-] & Hc)]; congruence.
  - split; [|reflexivity]. intros _. right. eauto.
Qed.

(** On ASCII text the strips of text are the strips of bytes. *)
Lemma ascii_not_continuation (c : ascii) :
  PyStr.is_ascii c = true -> PyStr.is_continuation c = false.
Proof. destruct c as [[] [] [] [] [] [] [] []]; intros H; try discriminate H; reflexivity. Qed.

Lemma ascii_not_space2 (a b : ascii) : PyStr.is_ascii a = true -> PyStr.is_space2 a b = false.
Proof. destruct a as [[] [] [] [] [] [] [] []]; intros H; try discriminate H; reflexivity. Qed.

Lemma ascii_not_space3 (a b c : ascii) :
  PyStr.is_ascii a = true -> PyStr.is_space3 a b c = false.
Proof. destruct a as [[] [] [] [] [] [] [] []]; intros H; try discriminate H; reflexivity. Qed.

Lemma len_ascii (s : string) :
  PyStr.all_in PyStr.is_ascii s = true -> PyStr.len s = String.length s.
Proof.
  induction s as [|c s IH]; [reflexivity|]. cbn [PyStr.all_in PyStr.len String.length].
  intros H. apply andb_true_iff in H as [Hc Hs].
  now rewrite (ascii_not_continuation c Hc), (IH Hs).
Qed.

Lemma lstrip_text_ascii (s : string) :
  PyStr.all_in PyStr.is_ascii s = true -> PyStr.lstrip_text s = PyStr.lstrip s.
Proof.
  induction s as [|a rest IH]; [reflexivity|]. cbn [PyStr.all_in].
  intros H. apply andb_true_iff in H as [Ha Hrest].
  cbn [PyStr.lstrip_text PyStr.lstrip].
  destruct (PyStr.is_space a); [exact (IH Hrest)|].
  destruct rest as [|b rest2]; [reflexivity|].
  rewrite (ascii_not_space2 a b Ha).
  destruct rest2 as [|c rest3]; [reflexivity|].
  now rewrite (ascii_not_space3 a b c Ha).
Qed.

Lemma all_in_app (cls : ascii -> bool) (s t : string) :
  PyStr.all_in cls (s ++ t) = PyStr.all_in cls s && PyStr.all_in cls t.
Proof.
  induction s as [|c s IH]; [reflexivity|].
  change (String c s ++ t) with (String c (s ++ t)). cbn [PyStr.all_in].
  now rewrite IH, andb_assoc.
Qed.

Lemma lstrip_nothing_left (s : string) :
  PyStr.lstrip s = "" -> PyStr.all_in PyStr.is_space s = true.
Proof.
  induction s as [|c s IH]; [reflexivity|]. cbn [PyStr.lstrip PyStr.all_in].
  destruct (PyStr.is_space c); [exact IH|discriminate].
Qed.

Lemma rstrip_text_length (s : string) :
  (String.length (PyStr.rstrip_text s) <= String.length s)%nat.
Proof.
  induction s as [|c s IH]; [reflexivity|]. cbn [PyStr.rstrip_text].
  destruct (PyStr.lstrip_text (String c s)); cbn [String.length] in *; lia.
Qed.

Lemma rstrip_text_fixed (s : string) :
  PyStr.all_in PyStr.is_ascii s = true ->
  (PyStr.rstrip_text s = s <->
   s = "" \/ exists front c, s = front ++ String c "" /\ PyStr.is_space c = false).
Proof.
  induction s as [|c s IH]; [cbn; tauto|]. intros Hascii.
  pose proof Hascii as Hall. cbn [PyStr.all_in] in Hall.
  apply andb_true_iff in Hall as [Hc Hs]. specialize (IH Hs).
  cbn [PyStr.rstrip_text]. rewrite (lstrip_text_ascii _ Hascii).
  destruct (PyStr.lstrip (String c s)) as [|l0 l] eqn:Hl.
  - apply lstrip_nothing_left in Hl.
    split; [discriminate|]. intros [?|(front & c0 & Heq & Hc0)]; [discriminate|].
    rewrite Heq, all_in_app in Hl. apply andb_true_iff in Hl as [_ Hl].
    cbn in Hl. rewrite Hc0 in Hl. discriminate.
  - split.
    + intros [= Hfix]. apply IH in Hfix as [->|(front & c0 & -> & Hc0)].
      * right. exists "", c. split; [reflexivity|].
        cbn [PyStr.lstrip] in Hl. destruct (PyStr.is_space c); [discriminate|reflexivity].
      * right. exists (String c front), c0. split; [reflexivity|exact Hc0].
    + intros [?|(front & c0 & Heq & Hc0)]; [discriminate|].
      f_equal. apply IH.
      destruct front as [|f front].
      * left. cbn in Heq. now injection Heq as _ <-.
      * right. exists front, c0. split; [|exact Hc0].
        change (String f front ++ String c0 "") with (String f (front ++ String c0 "")) in Heq.
        now injection Heq as _ ->.
Qed.

Lemma strip_fixed (s : string) :
  PyStr.all_in PyStr.is_ascii s = true ->
  (PyStr.strip s = s <-> PyStr.lstrip s = s /\ PyStr.rstrip_text s = s).
Proof.
  intros Hascii. unfold PyStr.strip. rewrite (lstrip_text_ascii _ Hascii). split.
  - intros H.
    assert (Hl : PyStr.lstrip s = s).
    { destruct s as [|c s]; [reflexivity|]. cbn [PyStr.lstrip] in *.
      destruct (PyStr.is_space c); [|reflexivity].
      pose proof (rstrip_text_length (PyStr.lstrip s)) as H1.
      pose proof (lstrip_length s) as H2. rewrite H in H1. cbn in H1. lia. }
    split; [exact Hl|]. now rewrite Hl in H.
  - intros [Hl Hr]. now rewrite Hl.
Qed.

(** [validate_sku] accepts exactly the ASCII SKUs of 1 to 100 characters
    that hold none of the characters listed as invalid and neither begin
    nor end with a whitespace character (whitespace inside is accepted);
    it says why whenever it rejects. *)
Theorem validate_sku_accepts_exactly :
  forall sku : string,
    PyStr.all_in PyStr.is_ascii sku = true ->
    (Validators.validate_sku sku = (true, None) <->
     (1 <= String.length sku <= 100)%nat /\
     (forall c, In c Validators.invalid_chars -> ~ In c (list_ascii_of_string sku)) /\
     (exists c rest, sku = String c rest /\ PyStr.is_space c = false) /\
     (exists front c, sku = front ++ String c "" /\ PyStr.is_space c = false)) /\
    (fst (Validators.validate_sku sku) = false -> is_Some (snd (Validators.validate_sku sku))).
Proof.
  intros sku Hascii. unfold Validators.validate_sku. rewrite (len_ascii _ Hascii).
  destruct (String.eqb sku "") eqn:Hempty.
  { apply String.eqb_eq in Hempty. subst. split; [|cbn; eauto].
    split; [discriminate|]. intros [[H _] _]. cbn in H. lia. }
  apply String.eqb_neq in Hempty.
  assert (Hlen1 : (1 <= String.length sku)%nat).
  { destruct sku; [congruence|cbn; lia]. }
  destruct (100 <? String.length sku)%nat eqn:Hlong.
  { apply Nat.ltb_lt in Hlong. split; [|cbn; eauto].
    split; [discriminate|]. intros [[_ H] _]. lia. }
  apply Nat.ltb_ge in Hlong.
  destruct (Validators.first_invalid Validators.invalid_chars sku) as [bad|] eqn:Hbad.
  { split; [|cbn; eauto]. split; [discriminate|]. intros (_ & H & _).
    apply (proj2 (first_invalid_None _ _)) in H. congruence. }
  pose proof (proj1 (first_invalid_None _ _) Hbad) as Hclean. clear Hbad.
  destruct (String.eqb sku (PyStr.strip sku)) eqn:Hstrip; cbn [negb].
  - apply String.eqb_eq in Hstrip. symmetry in Hstrip.
    apply (strip_fixed _ Hascii) in Hstrip as [Hl Hr].
    apply lstrip_fixed in Hl as [?|Hl]; [congruence|].
    apply (rstrip_text_fixed _ Hascii) in Hr as [?|Hr]; [congruence|].
    split; [|discriminate]. split; [|reflexivity]. intros _.
    split; [lia|]. split; [exact Hclean|]. split; assumption.
  - apply String.eqb_neq in Hstrip. split; [|cbn; eauto].
    split; [discriminate|]. intros (_ & _ & Hl & Hr). exfalso. apply Hstrip. symmetry.
    apply (strip_fixed _ Hascii).
    split; [apply lstrip_fixed|apply (rstrip_text_fixed _ Hascii)]; now right.
Qed.

(** Outside ASCII the length is counted in characters and the whitespace
    of Unicode is stripped: a no-break space at the end is refused, and a
    hundred two-byte letters are not too long. *)
Lemma validate_sku_outside_ascii :
  Validators.validate_sku (String "a" (String (ascii_of_nat 194) (String (ascii_of_nat 160) "")))
  = (false, Some "SKU cannot have leading or trailing whitespace") /\
  Validators.validate_sku
    (Server.times 100 (String (ascii_of_nat 195) (String (ascii_of_nat 169) "")))
  = (true, None) /\
  Validators.validate_sku
    (Server.times 101 (String (ascii_of_nat 195) (String (ascii_of_nat 169) "")))
  = (false, Some "SKU cannot exceed 100 characters").
Proof. vm_compute. repeat split; reflexivity. Qed.

(** *** The pattern of [validate_location_code] and [validate_barcode] *)

Lemma match_class_plus_unfold (cls : ascii -> bool) (c : ascii) (s : string) :
  PyStr.match_class_plus cls (String c s)
  = cls c && (if String.eqb s "" || String.eqb s (String "010" "") then true
              else PyStr.match_class_plus cls s).
Proof.
  cbn [PyStr.match_class_plus]. f_equal.
  destruct s as [|d s]; [reflexivity|].
  destruct s as [|e s].
  - destruct d as [[] [] [] [] [] [] [] []]; reflexivity.
  - assert (Hne : String.eqb (String d (String e s)) (String "010" "") = false).
    { apply String.eqb_neq. congruence. }
    cbn [orb]. change (String.eqb (String d (String e s)) "") with false. cbn [orb].
    rewrite Hne. destruct d as [[] [] [] [] [] [] [] []]; reflexivity.
Qed.

(** What the pattern matches: a non-empty run of characters of the class,
    alone or followed by one newline. *)
Lemma match_class_plus_spec (cls : ascii -> bool) (s : string) :
  cls "010"%char = false ->
  (PyStr.match_class_plus cls s = true <->
   exists body, body <> "" /\ PyStr.all_in cls body = true /\
                (s = body \/ s = body ++ String "010" "")).
Proof.
  intros Hnl. induction s as [|c s IH].
  - split; [discriminate|]. intros (body & Hne & _ & [H|H]).
    + congruence.
    + destruct body; discriminate.
  - rewrite match_class_plus_unfold. split.
    + intros H. apply andb_true_iff in H as [Hc H].
      destruct (String.eqb s "") eqn:E1.
      { apply String.eqb_eq in E1. subst. exists (String c "").
        repeat split; [discriminate|cbn; now rewrite Hc|now left]. }
      destruct (String.eqb s (String "010" "")) eqn:E2.
      { apply String.eqb_eq in E2. subst. exists (String c "").
        repeat split; [discriminate|cbn; now rewrite Hc|now right]. }
      cbn [orb] in H. apply IH in H as (body & Hne & Hall & Hs).
      exists (String c body). split; [discriminate|]. split; [cbn; now rewrite Hc, Hall|].
      destruct Hs as [->| ->]; [now left|now right].
    + intros (body & Hne & Hall & Hs).
      destruct body as [|b body]; [congruence|]. cbn [PyStr.all_in] in Hall.
      apply andb_true_iff in Hall as [Hb Hall].
      assert (Hs' : c = b /\ (s = body \/ s = body ++ String "010" "")).
      { destruct Hs as [Hs|Hs].
        - injection Hs as -> ->. auto.
        - change (String b body ++ String "010" "")
            with (String b (body ++ String "010" "")) in Hs.
          injection Hs as -> ->. auto. }
      destruct Hs' as [-> Hs']. clear Hs.
      rewrite Hb. cbn [andb].
      destruct body as [|b' body].
      * destruct Hs' as [->| ->]; reflexivity.
      * destruct (String.eqb s "" || String.eqb s (String "010" "")); [reflexivity|].
        apply IH.
        exists (String b' body). split; [discriminate|]. split; [exact Hall|]. exact Hs'.
Qed.

(** [validate_location_code] and [validate_barcode] accept a value that
    is absent or empty; one of up to 50 characters that are all of the
    permitted class; and also such a value followed by one newline, which
    the [$] of their pattern lets through.  Nothing else is accepted. *)
Theorem code_validators_accept_trailing_newline :
  forall code : string,
    let shape cls :=
      code = "" \/
      ((String.length code <= 50)%nat /\
       exists body, body <> "" /\ PyStr.all_in cls body = true /\
                    (code = body \/ code = body ++ String "010" "")) in
    (Validators.validate_location_code (Some code) = (true, None)
     <-> shape Validators.location_char) /\
    (Validators.validate_barcode code = (true, None) <-> shape Validators.barcode_char) /\
    Validators.validate_location_code None = (true, None).
Proof.
  intros code shape.
  assert (Hgen : forall cls (msg1 msg2 : string),
             cls "010"%char = false ->
             ((if (50 <? String.length code)%nat then (false, Some msg1)
               else if negb (PyStr.match_class_plus cls code) then (false, Some msg2)
               else (true, @None string)) = (true, None)
              <-> (String.length code <= 50)%nat /\
                  exists body, body <> "" /\ PyStr.all_in cls body = true /\
                               (code = body \/ code = body ++ String "010" ""))).
  { intros cls msg1 msg2 Hnl.
    destruct (50 <? String.length code)%nat eqn:Hlen.
    - apply Nat.ltb_lt in Hlen. split; [discriminate|]. intros [H _]. lia.
    - apply Nat.ltb_ge in Hlen.
      destruct (PyStr.match_class_plus cls code) eqn:Hm; cbn [negb].
      + apply (match_class_plus_spec cls code Hnl) in Hm. tauto.
      + split; [discriminate|]. intros [_ H].
        apply (match_class_plus_spec cls code Hnl) in H. congruence. }
  split; [|split; [|reflexivity]].
  - unfold shape. destruct code as [|c code]; [cbn; tauto|].
    unfold Validators.validate_location_code.
    rewrite (Hgen Validators.location_char _ _ eq_refl).
    split; [now right|]. intros [?|?]; [discriminate|assumption].
  - unfold shape. destruct code as [|c code]; [cbn; tauto|].
    unfold Validators.validate_barcode.
    rewrite (Hgen Validators.barcode_char _ _ eq_refl).
    split; [now right|]. intros [?|?]; [discriminate|assumption].
Qed.

(** *** [batch_update_products] *)

Lemma range_step_pos (n : nat) :
  (1 <= n)%nat ->
  Server.range_step n 5
  = 0%nat :: List.map (fun i => (i + 5)%nat) (Server.range_step (n - 5) 5).
Proof.
  intros Hn. unfold Server.range_step.
  assert (Hdiv : ((n + 5 - 1) / 5 = S ((n - 5 + 5 - 1) / 5))%nat).
  { destruct (le_lt_dec 5 n) as [Hge|Hlt].
    - replace (n + 5 - 1)%nat with ((n - 5 + 5 - 1) + 1 * 5)%nat by lia.
      rewrite Nat.div_add by lia. lia.
    - replace (n - 5 + 5 - 1)%nat with 4%nat by lia.
      change (4 / 5)%nat with 0%nat.
      assert (Hq : (5 * 1 <= n + 5 - 1 < 5 * 2)%nat) by lia.
      destruct Hq as [Hq1 Hq2].
      apply Nat.div_le_lower_bound in Hq1; [|lia].
      apply Nat.Div0.div_lt_upper_bound in Hq2. lia. }
  rewrite Hdiv. cbn [seq List.map]. f_equal.
  rewrite <- seq_shift, !List.map_map. apply List.map_ext. intros j. lia.
Qed.

Lemma batches_cons {A} (updates : list A) :
  (1 <= length updates)%nat ->
  Server.batches updates = take 5 updates :: Server.batches (drop 5 updates).
Proof.
  intros Hn. unfold Server.batches, Server.batch_size.
  rewrite range_step_pos by assumption. cbn [List.map]. f_equal.
  rewrite length_drop, List.map_map. apply List.map_ext. intros i.
  now rewrite drop_drop, (Nat.add_comm 5 i).
Qed.

Lemma pauses_cons {A} (updates : list A) :
  (1 <= length updates)%nat ->
  Server.pauses updates
  = ((if (5 <? length updates)%nat then [1%Q] else []) ++ Server.pauses (drop 5 updates))%list.
Proof.
  intros Hn. unfold Server.pauses, Server.batch_size.
  rewrite range_step_pos by assumption. cbn [List.flat_map]. f_equal.
  rewrite length_drop, !flat_map_concat_map, List.map_map. f_equal.
  apply List.map_ext_in. intros i Hi.
  destruct (le_lt_dec 5 (length updates)) as [Hge|Hlt].
  - destruct (i + 5 + 5 <? length updates)%nat eqn:E1;
      destruct (i + 5 <? length updates - 5)%nat eqn:E2; try reflexivity;
      [apply Nat.ltb_lt in E1; apply Nat.ltb_ge in E2
      |apply Nat.ltb_ge in E1; apply Nat.ltb_lt in E2]; lia.
  - exfalso. replace (length updates - 5)%nat with 0%nat in Hi by lia.
    cbn in Hi. exact Hi.
Qed.

Lemma batches_nil {A} : Server.batches (@nil A) = [] /\ Server.pauses (@nil A) = [].
Proof. split; reflexivity. Qed.

Lemma batches_spec {A} (n : nat) :
  forall updates : list A,
    (length updates <= n)%nat ->
    concat (Server.batches updates) = updates /\
    Forall (fun batch => (1 <= length batch <= 5)%nat) (Server.batches updates) /\
    (5 * length (Server.batches updates) < length updates + 5)%nat /\
    (length updates <= 5 * length (Server.batches updates))%nat /\
    Server.pauses updates = repeat 1%Q (length (Server.batches updates) - 1).
Proof.
  induction n as [|n IH]; intros updates Hlen.
  - destruct updates; [|cbn in Hlen; lia]. cbn. repeat split; try lia. constructor.
  - destruct updates as [|u updates].
    { cbn. repeat split; try lia. constructor. }
    assert (Hpos : (1 <= length (u :: updates))%nat) by (cbn; lia).
    rewrite (pauses_cons (u :: updates) Hpos), (batches_cons (u :: updates) Hpos).
    destruct (IH (drop 5 (u :: updates))) as (Hcat & Hsz & Hlo & Hhi & Hp).
    { rewrite length_drop. cbn [length] in *. lia. }
    rewrite length_drop in Hlo, Hhi. cbn [concat length] in *.
    split; [rewrite Hcat; apply take_drop|].
    split; [constructor; [rewrite length_take; cbn [length]; lia|exact Hsz]|].
    split; [lia|]. split; [lia|].
    rewrite Hp.
    destruct (5 <? S (length updates))%nat eqn:E.
    + apply Nat.ltb_lt in E.
      destruct (length (Server.batches (drop 5 (u :: updates)))) as [|k] eqn:Hk; [lia|].
      cbn. now rewrite Nat.sub_0_r.
    + apply Nat.ltb_ge in E.
      destruct (length (Server.batches (drop 5 (u :: updates)))) as [|k] eqn:Hk; [reflexivity|].
      lia.
Qed.

(** The processing loop cuts the updates into batches of five: the
    batches, put end to end, are the updates in their order, none left out
    or repeated; every batch holds between 1 and 5 updates, so at most
    five calls of [updateproduct] are gathered at a time; there are
    [ceil(n / 5)] batches; and the loop sleeps one second between two
    batches, not after the last. *)
Theorem batches_cover_updates_in_order :
  forall (A : Type) (updates : list A),
    concat (Server.batches updates) = updates /\
    Forall (fun batch => (1 <= length batch <= 5)%nat) (Server.batches updates) /\
    length (Server.batches updates) = ((length updates + 4) / 5)%nat /\
    Server.pauses updates = repeat 1%Q (length (Server.batches updates) - 1).
Proof.
  intros A updates.
  destruct (batches_spec (length updates) updates (le_n _)) as (H1 & H2 & H3 & H4 & H5).
  split; [exact H1|]. split; [exact H2|]. split; [|exact H5].
  apply Nat.div_unique with (r := (length updates + 4 - 5 * length (Server.batches updates))%nat); lia.
Qed.

(** *** The validation in front of the batch *)

Lemma check_skus_None (updates : list Server.update) :
  forall idx,
    Server.check_skus idx updates = None <->
    Forall (fun u => exists sku, Server.field "Sku" u = Some sku /\
                                 fst (Validators.validate_sku sku) = true) updates.
Proof.
  induction updates as [|u updates IH]; intros idx; cbn [Server.check_skus].
  - split; [constructor|reflexivity].
  - destruct (Server.field "Sku" u) as [sku|] eqn:Hf.
    + destruct (Validators.validate_sku sku) as [[|] msg] eqn:Hv.
      * rewrite IH. split.
        -- intros H. constructor; [|exact H]. exists sku. rewrite Hv. auto.
        -- intros H. now apply Forall_cons in H as [_ H].
      * split; [discriminate|]. intros H. apply Forall_cons in H as [(sku' & Hs & Hok) _].
        rewrite Hf in Hs. injection Hs as <-. rewrite Hv in Hok. discriminate.
    + split; [discriminate|]. intros H. apply Forall_cons in H as [(sku' & Hs & _) _].
      congruence.
Qed.

(** [batch_update_products] validates the whole list before it sends
    anything: it goes on to process the updates exactly when there are
    between 1 and 100 of them and every one has a ["Sku"] that
    [validate_sku] accepts; otherwise it returns an error and no update of
    the list is sent, the valid ones included. *)
Theorem batch_is_validated_as_a_whole :
  forall updates : list Server.update,
    Server.check_updates updates = None <->
    (1 <= length updates <= 100)%nat /\
    Forall (fun u => exists sku, Server.field "Sku" u = Some sku /\
                                 fst (Validators.validate_sku sku) = true) updates.
Proof.
  intros updates. unfold Server.check_updates, Validators.validate_bulk_items.
  destruct updates as [|u updates].
  { split; [discriminate|]. intros [H _]. cbn in H. lia. }
  destruct (100 <? Z.of_nat (length (u :: updates))) eqn:Hlen.
  - apply Z.ltb_lt in Hlen. split; [discriminate|]. intros [H _]. lia.
  - apply Z.ltb_ge in Hlen. rewrite check_skus_None.
    split; [intros H; split; [cbn [length] in *; lia|exact H]|tauto].
Qed.

(** A location code that ends in a newline passes. *)
Lemma code_validators_accept_trailing_newline_witness :
  Validators.validate_location_code (Some ("A-1" ++ String "010" "")) = (true, None).
Proof.
  refine (proj2 (proj1 (code_validators_accept_trailing_newline
                          ("A-1" ++ String "010" ""))) _).
  right. split; [vm_compute; lia|].
  exists "A-1". split; [discriminate|]. split; [reflexivity|]. right. reflexivity.
Defined.

Lemma validate_sku_accepts_exactly_witness :
  Validators.validate_sku "AB 12" = (true, None).
Proof.
  refine (proj2 (proj1 (validate_sku_accepts_exactly "AB 12" eq_refl)) _).
  split; [vm_compute; lia|]. split.
  - intros c Hbad Hin. cbn in Hbad, Hin.
    repeat (destruct Hbad as [<-|Hbad];
            [repeat (destruct Hin as [Hin|Hin]; [discriminate Hin|]); exact Hin|]).
    exact Hbad.
  - split.
    + exists "A"%char, "B 12". split; reflexivity.
    + exists "AB 1", "2"%char. split; reflexivity.
Defined.

Lemma batch_is_validated_as_a_whole_witness :
  Server.check_updates [[("Sku", "A1"); ("Description", "first")]; [("Sku", "B2")]] = None.
Proof.
  refine (proj2 (batch_is_validated_as_a_whole
                   [[("Sku", "A1"); ("Description", "first")]; [("Sku", "B2")]]) _).
  split; [cbn; lia|].
  repeat constructor; eexists; (split; [reflexivity|reflexivity]).
Defined.
(** ** The retry time in a rate-limit message *)

Lemma startswith_self_app (p t : string) : PyStr.startswith p (p ++ t) = true.
Proof.
  induction p as [|a p IH]; [reflexivity|].
  change (String a p ++ t) with (String a (p ++ t)).
  cbn [PyStr.startswith]. now rewrite Ascii.eqb_refl.
Qed.

Lemma drop_length_app (p t : string) : PyStr.drop (String.length p) (p ++ t) = t.
Proof. induction p as [|a p IH]; [reflexivity|]. exact IH. Qed.

(** Whether [p] starts a string is decided by its first [len(p)] characters. *)
Lemma startswith_app_long (p : string) :
  forall a b, (String.length p <= String.length a)%nat ->
              PyStr.startswith p (a ++ b) = PyStr.startswith p a.
Proof.
  induction p as [|x p IH]; intros a b Hlen; [reflexivity|].
  destruct a as [|y a]; [cbn in Hlen; lia|].
  change (String y a ++ b) with (String y (a ++ b)). cbn [PyStr.startswith].
  destruct (Ascii.eqb x y); [|reflexivity]. apply IH. cbn in Hlen. lia.
Qed.

Lemma contains_cons_false (p : string) (c : ascii) (s : string) :
  PyStr.contains p (String c s) = false ->
  PyStr.startswith p (String c s) = false /\ PyStr.contains p s = false.
Proof. cbn [PyStr.contains]. intros H. now apply orb_false_iff in H. Qed.

Lemma partition_absent (sep s : string) :
  PyStr.contains sep s = false -> PyStr.partition sep s = None.
Proof.
  induction s as [|c s IH]; intros H.
  - cbn in *. apply orb_false_iff in H as [H _]. now rewrite H.
  - apply contains_cons_false in H as [H1 H2].
    cbn [PyStr.partition]. rewrite H1, (IH H2). reflexivity.
Qed.

Lemma string_app_assoc (a b c : string) : (a ++ b) ++ c = a ++ (b ++ c).
Proof.
  induction a as [|x a IH]; [reflexivity|].
  change ((String x a ++ b) ++ c) with (String x ((a ++ b) ++ c)). now rewrite IH.
Qed.

Lemma string_app_length (a b : string) :
  String.length (a ++ b) = (String.length a + String.length b)%nat.
Proof.
  induction a as [|x a IH]; [reflexivity|].
  change (String x a ++ b) with (String x (a ++ b)). cbn [String.length]. now rewrite IH.
Qed.

(** The first occurrence of "Retry after" is where the text before it
    holds none, not even one that would end inside it. *)
Lemma partition_retry_after (pre tail : string) :
  PyStr.contains "Retry after" (pre ++ "Retry afte") = false ->
  PyStr.partition "Retry after" (pre ++ "Retry after" ++ tail) = Some (pre, tail).
Proof.
  induction pre as [|c pre IH]; intros H.
  - change ("" ++ "Retry after" ++ tail) with ("Retry after" ++ tail).
    destruct tail; reflexivity.
  - change (String c pre ++ "Retry afte") with (String c (pre ++ "Retry afte")) in H.
    apply contains_cons_false in H as [H1 H2].
    change (String c pre ++ "Retry after" ++ tail)
      with (String c (pre ++ "Retry after" ++ tail)).
    cbn [PyStr.partition].
    assert (Hs : PyStr.startswith "Retry after" (String c (pre ++ "Retry after" ++ tail))
                 = false).
    { change ("Retry after" ++ tail) with ("Retry afte" ++ (String "r" tail)).
      rewrite <- string_app_assoc.
      change (String c ((pre ++ "Retry afte") ++ String "r" tail))
        with (String c (pre ++ "Retry afte") ++ String "r" tail).
      rewrite startswith_app_long; [exact H1|].
      cbn [String.length]. rewrite string_app_length. cbn. lia. }
    rewrite Hs, (IH H2). reflexivity.
Qed.

Lemma contains_self_app (p pre t : string) : PyStr.contains p (pre ++ p ++ t) = true.
Proof.
  induction pre as [|c pre IH].
  - change ("" ++ p ++ t) with (p ++ t).
    destruct (p ++ t) eqn:E; cbn [PyStr.contains]; rewrite <- E, startswith_self_app;
      reflexivity.
  - change (String c pre ++ p ++ t) with (String c (pre ++ p ++ t)).
    cbn [PyStr.contains]. rewrite IH. apply orb_true_r.
Qed.

Lemma lstrip_spaces (ws s : string) :
  PyStr.all_in PyStr.is_space ws = true -> PyStr.lstrip (ws ++ s) = PyStr.lstrip s.
Proof.
  induction ws as [|c ws IH]; intros H; [reflexivity|].
  cbn [PyStr.all_in] in H. apply andb_true_iff in H as [Hc H].
  change (String c ws ++ s) with (String c (ws ++ s)). cbn [PyStr.lstrip].
  rewrite Hc. now apply IH.
Qed.

Lemma lstrip_only_spaces (ws : string) :
  PyStr.all_in PyStr.is_space ws = true -> PyStr.lstrip ws = "".
Proof.
  induction ws as [|c ws IH]; intros H; [reflexivity|].
  cbn [PyStr.all_in] in H. apply andb_true_iff in H as [Hc H].
  cbn [PyStr.lstrip]. rewrite Hc. now apply IH.
Qed.

Lemma take_word_app (word rest : string) :
  PyStr.all_in (fun c => negb (PyStr.is_space c)) word = true ->
  (rest = "" \/ exists c r, rest = String c r /\ PyStr.is_space c = true) ->
  PyStr.take_word (word ++ rest) = word.
Proof.
  intros Hw Hrest. induction word as [|c word IH].
  - change ("" ++ rest) with rest.
    destruct Hrest as [->|(c & r & -> & Hc)]; [reflexivity|]. cbn. now rewrite Hc.
  - cbn [PyStr.all_in] in Hw. apply andb_true_iff in Hw as [Hc Hw].
    apply negb_true_iff in Hc.
    change (String c word ++ rest) with (String c (word ++ rest)).
    cbn [PyStr.take_word]. rewrite Hc. f_equal. now apply IH.
Qed.

Lemma spaces_hold_no_retry (ws : string) :
  PyStr.all_in PyStr.is_space ws = true -> PyStr.contains "Retry after" ws = false.
Proof.
  induction ws as [|c ws IH]; intros H; [reflexivity|].
  cbn [PyStr.all_in] in H. apply andb_true_iff in H as [Hc H].
  cbn [PyStr.contains]. rewrite (IH H), orb_false_r.
  cbn [PyStr.startswith]. destruct (Ascii.eqb "R" c) eqn:E; [|reflexivity].
  apply Ascii.eqb_eq in E. subst c. discriminate.
Qed.

(** The retry time is looked for after the first "Retry after" of the
    message: the first word that follows it is handed to [float], so
    "... Retry after 30 seconds" gives [float("30")].  When the message
    does not hold these very words (as with a "Retry-After: 30" header
    line), or holds nothing but whitespace after them, there is no retry
    time and the backoff is the exponential one. *)
Theorem retry_time_is_first_word_after_marker `{PyLib} :
  forall (pre spaces word rest : string),
    PyStr.contains "Retry after" (pre ++ "Retry afte") = false ->
    PyStr.all_in PyStr.is_space spaces = true ->
    PyStr.all_in (fun c => negb (PyStr.is_space c)) word = true ->
    (rest = "" \/ exists c r, rest = String c r /\ PyStr.is_space c = true) ->
    PyStr.contains "Retry after" (spaces ++ word ++ rest) = false ->
    (word <> "" ->
     Api.parse_retry_after (pre ++ "Retry after" ++ spaces ++ word ++ rest) = float_of word) /\
    Api.parse_retry_after (pre ++ "Retry after" ++ spaces) = None /\
    (forall error_msg, PyStr.contains "Retry after" error_msg = false ->
                       Api.parse_retry_after error_msg = None).
Proof.
  intros pre spaces word rest Hpre Hsp Hword Hrest Htail.
  split; [|split].
  - intros Hne. unfold Api.parse_retry_after, PyStr.split_second.
    rewrite contains_self_app, (partition_retry_after pre _ Hpre),
      (partition_absent _ _ Htail).
    unfold PyStr.first_word. rewrite (lstrip_spaces spaces _ Hsp).
    assert (Hl : PyStr.lstrip (word ++ rest) = word ++ rest).
    { destruct word as [|c word]; [congruence|].
      cbn [PyStr.all_in] in Hword. apply andb_true_iff in Hword as [Hc _].
      apply negb_true_iff in Hc.
      change (String c word ++ rest) with (String c (word ++ rest)).
      cbn [PyStr.lstrip]. now rewrite Hc. }
    rewrite Hl. pose proof (take_word_app word rest Hword Hrest) as Htw.
    destruct word as [|c word]; [congruence|].
    change (String c word ++ rest) with (String c (word ++ rest)) in *.
    cbv iota. now rewrite Htw.
  - unfold Api.parse_retry_after, PyStr.split_second.
    rewrite contains_self_app, (partition_retry_after pre _ Hpre),
      (partition_absent _ _ (spaces_hold_no_retry spaces Hsp)).
    unfold PyStr.first_word. now rewrite (lstrip_only_spaces spaces Hsp).
  - intros error_msg Hnone. unfold Api.parse_retry_after. now rewrite Hnone.
Qed.

Lemma retry_time_is_first_word_after_marker_witness :
  Api.parse_retry_after (H := Sample.pylib)
    ("429 Too Many Requests. " ++ "Retry after" ++ " " ++ "30" ++ " seconds")
  = Some 30%Q.
Proof.
  refine (proj1 (retry_time_is_first_word_after_marker (H := Sample.pylib)
                   "429 Too Many Requests. " " " "30" " seconds" _ _ _ _ _) _).
  - reflexivity.
  - reflexivity.
  - reflexivity.
  - right. exists " "%char, "seconds". split; reflexivity.
  - reflexivity.
  - discriminate.
Defined.
(** ** [server.py]: the generic call and the product listings *)

Lemma call_endpoint_total `{PyLib} `{Remote} (endpoint_name : string) (kwargs : params)
    (st : Client) :
  exists r st', Api.call_endpoint endpoint_name kwargs st = Some (r, st').
Proof.
  destruct (rate_limit_loop_ends endpoint_name kwargs 3 0 VNone st) as (r & st' & _ & Hr & _).
  - lia.
  - vm_compute. lia.
  - exists r, st'. exact Hr.
Qed.

(** [call_api_endpoint] asks before it changes anything: called without
    [confirm] for an endpoint of its list of mutating endpoints, in any
    letter case, it returns the confirmation request and does not touch the
    client (nothing is posted, the limiter and the cache stay as they are).
    In every case the call comes to an end with a value, which is that
    confirmation request, or the response of [call_endpoint] as it is
    (whatever JSON value the service sent), or, for an exception of
    [call_endpoint], a dict that begins with an ["error"] entry.  And when
    the endpoint is not in the list or [confirm] is given, a response of
    the call is passed on as it is. *)
Theorem unconfirmed_mutation_is_not_sent `{PyLib} `{Remote} :
  forall (endpoint_name : string) (parameters : params) (st : Client),
    (In (PyStr.lower endpoint_name) Server.MUTATING_ENDPOINTS ->
     exists message,
       Server.call_api_endpoint endpoint_name false parameters st
       = Some (VDict [ ("confirmation_required", VBool true);
                       ("message", VStr message);
                       ("action", VStr "call_api_endpoint");
                       ("parameters",
                        VDict (("endpoint_name", VStr endpoint_name)
                               :: ("confirm", VBool true) :: parameters)) ],
               st)) /\
    (forall confirm, exists answer st',
        Server.call_api_endpoint endpoint_name confirm parameters st = Some (answer, st') /\
        ((exists rest, answer = VDict (("confirmation_required", VBool true) :: rest) /\
                       st' = st) \/
         Api.call_endpoint endpoint_name parameters st = Some (Return answer, st') \/
         (exists e error rest,
             Api.call_endpoint endpoint_name parameters st = Some (Raise e, st') /\
             answer = VDict (("error", VStr error) :: rest)))) /\
    (forall confirm response st',
        confirm = true \/ ~ In (PyStr.lower endpoint_name) Server.MUTATING_ENDPOINTS ->
        Api.call_endpoint endpoint_name parameters st = Some (Return response, st') ->
        Server.call_api_endpoint endpoint_name confirm parameters st = Some (response, st')).
Proof.
  intros e parameters st.
  assert (Hmem : existsb (String.eqb (PyStr.lower e)) Server.MUTATING_ENDPOINTS = true
                 <-> In (PyStr.lower e) Server.MUTATING_ENDPOINTS).
  { rewrite existsb_exists. split.
    - intros (x & Hx & Heq). apply String.eqb_eq in Heq. now subst.
    - intros Hin. exists (PyStr.lower e). split; [exact Hin|apply String.eqb_refl]. }
  split; [|split].
  - intros Hin. apply Hmem in Hin. unfold Server.call_api_endpoint. rewrite Hin.
    cbn [Server.REQUIRE_CONFIRMATION andb negb]. eexists. reflexivity.
  - intros confirm. unfold Server.call_api_endpoint.
    destruct (_ && _ && _).
    { eexists _, st. split; [reflexivity|]. left. eexists. split; reflexivity. }
    destruct (call_endpoint_total e parameters st) as (r & st' & ->).
    destruct r as [response|err].
    + exists response, st'. split; [reflexivity|]. right. now left.
    + destruct err; eexists _, st'; (split; [reflexivity|]); right; right;
        eexists _, _, _; (split; [reflexivity|reflexivity]).
  - intros confirm response st' Hgo Hcall. unfold Server.call_api_endpoint.
    assert (Hno : existsb (String.eqb (PyStr.lower e)) Server.MUTATING_ENDPOINTS
                  && Server.REQUIRE_CONFIRMATION && negb confirm = false).
    { destruct Hgo as [->|Hnot]; [now rewrite andb_false_r|].
      assert (E : existsb (String.eqb (PyStr.lower e)) Server.MUTATING_ENDPOINTS = false).
      { apply not_true_iff_false. intros E. apply Hmem in E. contradiction. }
      now rewrite E. }
    now rewrite Hno, Hcall.
Qed.

Lemma unconfirmed_mutation_is_not_sent_witness :
  let st := {| limiter := RL.init; store := Cache.global_cache;
               clock := mkClock 0 []; posts := [] |} in
  exists message,
    Server.call_api_endpoint (H := Sample.pylib) (H0 := Sample.remote)
      "UpdateProduct" false [("Sku", VStr "A1")] st
    = Some (VDict [ ("confirmation_required", VBool true);
                    ("message", VStr message);
                    ("action", VStr "call_api_endpoint");
                    ("parameters",
                     VDict (("endpoint_name", VStr "UpdateProduct")
                            :: ("confirm", VBool true) :: [("Sku", VStr "A1")])) ],
            st).
Proof.
  intros st.
  refine (proj1 (unconfirmed_mutation_is_not_sent (H := Sample.pylib) (H0 := Sample.remote)
                   "UpdateProduct" [("Sku", VStr "A1")] st) _).
  vm_compute. tauto.
Defined.

(** *** A page of products and the cache *)

Lemma dict_get_dict_set (k k' : string) (v : pyvalue) (kvs : list (string * pyvalue)) :
  dict_get k (Server.dict_set k' v kvs)
  = if String.eqb k k' then Some v else dict_get k kvs.
Proof.
  induction kvs as [|[k0 v0] kvs IH]; cbn [Server.dict_set dict_get].
  - destruct (String.eqb k k'); reflexivity.
  - destruct (String.eqb k' k0) eqn:E0; cbn [dict_get].
    + apply String.eqb_eq in E0. subst k0. destruct (String.eqb k k'); reflexivity.
    + rewrite IH. destruct (String.eqb k k') eqn:E; [|reflexivity].
      apply String.eqb_eq in E. subst k'. now rewrite E0.
Qed.

(** What the cache wrapper returns without an error is in the cache. *)
Lemma with_cache_holds_result `{PyLib} `{Remote} (endpoint_name : string) (kwargs : params)
    (st st2 : Client) (res : pyvalue) :
  Api.with_cache Api.raw_call_endpoint endpoint_name kwargs st = (Return res, st2) ->
  is_error_dict res = false ->
  res <> VNone ->
  exists expiry_time,
    cache (store st2) !! Cache._get_cache_key endpoint_name kwargs = Some (res, expiry_time).
Proof.
  intros Hcall Herr Hnone. revert Hcall. unfold Api.with_cache, Cache.get.
  set (key := Cache._get_cache_key endpoint_name kwargs).
  assert (Hbody : forall st1,
             match Api.raw_call_endpoint endpoint_name kwargs st1 with
             | (Return res0, st') =>
                 if negb (is_error_dict res0)
                 then (Return res0,
                       Api.set_store st' (Cache.set (store st') endpoint_name kwargs res0 None
                                            (clock st')))
                 else (Return res0, st')
             | (Raise e, st') => (Raise e, st')
             end = (Return res, st2) ->
             exists expiry_time, cache (store st2) !! key = Some (res, expiry_time)).
  { intros st1. destruct (Api.raw_call_endpoint endpoint_name kwargs st1) as [[res0|e] st'];
      [|discriminate].
    destruct (is_error_dict res0) eqn:E0; cbn [negb]; intros [= -> <-]; [congruence|].
    cbn [Api.set_store store]. unfold Cache.set. rewrite E0.
    cbn [Cache.with_entries cache]. fold key. rewrite lookup_insert_eq. eauto. }
  destruct (cache (store st) !! key) as [[v t]|] eqn:Hk; [destruct (Qltb _ _)|].
  - destruct v; try (intros [= <- <-]; cbn [Api.set_store store]; eauto; fail).
    apply Hbody.
  - apply Hbody.
  - apply Hbody.
Qed.

Lemma rate_limit_loop_holds_result `{PyLib} `{Remote} (endpoint_name : string)
    (kwargs : params) :
  forall (fuel : nat) (retry_count : Z) (last : pyvalue) (st st' : Client) (res : pyvalue),
    retry_count < Api.max_retries ->
    Api.rate_limit_loop (Api.with_cache Api.raw_call_endpoint) fuel retry_count last
      endpoint_name kwargs st = Some (Return res, st') ->
    is_error_dict res = false ->
    res <> VNone ->
    exists expiry_time,
      cache (store st') !! Cache._get_cache_key endpoint_name kwargs = Some (res, expiry_time).
Proof.
  unfold Api.max_retries.
  induction fuel as [|fuel IH]; intros rc last st st' res Hrc;
    cbn [Api.rate_limit_loop]; unfold Api.max_retries;
    (assert (E : (rc <? 3) = true) by (apply Z.ltb_lt; lia)); rewrite E; [discriminate|].
  destruct (RL.wait_if_needed (limiter st) endpoint_name (clock st))
    as [[[]|ex] [rl1 clk1]]; [|discriminate].
  destruct (Api.with_cache Api.raw_call_endpoint endpoint_name kwargs _)
    as [[res1|ex] st2] eqn:Hcall; [|discriminate].
  assert (Hdone : forall rl,
             Some (Return res1, Api.set_limiter st2 rl) = Some (Return res, st') ->
             is_error_dict res = false -> res <> VNone ->
             exists expiry_time,
               cache (store st') !! Cache._get_cache_key endpoint_name kwargs
               = Some (res, expiry_time)).
  { intros rl [= -> <-] Herr Hnone. cbn [Api.set_limiter store].
    eapply with_cache_holds_result; eauto. }
  destruct res1 as [| b | n | s | l | kvs]; try apply Hdone.
  destruct (dict_get "error" kvs) as [err|] eqn:Hget; [|apply Hdone].
  destruct (Api.signals_rate_limit (py_str err)); [|apply Hdone].
  destruct (RL.handle_rate_limit_error _ endpoint_name _ (clock st2)) as [rl3 wait_time].
  unfold Api.max_retries.
  destruct (rc <? 3 - 1) eqn:E2.
  - apply Z.ltb_lt in E2. apply IH. lia.
  - cbn [Api.set_limiter limiter]. apply Hdone.
Qed.

(** [get_products] filters the response of a single page in place, and
    the response is the object the cache holds.  After a call with
    [active_only=True] the cache therefore holds the filtered page, with
    its [FilteredCount], under the key of the request; and a later call
    for the same page with [active_only=False] that is served from the
    cache gets that filtered page: the inactive products are missing from
    it although they were asked for. *)
Theorem filtered_page_replaces_cached_page `{PyLib} `{Remote} :
  forall (page_number : option Z) (page_size : Z) (skus : option (list string))
         (st st1 : Client) (kvs : list (string * pyvalue)) (products active : list pyvalue),
    let params := Server.page_params (default 0 page_number) (Z.min page_size 10000) skus in
    let key := Cache._get_cache_key "getproducts" params in
    let filtered :=
      VDict (Server.dict_set "FilteredCount" (VInt (Z.of_nat (length active)))
               (Server.dict_set "Products" (VList active) kvs)) in
    Api.call_endpoint "getproducts" params st = Some (Return (VDict kvs), st1) ->
    dict_get "error" kvs = None ->
    dict_get "Products" kvs = Some (VList products) ->
    Server.filter_active products = Some active ->
    exists st2 expiry_time,
      Server.get_products_page page_number page_size skus true st = Server.Done (filtered, st2) /\
      cache (store st2) !! key = Some (filtered, expiry_time) /\
      forall (st3 : Client) (rl : RateLimiter) (clk : Clock),
        store st3 = store st2 ->
        RL.wait_if_needed (limiter st3) "getproducts" (clock st3) = (Return tt, (rl, clk)) ->
        (now clk < expiry_time)%Q ->
        Server.get_products_page page_number page_size skus false st3
        = Server.Done (filtered,
                {| limiter := RL.reset_retry_count rl "getproducts";
                   store := store st3; clock := clk; posts := posts st3 |}).
Proof.
  intros page_number page_size skus st st1 kvs products active params key filtered
         Hcall Herr Hprod Hact.
  assert (Hnoerr : is_error_dict (VDict kvs) = false) by (cbn; now rewrite Herr).
  destruct (rate_limit_loop_holds_result "getproducts" params 3 0 VNone st st1 (VDict kvs))
    as [expiry Hheld]; [reflexivity|exact Hcall|exact Hnoerr|discriminate|].
  fold key in Hheld.
  set (st2 := Server.assign_shared "getproducts" params (VDict kvs) filtered st1).
  assert (Hst2 : cache (store st2) !! key = Some (filtered, expiry)).
  { unfold st2, Server.assign_shared. rewrite Hnoerr. fold key. rewrite Hheld.
    cbn [Api.set_store store Cache.with_entries cache]. apply lookup_insert_eq. }
  exists st2, expiry. split; [|split; [exact Hst2|]].
  - unfold Server.get_products_page. fold params. rewrite Hcall.
    cbn [negb Server.has_products]. rewrite Hprod.
    cbn [option_bind Server.iterate]. rewrite Hact. reflexivity.
  - intros st3 rl clk Hstore Hwait Hfresh.
    unfold Server.get_products_page. fold params.
    rewrite (call_endpoint_on_hit st3 "getproducts" params filtered expiry rl clk).
    + reflexivity.
    + rewrite Hstore. exact Hst2.
    + discriminate.
    + unfold filtered. cbn [is_error_dict]. rewrite !dict_get_dict_set. cbn. now rewrite Herr.
    + exact Hwait.
    + exact Hfresh.
Qed.

Lemma filtered_page_replaces_cached_page_witness :
  let st := {| limiter := RL.init; store := Cache.global_cache;
               clock := mkClock 0 []; posts := [] |} in
  let only_active :=
    VDict [ ("Products", VList [VDict [("Sku", VStr "A1"); ("IsActive", VBool true)]]);
            ("TotalRecords", VInt 2); ("FilteredCount", VInt 1) ] in
  exists st2 st4,
    Server.get_products_page (H := Sample.pylib) (H0 := Sample.catalog_remote)
      None 100 None true st = Server.Done (only_active, st2) /\
    Server.get_products_page (H := Sample.pylib) (H0 := Sample.catalog_remote)
      None 100 None false (Api.set_clock st2 (elapse 60 (clock st2))) = Server.Done (only_active, st4) /\
    posts st4 = posts st2.
Proof.
  intros st only_active.
  destruct (filtered_page_replaces_cached_page (H := Sample.pylib) (H0 := Sample.catalog_remote)
              None 100 None st
              {| limiter := RL.reset_retry_count
                              (fst (snd (RL.wait_if_needed RL.init "getproducts" (mkClock 0 []))))
                              "getproducts";
                 store := Cache.set (H := Sample.pylib) Cache.global_cache "getproducts"
                            (Server.page_params 0 100 None) Sample.catalog None (mkClock 0 []);
                 clock := mkClock 0 [];
                 posts := [("getproducts", Server.page_params 0 100 None)] |}
              [ ("Products",
                 VList [ VDict [("Sku", VStr "A1"); ("IsActive", VBool true)];
                         VDict [("Sku", VStr "B2"); ("IsActive", VBool false)] ]);
                ("TotalRecords", VInt 2) ]
              [ VDict [("Sku", VStr "A1"); ("IsActive", VBool true)];
                VDict [("Sku", VStr "B2"); ("IsActive", VBool false)] ]
              [ VDict [("Sku", VStr "A1"); ("IsActive", VBool true)] ])
    as (st2 & expiry & Hfirst & Hheld & Hlater).
  - vm_compute. reflexivity.
  - reflexivity.
  - reflexivity.
  - reflexivity.
  - exists st2. eexists. split; [exact Hfirst|].
    assert (Hexp : expiry = (0 + inject_Z 300)%Q).
    { vm_compute in Hfirst. injection Hfirst as <-. vm_compute in Hheld.
      injection Hheld as <-. reflexivity. }
    split.
    + apply (Hlater (Api.set_clock st2 (elapse 60 (clock st2)))
               (fst (snd (RL.wait_if_needed (limiter st2) "getproducts" (elapse 60 (clock st2)))))
               (snd (snd (RL.wait_if_needed (limiter st2) "getproducts" (elapse 60 (clock st2)))))).
      * reflexivity.
      * vm_compute in Hfirst. injection Hfirst as <-. vm_compute. reflexivity.
      * rewrite Hexp. vm_compute in Hfirst. injection Hfirst as <-. vm_compute. reflexivity.
    + reflexivity.
Defined.

(** *** All pages *)

Section AllPages.

Context `{PyLib} `{Remote}.
Variables (page_size : Z) (skus : option (list string)) (active_only : bool).
Variable Inv : Client -> Prop.
Variable answer : Z -> list (string * pyvalue).
Variable items : Z -> list pyvalue.

Let size := Z.min page_size 1000.

Hypothesis Hcall :
  forall page st0, Inv st0 ->
    exists st', Api.call_endpoint "getproducts" (Server.page_params page size skus) st0
                = Some (Return (VDict (answer page)), st') /\ Inv st'.
Hypothesis Hitems :
  forall page, exists l,
    dict_get "Products" (answer page) = Some (VList l) /\
    (if active_only then Server.filter_active l else Some l) = Some (items page).

Lemma get_all_loop_rest (total_pages : Z) :
  forall (m fuel k : nat) (acc : list pyvalue) (st0 : Client),
    Inv st0 ->
    (1 <= k)%nat ->
    m = Z.to_nat (total_pages - Z.of_nat k) ->
    (m <= fuel)%nat ->
    exists st',
      Server.get_all_loop fuel (Z.of_nat k) total_pages acc page_size skus active_only st0
      = Server.Done (Server.all_answer
                       (acc ++ concat (List.map items (List.map Z.of_nat (seq k m))))
                       active_only (Z.of_nat (k + m)), st') /\
      Inv st'.
Proof.
  induction m as [|m IH]; intros fuel k acc st0 HI Hk Hm Hfuel.
  - assert (E : (Z.of_nat k <? total_pages) = false) by (apply Z.ltb_ge; lia).
    exists st0. split; [|exact HI].
    destruct fuel; cbn [Server.get_all_loop]; rewrite E; cbn [seq List.map concat];
      rewrite app_nil_r, Nat.add_0_r; reflexivity.
  - assert (E : (Z.of_nat k <? total_pages) = true) by (apply Z.ltb_lt; lia).
    destruct fuel as [|fuel]; [lia|]. cbn [Server.get_all_loop]. rewrite E. fold size.
    destruct (Hcall (Z.of_nat k) st0 HI) as (st1 & -> & HI1).
    destruct (Hitems (Z.of_nat k)) as (l & Hl & Hkept).
    cbn [Server.has_products]. rewrite Hl. cbn [option_bind Server.iterate]. rewrite Hkept.
    assert (E0 : (Z.of_nat k =? 0) = false) by (apply Z.eqb_neq; lia). rewrite E0.
    replace (Z.of_nat k + 1) with (Z.of_nat (S k)) by lia.
    destruct (IH fuel (S k) (acc ++ items (Z.of_nat k))%list st1 HI1) as (st' & -> & HI');
      [lia|lia|lia|].
    exists st'. split; [|exact HI'].
    cbn [seq List.map concat]. rewrite <- app_assoc.
    replace (S k + m)%nat with (k + S m)%nat by lia. reflexivity.
Qed.

Lemma get_all_products_pages (st : Client) (n : Z) :
  0 < size ->
  Inv st ->
  Server.total_records (answer 0) = Some n ->
  let pages := Z.max 1 ((n + size - 1) / size) in
  forall fuel, (Z.to_nat pages <= fuel)%nat ->
    exists st',
      Server.get_all_products fuel page_size skus active_only st
      = Server.Done (Server.all_answer
                       (concat (List.map items (List.map Z.of_nat (seq 0 (Z.to_nat pages)))))
                       active_only pages, st') /\
      Inv st'.
Proof.
  intros Hsize HI Hn pages fuel Hfuel.
  set (N := (n + size - 1) / size) in *.
  set (m := Z.to_nat (N - 1)).
  assert (Hpages : Z.to_nat pages = S m) by (unfold pages, m; lia).
  rewrite Hpages in *. destruct fuel as [|fuel]; [lia|].
  unfold Server.get_all_products. cbn [Server.get_all_loop].
  change (0 <? 1) with true. cbv iota. fold size.
  destruct (Hcall 0 st HI) as (st1 & -> & HI1).
  destruct (Hitems 0) as (l & Hl & Hkept).
  cbn [Server.has_products]. rewrite Hl. cbn [option_bind Server.iterate]. rewrite Hkept.
  change (0 =? 0) with true. cbv iota. rewrite Hn.
  assert (Ez : (size =? 0) = false) by (apply Z.eqb_neq; lia). rewrite Ez.
  fold N. change (0 + 1) with (Z.of_nat 1).
  destruct (get_all_loop_rest N m fuel 1 ([] ++ items 0)%list st1 HI1) as (st' & -> & HI');
    [lia|unfold m; lia|lia|].
  exists st'. split; [|exact HI'].
  cbn [seq List.map concat app]. rewrite <- seq_shift, !List.map_map.
  assert (Hp : Z.of_nat (1 + m) = pages) by (unfold pages, m; lia).
  rewrite Hp. reflexivity.
Qed.

End AllPages.

(** [get_products] with [get_all=True] asks for page 0, reads the number
    of pages off its [TotalRecords] and asks for the others in turn.
    When the first response holds no ["Products"] (as the error mapping
    that the call returns after a failure does), the tool stops after this
    one page and answers with an empty list of products and
    [TotalRecords] 0: the error is not reported.  When every page comes
    with its products, it fetches [ceil(TotalRecords / size)] pages, at
    least one, [size] being the page size capped at 1000, and returns
    their products (the active ones, if so asked) in the order of the
    pages, with their number as [TotalRecords]. *)
Theorem get_all_fetches_every_page `{PyLib} `{Remote} :
  forall (page_size : Z) (skus : option (list string)) (active_only : bool) (st : Client),
    let size := Z.min page_size 1000 in
    (forall kvs st1 fuel,
        Api.call_endpoint "getproducts" (Server.page_params 0 size skus) st
        = Some (Return (VDict kvs), st1) ->
        dict_get "Products" kvs = None ->
        (1 <= fuel)%nat ->
        Server.get_all_products fuel page_size skus active_only st
        = Server.Done (Server.all_answer [] active_only 1, st1)) /\
    (forall (Inv : Client -> Prop) (answer : Z -> list (string * pyvalue))
            (items : Z -> list pyvalue) (n : Z),
        0 < size ->
        Inv st ->
        (forall page st0, Inv st0 ->
           exists st', Api.call_endpoint "getproducts" (Server.page_params page size skus) st0
                       = Some (Return (VDict (answer page)), st') /\ Inv st') ->
        (forall page, exists l,
           dict_get "Products" (answer page) = Some (VList l) /\
           (if active_only then Server.filter_active l else Some l) = Some (items page)) ->
        Server.total_records (answer 0) = Some n ->
        let pages := Z.max 1 ((n + size - 1) / size) in
        forall fuel, (Z.to_nat pages <= fuel)%nat ->
          exists st',
            Server.get_all_products fuel page_size skus active_only st
            = Server.Done
                (Server.all_answer
                   (concat (List.map items (List.map Z.of_nat (seq 0 (Z.to_nat pages)))))
                   active_only pages, st')).
Proof.
  intros page_size skus active_only st size. split.
  - intros kvs st1 fuel Hcall Hnone Hfuel.
    destruct fuel as [|fuel]; [lia|].
    unfold Server.get_all_products. cbn [Server.get_all_loop].
    change (0 <? 1) with true. cbv iota. fold size. rewrite Hcall.
    cbn [Server.has_products]. rewrite Hnone.
    change (0 + 1) with 1. destruct fuel; reflexivity.
  - intros Inv answer items n Hsize HI Hcall Hitems Hn pages fuel Hfuel.
    destruct (get_all_products_pages page_size skus active_only Inv answer items
                Hcall Hitems st n Hsize HI Hn fuel Hfuel) as (st' & Hrun & _).
    exists st'. exact Hrun.
Qed.

(** The states in which the catalogue service is called for products:
    the limit of the endpoint is the initial one and the cache holds
    nothing but answers of the service. *)
Lemma catalog_call (page : Z) (st0 : Client) :
  let Inv := fun st : Client =>
               rate_limits (limiter st) !! "getproducts" = Some 5 /\
               forall key v t, cache (store st) !! key = Some (v, t) -> v = Sample.catalog in
  Inv st0 ->
  exists st',
    Api.call_endpoint (H := Sample.pylib) (H0 := Sample.catalog_remote)
      "getproducts" (Server.page_params page (Z.min 1 1000) None) st0
    = Some (Return Sample.catalog, st') /\ Inv st'.
Proof.
  intros Inv [Hlim Hvals].
  set (params := Server.page_params page (Z.min 1 1000) None).
  assert (Hkey : forall rl, rate_limits rl = rate_limits (limiter st0) ->
                            RL.get_rate_limit_key rl "getproducts" = "getproducts").
  { intros rl Hrl. unfold RL.get_rate_limit_key. rewrite Hrl.
    change (PyStr.lower "getproducts") with "getproducts". now rewrite Hlim. }
  destruct (wait_if_needed_returns (limiter st0) "getproducts" (clock st0))
    as (rl1 & clk1 & Hwait).
  { rewrite (Hkey _ eq_refl). unfold RL.calls_per_minute. rewrite Hlim. discriminate. }
  assert (Hrl1 : rate_limits rl1 = rate_limits (limiter st0)).
  { pose proof (wait_keeps_limits (limiter st0) "getproducts" (clock st0)) as Hk.
    now rewrite Hwait in Hk. }
  unfold Api.call_endpoint. cbn [Api.rate_limit_loop].
  change (0 <? Api.max_retries) with true. cbv iota. rewrite Hwait. cbv iota beta.
  set (st1 := Api.set_clock (Api.set_limiter st0 rl1) clk1).
  assert (Hwc : exists c2 sent,
             Api.with_cache (H := Sample.pylib) (Api.raw_call_endpoint (H := Sample.catalog_remote))
               "getproducts" params st1
             = (Return Sample.catalog,
                {| limiter := rl1; store := c2; clock := clk1; posts := sent |}) /\
             forall key v t, cache c2 !! key = Some (v, t) -> v = Sample.catalog).
  { unfold Api.with_cache, Cache.get.
    assert (Hmiss : forall c1,
               (forall key v t, cache c1 !! key = Some (v, t) -> v = Sample.catalog) ->
               exists c2 sent,
                 match Api.raw_call_endpoint (H := Sample.catalog_remote) "getproducts" params
                         (Api.set_store st1 c1) with
                 | (Return res, st2) =>
                     if negb (is_error_dict res)
                     then (Return res,
                           Api.set_store st2
                             (Cache.set (H := Sample.pylib) (store st2) "getproducts" params
                                res None (clock st2)))
                     else (Return res, st2)
                 | (Raise e, st2) => (Raise e, st2)
                 end
                 = (Return Sample.catalog,
                    {| limiter := rl1; store := c2; clock := clk1; posts := sent |}) /\
                 forall key v t, cache c2 !! key = Some (v, t) -> v = Sample.catalog).
    { intros c1 Hc1. eexists _, _. split; [reflexivity|].
      intros key v t. cbn [Api.set_store store clock]. unfold Cache.set.
      change (is_error_dict Sample.catalog) with false. cbv iota.
      cbn [Cache.with_entries cache].
      destruct (decide (Cache._get_cache_key (H := Sample.pylib) "getproducts" params = key))
        as [<-|Hne].
      - rewrite lookup_insert_eq. now intros [= <- _].
      - rewrite lookup_insert_ne by assumption. apply Hc1. }
    cbn [store st1 Api.set_clock Api.set_limiter].
    destruct (cache (store st0) !! Cache._get_cache_key "getproducts" params)
      as [[v t]|] eqn:Hk.
    - destruct (Qltb (time_time (clock st1)) t).
      + rewrite (Hvals _ _ _ Hk). change (Qltb _ _) with (Qltb (time_time clk1) t).
        exists (store st0), (posts st0). split; [reflexivity|exact Hvals].
      + apply (Hmiss (Cache.with_entries (store st0)
                        (delete (Cache._get_cache_key "getproducts" params)
                                (cache (store st0))))).
        intros key v0 t0. cbn [Cache.with_entries cache]. intros Hd.
        apply lookup_delete_Some in Hd as [_ Hd]. eapply Hvals, Hd.
    - apply (Hmiss (store st0)). exact Hvals. }
  destruct Hwc as (c2 & sent & -> & Hc2).
  lazy beta iota delta [Sample.catalog dict_get String.eqb Ascii.eqb Bool.eqb].
  eexists. split; [reflexivity|].
  cbn [Api.set_limiter limiter store]. split; [|exact Hc2].
  unfold RL.reset_retry_count. cbn [rate_limits]. now rewrite Hrl1.
Qed.

(** The service answers with a rate-limit error at every attempt: the
    listing comes back empty, after one page.  And a catalogue of two
    products asked for one product a page is fetched in two pages. *)
Lemma get_all_fetches_every_page_witness :
  let st := {| limiter := RL.init; store := Cache.global_cache;
               clock := mkClock 0 []; posts := [] |} in
  let active := [VDict [("Sku", VStr "A1"); ("IsActive", VBool true)]] in
  (exists st1,
     Server.get_all_products (H := Sample.pylib) (H0 := Sample.busy_remote) 1 100 None true st
     = Server.Done (Server.all_answer [] true 1, st1)) /\
  (exists st2,
     Server.get_all_products (H := Sample.pylib) (H0 := Sample.catalog_remote) 2 1 None true st
     = Server.Done (Server.all_answer (active ++ active) true 2, st2)).
Proof.
  intros st active. split.
  - assert (Hcall : { st1 : Client |
                      Api.call_endpoint (H := Sample.pylib) (H0 := Sample.busy_remote)
                        "getproducts" (Server.page_params 0 (Z.min 100 1000) None) st
                      = Some (Return (VDict [("error", VStr "HTTP 429 error")]), st1) }).
    { eexists. vm_compute. reflexivity. }
    destruct Hcall as [st1 Hcall]. exists st1.
    refine (proj1 (get_all_fetches_every_page (H := Sample.pylib) (H0 := Sample.busy_remote)
                     100 None true st) [("error", VStr "HTTP 429 error")] st1 1%nat Hcall _ _).
    + reflexivity.
    + lia.
  - refine (proj2 (get_all_fetches_every_page (H := Sample.pylib) (H0 := Sample.catalog_remote)
                     1 None true st)
              (fun st0 : Client =>
                 rate_limits (limiter st0) !! "getproducts" = Some 5 /\
                 forall key v t, cache (store st0) !! key = Some (v, t) -> v = Sample.catalog)
              (fun _ => [ ("Products",
                           VList [ VDict [("Sku", VStr "A1"); ("IsActive", VBool true)];
                                   VDict [("Sku", VStr "B2"); ("IsActive", VBool false)] ]);
                          ("TotalRecords", VInt 2) ])
              (fun _ => active) 2 _ _ _ _ _ 2%nat _).
    + reflexivity.
    + split; [reflexivity|]. intros key v t Hk. cbn in Hk. rewrite lookup_empty in Hk.
      discriminate.
    + intros page st0 HI. exact (catalog_call page st0 HI).
    + intros page. eexists. split; reflexivity.
    + reflexivity.
    + vm_compute. lia.
Defined.
